(** * Federated evaluation harness: metrics, folds and the cross-validation loop

    A shallow embedding of [results_implementation.py].  The file is a
    concatenation of notebook scripts; two of them are embedded here:

    - [Colorectal]: the first script (SubstraFL, colorectal polyps), whose
      [calculate_metrics y_true y_pred] works on predicted labels and has
      no guard on its divisions;
    - [Cervical]: the second script (SubstraFL, cervical cells), whose
      [calculate_metrics y_true y_pred_prob threshold] binarises class
      probabilities, guards sensitivity and specificity, and whose
      [federated_kfold_cross_validation] is the k-fold harness.  The
      MetisFL, Flower and Fed-BioMed scripts repeat these definitions.

    Conventions.  Python exceptions are values of [exn] carried by
    [result]; the harness runs in a state-and-error monad [M] over a
    [world] holding the event log, the heap of model instances and the
    allocation counter.  Floating-point numbers are represented by the
    rationals they denote ([Q]) extended with the IEEE specials that numpy
    produces on a division by zero ([np_float]); rounding is not modelled.
    Calls into numpy, scikit-learn and pandas are embedded by the
    documented behaviour of the called routine; where releases of
    scikit-learn differ ([roc_auc_score] on a single class) the release is
    a parameter, [one_class_policy]. *)

From Stdlib Require Import List ZArith QArith Bool String DecimalString Lia Arith PeanoNat.
From Stdlib Require Import Permutation Sorting.Sorted Sorting.Mergesort.
From Stdlib Require Import Lqa.
Import ListNotations.

Close Scope Q_scope.
Open Scope string_scope.
Open Scope list_scope.
Open Scope nat_scope.

(* ================================================================== *)
(** * Part I: definitions *)
(* ================================================================== *)

(** ** Exceptions and fallible results *)

Inductive exn : Type :=
| ValueError (msg : string)
| IndexError (msg : string).

Inductive result (A : Type) : Type :=
| Ok (a : A)
| Raise (e : exn).

Arguments Ok {A} a.
Arguments Raise {A} e.

Definition bindR {A B : Type} (r : result A) (k : A -> result B) : result B :=
  match r with
  | Ok a => k a
  | Raise e => Raise e
  end.

Declare Scope result_scope.
Delimit Scope result_scope with result.

Notation "x <- c ;; k" := (bindR c (fun x => k))
  (at level 61, c at next level, right associativity) : result_scope.
Notation "' p <- c ;; k" := (bindR c (fun x => match x with p => k end))
  (at level 61, p pattern, c at next level, right associativity) : result_scope.

(** ** numpy scalars and arrays *)

(** A float64 as numpy produces it here: a finite value, or one of the
    specials that a true division by zero yields (with a RuntimeWarning,
    never an exception). *)
Inductive np_float : Type :=
| Finite (q : Q)
| PosInf
| NegInf
| NaN.

(** [a / b] on numpy integers. *)
Definition np_true_divide (a b : Z) : np_float :=
  if (b =? 0)%Z then
    if (a =? 0)%Z then NaN else if (0 <? a)%Z then PosInf else NegInf
  else Finite (inject_Z a / inject_Z b)%Q.

(** [np.unique]: the distinct values, in increasing order. *)
Fixpoint insert_unique (x : Z) (l : list Z) : list Z :=
  match l with
  | [] => [x]
  | y :: l' =>
      if (x <? y)%Z then x :: l
      else if (x =? y)%Z then l
      else y :: insert_unique x l'
  end.

Definition np_unique (l : list Z) : list Z := fold_right insert_unique [] l.

(** [arr[:, 1]] on an (n, 2) array of class probabilities. *)
Definition column1 (y_pred_prob : list (Q * Q)) : list Q := map snd y_pred_prob.

(** Whether [q] is a number of the float32 format, the dtype of what
    Keras predicts: zero, or plus or minus [m * 2^e] for integers
    [0 < m < 2^24] and [-149 <= e <= 104]. *)
Definition is_float32 (q : Q) : bool :=
  let r := Qred q in
  let n := Z.abs (Qnum r) in
  let d := Zpos (Qden r) in
  let ld := Z.log2 d in
  if (n =? 0)%Z then true
  else if negb (d =? 2 ^ ld)%Z then false
  else if (0 <? ld)%Z then (n <? 2 ^ 24)%Z && (ld <=? 149)%Z
  else
    let e := Z.max 0 (Z.log2 n - 23) in
    (e <=? 104)%Z && (n mod 2 ^ e =? 0)%Z.

(** [(col > threshold).astype(int)].  The comparison is made on the
    numbers the floats denote.  numpy first converts the Python float
    [threshold] to the dtype of the column, which leaves a threshold that
    is a float32 number ([is_float32]) as it is; the default is one. *)
Definition Qgt_bool (p threshold : Q) : bool := negb (Qle_bool p threshold).

Definition gt_threshold (threshold p : Q) : Z :=
  if Qgt_bool p threshold then 1%Z else 0%Z.

Definition binarize (col : list Q) (threshold : Q) : list Z :=
  map (gt_threshold threshold) col.

(** [a, b, c, d = arr.ravel()]: the flattened array must hold exactly four
    entries; with fewer, the message tells how many there were. *)
Definition ravel (cm : list (list Z)) : list Z := List.concat cm.

Definition unpack4 (flat : list Z) : result (Z * Z * Z * Z) :=
  match flat with
  | [a; b; c; d] => Ok (a, b, c, d)
  | _ :: _ :: _ :: _ :: _ :: _ => Raise (ValueError "too many values to unpack (expected 4)")
  | _ =>
      Raise (ValueError ("not enough values to unpack (expected 4, got "
                         ++ NilZero.string_of_uint (Nat.to_uint (List.length flat))
                         ++ ")"))
  end.

(** [arr[idx]] with an integer index array: out-of-range indices raise. *)
Fixpoint np_take {A : Type} (arr : list A) (idx : list nat) : result (list A) :=
  match idx with
  | [] => Ok []
  | i :: idx' =>
      match nth_error arr i with
      | None => Raise (IndexError "index out of bounds")
      | Some a => (rest <- np_take arr idx' ;; Ok (a :: rest))%result
      end
  end.

(** ** sklearn.metrics *)

(** Number of samples whose (true, predicted) pair is [(t, p)]. *)
Definition count_pairs (t p : Z) (y_true y_pred : list Z) : Z :=
  Z.of_nat (List.length
    (filter (fun tp => (fst tp =? t)%Z && (snd tp =? p)%Z) (combine y_true y_pred))).

Definition unique_labels (y_true y_pred : list Z) : list Z :=
  np_unique (y_true ++ y_pred).

(** [confusion_matrix(y_true, y_pred)] without a [labels] argument: the
    labels are those that occur in either array, sorted; entry (i, j)
    counts the samples of true label i predicted as j.  The matrix is
    2x2 only when exactly two labels occur. *)
Definition confusion_matrix (y_true y_pred : list Z) : result (list (list Z)) :=
  if negb (List.length y_true =? List.length y_pred) then
    Raise (ValueError "Found input variables with inconsistent numbers of samples")
  else
    let labels := unique_labels y_true y_pred in
    Ok (map (fun t => map (fun p => count_pairs t p y_true y_pred) labels) labels).

(** [accuracy_score(y_true, y_pred)]: the fraction of positions where the
    two arrays agree. *)
Definition count_agree (y_true y_pred : list Z) : Z :=
  Z.of_nat (List.length
    (filter (fun tp => (fst tp =? snd tp)%Z) (combine y_true y_pred))).

Definition accuracy_score (y_true y_pred : list Z) : result np_float :=
  if negb (List.length y_true =? List.length y_pred) then
    Raise (ValueError "Found input variables with inconsistent numbers of samples")
  else Ok (np_true_divide (count_agree y_true y_pred) (Z.of_nat (List.length y_true))).

(** What [roc_auc_score] does when [y_true] holds a single class: older
    releases of scikit-learn raise [ValueError]; recent ones warn and
    return NaN.  The scripts install whatever release is current, so both
    behaviours are kept. *)
Inductive one_class_policy : Type := RaiseOnOneClass | NanOnOneClass.

(** What a (positive, negative) pair of scores adds to the ranking
    count: 1 when the positive is ranked above, one half on a tie. *)
Definition rank_credit (s_pos s_neg : Q) : Q :=
  if Qgt_bool s_pos s_neg then 1%Q
  else if Qeq_bool s_pos s_neg then (1 # 2)%Q
  else 0%Q.

Definition scores_of (c : Z) (y_true : list Z) (y_score : list Q) : list Q :=
  map snd (filter (fun ys => (fst ys =? c)%Z) (combine y_true y_score)).

Definition Qsum (l : list Q) : Q := fold_right Qplus 0%Q l.

(** [roc_auc_score(y_true, y_score)] for a 1-d score.  With exactly two
    classes in [y_true] (the larger one is the positive class) the value
    is the probability that a random positive is ranked above a random
    negative, ties counting one half.  A single class falls under the
    policy above; more than two classes are rejected for a 1-d score. *)
Definition roc_auc_score (one_class : one_class_policy) (y_true : list Z) (y_score : list Q)
  : result np_float :=
  if negb (List.length y_true =? List.length y_score) then
    Raise (ValueError "Found input variables with inconsistent numbers of samples")
  else
    match np_unique y_true with
    | [neg; pos] =>
        let sp := scores_of pos y_true y_score in
        let sn := scores_of neg y_true y_score in
        let credit := Qsum (map (fun p => Qsum (map (rank_credit p) sn)) sp) in
        Ok (Finite (credit / inject_Z (Z.of_nat (List.length sp * List.length sn)))%Q)
    | [_] =>
        match one_class with
        | RaiseOnOneClass =>
            Raise (ValueError
              "Only one class present in y_true. ROC AUC score is not defined in that case.")
        | NanOnOneClass => Ok NaN
        end
    | [] => Raise (ValueError "Found array with 0 sample(s)")
    | _ => Raise (ValueError "multiclass y_true needs a 2-d y_score")
    end.

(** ** Script 1 (colorectal polyps): metrics from predicted labels *)

Module Colorectal.

(** [calculate_metrics(y_true, y_pred)]: no guard on the divisions. *)
Definition calculate_metrics (y_true y_pred : list Z)
  : result (np_float * np_float * np_float) :=
  (cm <- confusion_matrix y_true y_pred ;;
   '(tn, fp, fn, tp) <- unpack4 (ravel cm) ;;
   let accuracy := np_true_divide (tp + tn) (tp + tn + fp + fn) in
   let sensitivity := np_true_divide tp (tp + fn) in
   let specificity := np_true_divide tn (tn + fp) in
   Ok (accuracy, sensitivity, specificity))%result.

End Colorectal.

(** ** sklearn.model_selection.StratifiedKFold

    The stratified splitter is imported by the scripts and is not part of
    the repository.  Its model follows the algorithm of the library:
    every sample receives a test-fold number, class by class, from a
    shuffled round-robin allocation; fold [i] tests on the samples
    numbered [i] and trains on the others.  The generator is left
    abstract: [check_random_state] builds a fresh generator state from an
    integer seed and [rng_shuffle] shuffles a list, returning the next
    state. *)

Record StratifiedKFold : Type := {
  n_splits : nat;
  shuffle : bool;
  random_state : Z
}.

(** Modelled from the spec: the constructor of the StratifiedSplitter; it
    rejects fewer than two splits. *)
Definition new_StratifiedKFold (k : nat) (sh : bool) (seed : Z) : result StratifiedKFold :=
  if k <=? 1 then
    Raise (ValueError
      "k-fold cross-validation requires at least one train/test split by setting n_splits=2 or more")
  else Ok {| n_splits := k; shuffle := sh; random_state := seed |}.

(** The distinct classes of [y], in order of first appearance. *)
Definition classes_of (y : list Z) : list Z :=
  fold_left (fun seen c => if existsb (Z.eqb c) seen then seen else seen ++ [c]) y [].

Fixpoint index_of (c : Z) (classes : list Z) : nat :=
  match classes with
  | [] => 0
  | c' :: rest => if (c =? c')%Z then 0 else S (index_of c rest)
  end.

(** [np.bincount(a, minlength=n)] for an array with entries below [n]. *)
Definition bincount (a : list nat) (n : nat) : list nat :=
  map (count_occ Nat.eq_dec a) (seq 0 n).

(** [a[i::k]]. *)
Definition strided {A : Type} (i k : nat) (a : list A) : list A :=
  map snd
    (filter (fun jx => (i <=? fst jx) && ((fst jx - i) mod k =? 0))
       (combine (seq 0 (List.length a)) a)).

(** [np.arange(k).repeat(counts)]. *)
Definition arange_repeat (k : nat) (counts : list nat) : list nat :=
  flat_map (fun i => repeat i (nth i counts 0)) (seq 0 k).

(** [arr[enc == c] = vals]: the values fill the selected positions in
    order; a different number of values is a shape error. *)
Fixpoint assign_where (c : nat) (enc vals arr : list nat) : result (list nat) :=
  match enc, arr with
  | e :: enc', a :: arr' =>
      if e =? c then
        match vals with
        | v :: vals' => (rest <- assign_where c enc' vals' arr' ;; Ok (v :: rest))%result
        | [] => Raise (ValueError "boolean index assignment: shape mismatch")
        end
      else (rest <- assign_where c enc' vals arr' ;; Ok (a :: rest))%result
  | _, _ =>
      match vals with
      | [] => Ok arr
      | _ :: _ => Raise (ValueError "boolean index assignment: shape mismatch")
      end
  end.

(** [indices[mask]]. *)
Definition mask_select (indices : list nat) (mask : list bool) : list nat :=
  map fst (filter snd (combine indices mask)).

Section Splitter.

Variable rng : Type.
Variable check_random_state : Z -> rng.
Variable rng_shuffle : rng -> list nat -> list nat * rng.
(** Contents of a freshly allocated ([np.empty]) array, by position. *)
Variable uninitialised : nat -> nat.

Definition np_empty (n : nat) : list nat := map uninitialised (seq 0 n).

(** The loop over the classes of [_make_test_folds]: the generator state
    is threaded from one class to the next. *)
Fixpoint fill_classes (sh : bool) (k : nat) (allocation : list (list nat))
  (y_encoded : list nat) (cs : list nat) (st : rng) (test_folds : list nat)
  : result (list nat) :=
  match cs with
  | [] => Ok test_folds
  | c :: cs' =>
      let folds_for_class := arange_repeat k (map (fun row => nth c row 0) allocation) in
      let '(folds_for_class, st') :=
        if sh then rng_shuffle st folds_for_class else (folds_for_class, st) in
      (test_folds' <- assign_where c y_encoded folds_for_class test_folds ;;
       fill_classes sh k allocation y_encoded cs' st' test_folds')%result
  end.

(** Modelled from the spec: the fold assignment of the StratifiedSplitter
    ([StratifiedKFold._make_test_folds] of scikit-learn, absent from the
    repository).  The classes are numbered in order of first appearance;
    slice [i] of the sorted class numbers fixes how many samples of each
    class fold [i] tests on; each class then receives its fold numbers,
    shuffled, at the positions of its samples.  The generator state is
    rebuilt from the integer [random_state] on every call, which is what
    makes the folds reproducible. *)
Definition make_test_folds (skf : StratifiedKFold) (y : list Z) : result (list nat) :=
  let st := check_random_state (random_state skf) in
  let classes := classes_of y in
  let y_encoded := map (fun c => index_of c classes) y in
  let n_classes := List.length classes in
  let y_counts := bincount y_encoded n_classes in
  if forallb (fun cnt => cnt <? n_splits skf) y_counts then
    Raise (ValueError "n_splits cannot be greater than the number of members in each class.")
  else
    let y_order := NatSort.sort y_encoded in
    let allocation :=
      map (fun i => bincount (strided i (n_splits skf) y_order) n_classes)
          (seq 0 (n_splits skf)) in
    fill_classes (shuffle skf) (n_splits skf) allocation y_encoded
      (seq 0 n_classes) st (np_empty (List.length y)).

(** Modelled from the spec: the StratifiedSplitter capability
    ([StratifiedKFold.split] of scikit-learn, absent from the
    repository): all the (train indices, test indices) pairs, in fold
    order.  Empty labels, arrays of different lengths and more splits than
    samples are rejected. *)
Definition split {X : Type} (skf : StratifiedKFold) (x : list X) (y : list Z)
  : result (list (list nat * list nat)) :=
  if List.length y =? 0 then Raise (ValueError "Found array with 0 sample(s)")
  else if negb (List.length x =? List.length y) then
    Raise (ValueError "Found input variables with inconsistent numbers of samples")
  else if List.length x <? n_splits skf then
    Raise (ValueError "Cannot have number of splits greater than the number of samples")
  else
    (test_folds <- make_test_folds skf y ;;
     let indices := seq 0 (List.length x) in
     Ok (map (fun i =>
                let test_mask := map (fun f => f =? i) test_folds in
                (mask_select indices (map negb test_mask), mask_select indices test_mask))
             (seq 0 (n_splits skf))))%result.

End Splitter.

(** ** pandas: column means of a DataFrame *)

Definition is_nan (x : np_float) : bool :=
  match x with NaN => true | _ => false end.

Definition np_add (x y : np_float) : np_float :=
  match x, y with
  | Finite a, Finite b => Finite (a + b)%Q
  | NaN, _ | _, NaN => NaN
  | PosInf, NegInf | NegInf, PosInf => NaN
  | PosInf, _ | _, PosInf => PosInf
  | NegInf, _ | _, NegInf => NegInf
  end.

Definition np_sum (l : list np_float) : np_float := fold_right np_add (Finite 0) l.

Definition np_div_count (x : np_float) (n : nat) : np_float :=
  match x with
  | Finite q => Finite (q / inject_Z (Z.of_nat n))%Q
  | other => other
  end.

(** [Series.mean()] with the default [skipna=True]: missing values are
    left out of both the sum and the count; a column without any value
    has mean NaN. *)
Definition pd_mean (col : list np_float) : np_float :=
  let vals := filter (fun x => negb (is_nan x)) col in
  match vals with
  | [] => NaN
  | _ :: _ => np_div_count (np_sum vals) (List.length vals)
  end.

(** ** Vocabulary of the statements *)

(** Labels restricted to the two classes. *)
Definition binary (l : list Z) : Prop := Forall (fun y => y = 0%Z \/ y = 1%Z) l.

Definition pair_count (f : Z * Z -> bool) (ps : list (Z * Z)) : Z :=
  Z.of_nat (List.length (filter f ps)).

Definition is_pair (t p : Z) (tp : Z * Z) : bool := (fst tp =? t)%Z && (snd tp =? p)%Z.

Definition binary_pairs (ps : list (Z * Z)) : Prop :=
  Forall (fun tp => (fst tp = 0 \/ fst tp = 1) /\ (snd tp = 0 \/ snd tp = 1))%Z ps.

(** The number of samples of true label [t] whose positive-class
    probability exceeds the threshold ([above = true]), or does not
    ([above = false]). *)
Definition samples_at (t : Z) (above : bool) (y_true : list Z)
  (y_pred_prob : list (Q * Q)) (threshold : Q) : Z :=
  Z.of_nat (List.length
    (filter (fun s => (fst s =? t)%Z
                      && Bool.eqb (if Qlt_le_dec threshold (snd (snd s)) then true else false)
                                  above)
            (combine y_true y_pred_prob))).

(** The arithmetic mean of finitely many rationals. *)
Definition arithmetic_mean (qs : list Q) : Q :=
  (Qsum qs / inject_Z (Z.of_nat (List.length qs)))%Q.

Definition finite (x : np_float) : Prop := exists q, x = Finite q.

(** The defined entries of a column whose other entries are NaN. *)
Definition finite_values (col : list np_float) : list Q :=
  flat_map (fun x => match x with Finite q => [q] | _ => [] end) col.

(** [x] is the arithmetic mean of the defined entries of [col], the
    others being NaN; it is NaN when no entry is defined. *)
Definition mean_of_defined (col : list np_float) (x : np_float) : Prop :=
  Forall (fun y => finite y \/ y = NaN) col
  /\ x = match finite_values col with
         | [] => NaN
         | q :: qs => Finite (arithmetic_mean (q :: qs))
         end.

(** [x] is the arithmetic mean of the column [col], all of whose entries
    are finite. *)
Definition mean_of (col : list np_float) (x : np_float) : Prop :=
  exists qs, col = map Finite qs /\ x = Finite (arithmetic_mean qs).

(** ** Script 2 (cervical cells): thresholded metrics and the k-fold harness *)

Module Cervical.

(** *** The model factory *)

Inductive architecture : Type := ResNet | AlexNet | ZFNet | Bionnica | BFNet.

Inductive activation : Type := Relu | Softmax.

Inductive layer : Type :=
| ResNet50Base (input_shape : nat * nat * nat)
| Conv2D (filters : nat) (kernel : nat * nat) (strides : nat * nat)
         (act : activation) (same_padding : bool)
| MaxPooling2D (pool : nat * nat) (strides : nat * nat)
| Flatten
| Dense (units : nat) (act : activation).

(** The name dispatch of [get_model]; [None] is the final [else]. *)
Definition architecture_of (model_name : string) : option architecture :=
  if String.eqb model_name "resnet" then Some ResNet
  else if String.eqb model_name "alexnet" then Some AlexNet
  else if String.eqb model_name "zfnet" then Some ZFNet
  else if String.eqb model_name "bionnica" then Some Bionnica
  else if String.eqb model_name "bfnet" then Some BFNet
  else None.

Definition layers_of (a : architecture) : list layer :=
  match a with
  | ResNet =>
      [ResNet50Base (224, 224, 3); Flatten; Dense 128 Relu; Dense 2 Softmax]
  | AlexNet =>
      [Conv2D 96 (11, 11) (4, 4) Relu false; MaxPooling2D (3, 3) (2, 2);
       Conv2D 256 (5, 5) (1, 1) Relu true; MaxPooling2D (3, 3) (2, 2);
       Flatten; Dense 4096 Relu; Dense 4096 Relu; Dense 2 Softmax]
  | ZFNet =>
      [Conv2D 96 (7, 7) (2, 2) Relu false; MaxPooling2D (3, 3) (2, 2);
       Conv2D 256 (5, 5) (1, 1) Relu true; MaxPooling2D (3, 3) (2, 2);
       Flatten; Dense 4096 Relu; Dense 4096 Relu; Dense 2 Softmax]
  | Bionnica =>
      [Conv2D 64 (3, 3) (1, 1) Relu false; MaxPooling2D (2, 2) (2, 2);
       Conv2D 128 (3, 3) (1, 1) Relu false; MaxPooling2D (2, 2) (2, 2);
       Flatten; Dense 128 Relu; Dense 2 Softmax]
  | BFNet =>
      [Conv2D 32 (3, 3) (1, 1) Relu false; MaxPooling2D (2, 2) (2, 2);
       Conv2D 64 (3, 3) (1, 1) Relu false;
       Flatten; Dense 64 Relu; Dense 2 Softmax]
  end.

(** The input shape of the network [get_model] builds: the ResNet
    branch fixes it, the others take the [input_shape] argument. *)
Definition input_shape_of (a : architecture) (shape : nat * nat * nat) : nat * nat * nat :=
  match a with
  | ResNet => (224, 224, 3)
  | _ => shape
  end.

(** A Keras model object: its identity is [obj]; its weights live in the
    heap of the [world]. *)
Record model : Type := {
  arch : architecture;
  layers : list layer;
  input_shape : nat * nat * nat;
  obj : nat
}.

(** *** The metrics of one fold *)

(** The default of the [threshold] parameter. *)
Definition default_threshold : Q := (1 # 2)%Q.

Definition calculate_metrics (one_class : one_class_policy)
  (y_true : list Z) (y_pred_prob : list (Q * Q)) (threshold : Q)
  : result (np_float * np_float * np_float * np_float) :=
  let y_pred := binarize (column1 y_pred_prob) threshold in
  (cm <- confusion_matrix y_true y_pred ;;
   '(tn, fp, fn, tp) <- unpack4 (ravel cm) ;;
   accuracy <- accuracy_score y_true y_pred ;;
   let sensitivity := if (0 <? tp + fn)%Z then np_true_divide tp (tp + fn) else Finite 0 in
   let specificity := if (0 <? tn + fp)%Z then np_true_divide tn (tn + fp) else Finite 0 in
   roc_auc <- roc_auc_score one_class y_true (column1 y_pred_prob) ;;
   Ok (accuracy, sensitivity, specificity, roc_auc))%result.

(** One entry of [fold_results]. *)
Record fold_result : Type := {
  fr_fold : nat;
  fr_accuracy : np_float;
  fr_sensitivity : np_float;
  fr_specificity : np_float;
  fr_roc_auc : np_float
}.

(** One row of the returned table: the model name and the column means
    of its fold results (the [fold] column is averaged with the rest). *)
Record summary_row : Type := {
  row_model : string;
  row_fold : np_float;
  row_accuracy : np_float;
  row_sensitivity : np_float;
  row_specificity : np_float;
  row_roc_auc : np_float
}.

Definition dataframe_mean (model_name : string) (fold_results : list fold_result)
  : summary_row :=
  {| row_model := model_name;
     row_fold := pd_mean (map (fun r => Finite (inject_Z (Z.of_nat (fr_fold r)))) fold_results);
     row_accuracy := pd_mean (map fr_accuracy fold_results);
     row_sensitivity := pd_mean (map fr_sensitivity fold_results);
     row_specificity := pd_mean (map fr_specificity fold_results);
     row_roc_auc := pd_mean (map fr_roc_auc fold_results) |}.

(** [enumerate(l)], counting from [start]. *)
Fixpoint enumerate_from {A : Type} (start : nat) (l : list A) : list (nat * A) :=
  match l with
  | [] => []
  | a :: l' => (start, a) :: enumerate_from (S start) l'
  end.

Section Harness.

(** The installed release of scikit-learn, as far as it matters. *)
Variable one_class : one_class_policy.
(** The collaborators the harness calls into. *)
Variable Image : Type.
Variable Weights : Type.
(** Weights of a newly built instance (random initialisation may differ
    from one instance to the next). *)
Variable initial_weights : architecture -> nat -> Weights.
(** [fl_algorithm.fit]: from the current weights and the train and test
    nodes to the trained weights, or an exception. *)
Variable fl_fit :
  Weights -> list Image * list Z -> list Image * list Z -> nat -> result Weights.
(** [model.predict]: one row of two class probabilities per input. *)
Variable keras_predict : Weights -> list Image -> result (list (Q * Q)).
(** The random generator behind the splitter. *)
Variable rng : Type.
Variable check_random_state : Z -> rng.
Variable rng_shuffle : rng -> list nat -> list nat * rng.
Variable uninitialised : nat -> nat.

Inductive event : Type :=
| EvPrintTraining (model_name : string) (k : nat)
| EvPrintFold (fold k : nat) (model_name : string)
| EvGetModel (model_name : string) (m : model)
| EvFit (m : model) (fold : nat) (before : Weights)
        (train_idx test_idx : list nat) (epochs : nat)
| EvPredict (m : model) (test_idx : list nat).

(** [log]: the calls made so far, oldest first.  [heap]: the weights of
    the instances that have been trained, newest binding first; an
    instance without a binding still holds its factory weights.
    [next_obj]: the identity the next new object receives. *)
Record world : Type := {
  log : list event;
  heap : list (nat * Weights);
  next_obj : nat
}.

Definition M (A : Type) : Type := world -> result A * world.

Definition ret {A : Type} (a : A) : M A := fun w => (Ok a, w).

Definition bind {A B : Type} (m : M A) (k : A -> M B) : M B :=
  fun w =>
    match m w with
    | (Ok a, w') => k a w'
    | (Raise e, w') => (Raise e, w')
    end.

Definition liftR {A : Type} (r : result A) : M A := fun w => (r, w).

Definition emit (e : event) : M unit :=
  fun w => (Ok tt, {| log := log w ++ [e]; heap := heap w; next_obj := next_obj w |}).

Declare Scope harness_scope.
Delimit Scope harness_scope with M.

Notation "x <- c ;; k" := (bind c (fun x => k))
  (at level 61, c at next level, right associativity) : harness_scope.
Notation "' p <- c ;; k" := (bind c (fun x => match x with p => k end))
  (at level 61, p pattern, c at next level, right associativity) : harness_scope.
Notation "c ;;; k" := (bind c (fun _ => k))
  (at level 61, right associativity) : harness_scope.

(** A [for] loop that appends one value per iteration. *)
Fixpoint for_each {A B : Type} (l : list A) (body : A -> M B) : M (list B) :=
  match l with
  | [] => ret []
  | a :: l' => (b <- body a ;; bs <- for_each l' body ;; ret (b :: bs))%M
  end.

Fixpoint lookup (o : nat) (h : list (nat * Weights)) : option Weights :=
  match h with
  | [] => None
  | (o', v) :: h' => if o' =? o then Some v else lookup o h'
  end.

Definition current_weights (w : world) (m : model) : Weights :=
  match lookup (obj m) (heap w) with
  | Some v => v
  | None => initial_weights (arch m) (obj m)
  end.

(** [get_model(model_name, input_shape)]: a new compiled instance, or
    [ValueError] for a name outside the five branches. *)
Definition get_model (model_name : string) (shape : nat * nat * nat) : M model :=
  fun w =>
    match architecture_of model_name with
    | None => (Raise (ValueError "Unsupported model name."), w)
    | Some a =>
        let m := {| arch := a; layers := layers_of a;
                    input_shape := input_shape_of a shape;
                    obj := next_obj w |} in
        (Ok m, {| log := log w ++ [EvGetModel model_name m];
                  heap := heap w;
                  next_obj := S (next_obj w) |})
    end.

(** [TensorFlowFLAlgorithm(model=model).fit(train_node, test_node,
    agg_node, epochs)]: trains the instance in place. *)
Definition fit (m : model) (fold : nat) (train_idx test_idx : list nat)
  (train_node test_node : list Image * list Z) (epochs : nat) : M unit :=
  fun w =>
    let before := current_weights w m in
    let w1 := {| log := log w ++ [EvFit m fold before train_idx test_idx epochs];
                 heap := heap w; next_obj := next_obj w |} in
    match fl_fit before train_node test_node epochs with
    | Ok after =>
        (Ok tt, {| log := log w1; heap := (obj m, after) :: heap w1;
                   next_obj := next_obj w1 |})
    | Raise e => (Raise e, w1)
    end.

Definition predict (m : model) (test_idx : list nat) (x_test : list Image)
  : M (list (Q * Q)) :=
  fun w =>
    (keras_predict (current_weights w m) x_test,
     {| log := log w ++ [EvPredict m test_idx]; heap := heap w; next_obj := next_obj w |}).

(** The body of the inner loop: one (model, fold) evaluation. *)
Definition evaluate_fold (images : list Image) (labels : list Z) (k : nat)
  (model_name : string) (item : nat * (list nat * list nat)) : M fold_result :=
  let '(fold, (train_idx, test_idx)) := item in
  (emit (EvPrintFold (fold + 1) k model_name) ;;;
   x_train <- liftR (np_take images train_idx) ;;
   x_test <- liftR (np_take images test_idx) ;;
   y_train <- liftR (np_take labels train_idx) ;;
   y_test <- liftR (np_take labels test_idx) ;;
   m <- get_model model_name (64, 64, 3) ;;
   fit m (fold + 1) train_idx test_idx (x_train, y_train) (x_test, y_test) 5 ;;;
   y_pred_prob <- predict m test_idx x_test ;;
   '(accuracy, sensitivity, specificity, roc_auc) <-
      liftR (calculate_metrics one_class y_test y_pred_prob default_threshold) ;;
   ret {| fr_fold := fold + 1;
          fr_accuracy := accuracy;
          fr_sensitivity := sensitivity;
          fr_specificity := specificity;
          fr_roc_auc := roc_auc |})%M.

(** The body of the outer loop: all the folds of one model, then the
    column means. *)
Definition evaluate_model (skf : StratifiedKFold) (images : list Image) (labels : list Z)
  (k : nat) (model_name : string) : M summary_row :=
  (emit (EvPrintTraining model_name k) ;;;
   folds <- liftR (split rng check_random_state rng_shuffle uninitialised skf images labels) ;;
   fold_results <-
     for_each (enumerate_from 0 folds) (evaluate_fold images labels k model_name) ;;
   ret (dataframe_mean model_name fold_results))%M.

Definition federated_kfold_cross_validation (images : list Image) (labels : list Z)
  (models : list string) (k : nat) : M (list summary_row) :=
  (skf <- liftR (new_StratifiedKFold k true 42) ;;
   for_each models (evaluate_model skf images labels k))%M.

Definition initial_world : world := {| log := []; heap := []; next_obj := 0 |}.

(** *** Vocabulary for statements about runs *)

(** The splitter object the harness builds when [k] is accepted. *)
Definition skf_of (k : nat) : StratifiedKFold :=
  {| n_splits := k; shuffle := true; random_state := 42 |}.

(** The folds the harness works on: those of the splitter, when it
    accepts the data. *)
Definition folds_of (skf : StratifiedKFold) (images : list Image) (labels : list Z)
  : list (list nat * list nat) :=
  match split rng check_random_state rng_shuffle uninitialised skf images labels with
  | Ok folds => folds
  | Raise _ => []
  end.

(** Only objects that have been allocated own weights in the heap. *)
Definition heap_bounded (w : world) : Prop :=
  forall o v, In (o, v) (heap w) -> o < next_obj w.

(** The instances handed to [fit], in call order. *)
Definition fit_ids (evs : list event) : list nat :=
  flat_map (fun e => match e with EvFit m _ _ _ _ _ => [obj m] | _ => [] end) evs.

Definition is_fit (e : event) : bool :=
  match e with EvFit _ _ _ _ _ _ => true | _ => false end.

(** Every training call comes right after the factory call that built
    its instance, itself right after the progress line of the (model,
    fold) pair being processed; the name is a supported one, and the
    instance is found with its factory weights. *)
Definition built_before_fit (evs : list event) : Prop :=
  forall pre m fold before train_idx test_idx epochs post,
    evs = pre ++ EvFit m fold before train_idx test_idx epochs :: post ->
    exists pre' model_name k,
      pre = pre' ++ [EvPrintFold fold k model_name; EvGetModel model_name m]
      /\ architecture_of model_name = Some (arch m)
      /\ before = initial_weights (arch m) (obj m).

(** Every progress line of a (model, fold) pair is followed at once by
    the factory call for the model of that name and by the training call,
    for that fold and five epochs, on the instance the factory returned. *)
Definition pairs_built (evs : list event) : Prop :=
  forall pre fold k model_name post,
    evs = pre ++ EvPrintFold fold k model_name :: post ->
    exists m before train_idx test_idx post',
      post = EvGetModel model_name m
             :: EvFit m fold before train_idx test_idx 5 :: post'.

(** The same, except for a progress line that is the last event: the
    evaluation of its pair ended before the factory returned. *)
Definition pairs_started (evs : list event) : Prop :=
  forall pre fold k model_name post,
    evs = pre ++ EvPrintFold fold k model_name :: post ->
    post = []
    \/ exists m before train_idx test_idx post',
         post = EvGetModel model_name m
                :: EvFit m fold before train_idx test_idx 5 :: post'.

(** A training call works on the fold of its number in [folds]. *)
Definition on_split (folds : list (list nat * list nat)) (e : event) : Prop :=
  match e with
  | EvFit _ fold _ train_idx test_idx _ =>
      1 <= fold /\ nth_error folds (fold - 1) = Some (train_idx, test_idx)
  | _ => True
  end.

(** [row] summarises [model_name] as evaluated from the world [w]: it
    carries that name, and its metrics are the column means of the [k]
    fold results that the inner loop returns for the model, started from
    [w] after the progress line, on the folds of the splitter: the
    arithmetic mean over the [k] folds for accuracy, sensitivity and
    specificity; for ROC-AUC the arithmetic mean over the folds on which
    it is defined, which are all the [k] folds under a release that raises
    on one class. *)
Definition summarises (w : world) (images : list Image) (labels : list Z) (k : nat)
  (model_name : string) (row : summary_row) : Prop :=
  row_model row = model_name
  /\ exists folds fold_results w',
       split rng check_random_state rng_shuffle uninitialised (skf_of k) images labels
       = Ok folds
       /\ for_each (enumerate_from 0 folds) (evaluate_fold images labels k model_name)
            {| log := log w ++ [EvPrintTraining model_name k];
               heap := heap w; next_obj := next_obj w |}
          = (Ok fold_results, w')
       /\ List.length fold_results = k
       /\ mean_of (map fr_accuracy fold_results) (row_accuracy row)
       /\ mean_of (map fr_sensitivity fold_results) (row_sensitivity row)
       /\ mean_of (map fr_specificity fold_results) (row_specificity row)
       /\ mean_of_defined (map fr_roc_auc fold_results) (row_roc_auc row)
       /\ (one_class = RaiseOnOneClass
           \/ Forall (fun fr => finite (fr_roc_auc fr)) fold_results ->
           mean_of (map fr_roc_auc fold_results) (row_roc_auc row)).

(** What a computation adds to the world: the events [evs], objects
    numbered from [next_obj w] on, and weights for allocated objects
    only. *)
Record segment (folds : list (list nat * list nat)) (w : world) (evs : list event)
  (w' : world) : Prop := {
  seg_log : log w' = log w ++ evs;
  seg_next : next_obj w <= next_obj w';
  seg_heap : heap_bounded w';
  seg_fit_nodup : NoDup (fit_ids evs);
  seg_fit_range : forall o, In o (fit_ids evs) -> next_obj w <= o < next_obj w';
  seg_built : built_before_fit evs;
  seg_split : Forall (on_split folds) evs
}.

End Harness.

Arguments EvPrintTraining {Weights} model_name k.
Arguments EvPrintFold {Weights} fold k model_name.
Arguments EvGetModel {Weights} model_name m.
Arguments EvFit {Weights} m fold before train_idx test_idx epochs.
Arguments EvPredict {Weights} m test_idx.
Arguments log {Weights} w.
Arguments heap {Weights} w.
Arguments next_obj {Weights} w.
Arguments ret {Weights A} a w.
Arguments bind {Weights A B} m k w.
Arguments liftR {Weights A} r w.
Arguments emit {Weights} e w.
Arguments for_each {Weights A B} l body.
Arguments lookup {Weights} o h.
Arguments current_weights {Weights} initial_weights w m.
Arguments get_model {Weights} model_name shape w.
Arguments fit {Image Weights} initial_weights fl_fit m fold train_idx test_idx
  train_node test_node epochs w.
Arguments predict {Image Weights} initial_weights keras_predict m test_idx x_test w.
Arguments evaluate_fold one_class {Image Weights} initial_weights fl_fit keras_predict
  images labels k model_name item.
Arguments evaluate_model one_class {Image Weights} initial_weights fl_fit keras_predict
  {rng} check_random_state rng_shuffle uninitialised skf images labels k model_name.
Arguments federated_kfold_cross_validation one_class {Image Weights} initial_weights fl_fit
  keras_predict {rng} check_random_state rng_shuffle uninitialised images labels models k.
Arguments initial_world {Weights}.
Arguments folds_of {Image rng} check_random_state rng_shuffle uninitialised skf images labels.
Arguments heap_bounded {Weights} w.
Arguments summarises one_class {Image Weights} initial_weights fl_fit keras_predict
  {rng} check_random_state rng_shuffle uninitialised w images labels k model_name row.
Arguments fit_ids {Weights} evs.
Arguments is_fit {Weights} e.
Arguments built_before_fit {Weights} initial_weights evs.
Arguments on_split {Weights} folds e.
Arguments pairs_built {Weights} evs.
Arguments pairs_started {Weights} evs.
Arguments segment {Weights} initial_weights folds w evs w'.

End Cervical.

(** ** A synthetic instance of the collaborators

    Used for the worked examples only: an image is represented by the
    positive-class score the toy network gives it; weights count the
    training runs an instance has been through; the generator shuffles by
    reversing. *)

Module Synthetic.

Definition Image : Type := Q.
Definition Weights : Type := nat.

Definition initial_weights (_ : Cervical.architecture) (_ : nat) : Weights := 0.

Definition fl_fit (w : Weights) (_ _ : list Image * list Z) (_ : nat) : result Weights :=
  Ok (S w).

Definition keras_predict (_ : Weights) (x : list Image) : result (list (Q * Q)) :=
  Ok (map (fun p => (1 - p, p)%Q) x).

Definition rng : Type := unit.
Definition check_random_state (_ : Z) : rng := tt.
Definition rng_shuffle (st : rng) (l : list nat) : list nat * rng := (rev l, st).
Definition uninitialised (_ : nat) : nat := 0.

(** Six images, three of each class; the toy network misjudges the
    fourth (a positive scored 0.4) and the fifth (a negative scored 0.7). *)
Definition images : list Image := [1 # 10; 9 # 10; 2 # 10; 4 # 10; 7 # 10; 8 # 10]%Q.
Definition labels : list Z := [0; 1; 0; 1; 0; 1]%Z.

(** Four images with a single positive, all of them scored above one
    half: under two folds, one test fold holds negatives only, whichever
    way the generator shuffles, and the toy network predicts them
    positive. *)
Definition skewed_images : list Image := [9 # 10; 9 # 10; 9 # 10; 19 # 20]%Q.
Definition skewed_labels : list Z := [0; 0; 0; 1]%Z.

Definition run (one_class : one_class_policy)
  (images : list Image) (labels : list Z) (models : list string) (k : nat)
  : result (list Cervical.summary_row) * Cervical.world Weights :=
  Cervical.federated_kfold_cross_validation one_class initial_weights fl_fit keras_predict
    check_random_state rng_shuffle uninitialised images labels models k
    Cervical.initial_world.

End Synthetic.

(** ** A generator that depends on its seed

    The state is a counter started at the seed; a shuffle reverses the
    list at an even state and leaves it alone at an odd one.
    [other_seeding] is another way to build a state from a seed, which
    agrees with [check_random_state] at the seed of the harness only;
    [garbage] is another content of newly allocated arrays. *)

Module SeededGenerator.

Definition rng : Type := Z.
Definition check_random_state (seed : Z) : rng := seed.
Definition other_seeding (seed : Z) : rng := if (seed =? 42)%Z then 42%Z else (seed + 1)%Z.
Definition rng_shuffle (st : rng) (l : list nat) : list nat * rng :=
  (if Z.even st then rev l else l, (st + 1)%Z).
Definition garbage (i : nat) : nat := i + 7.

End SeededGenerator.

(** ** numpy: [np.argmax]

    The colorectal scripts turn class probabilities into labels with
    [np.argmax(model.predict(test_images), axis=1)]. *)

(** The scan behind [np.argmax]: [best_i] is the position of the first
    occurrence of the largest value seen so far, [i] the position of the
    head of [row]. *)
Fixpoint argmax_from (best_i : nat) (best : Q) (i : nat) (row : list Q) : nat :=
  match row with
  | [] => best_i
  | x :: row' =>
      if Qgt_bool x best then argmax_from i x (S i) row'
      else argmax_from best_i best (S i) row'
  end.

(** [np.argmax(row)]: the index of the first occurrence of the maximum;
    an empty row is an error. *)
Definition np_argmax (row : list Q) : result Z :=
  match row with
  | [] => Raise (ValueError "attempt to get argmax of an empty sequence")
  | x :: row' => Ok (Z.of_nat (argmax_from 0 x 1 row'))
  end.

(** [np.argmax(a, axis=1)] on a 2-d array, row by row. *)
Fixpoint np_argmax_axis1 (a : list (list Q)) : result (list Z) :=
  match a with
  | [] => Ok []
  | row :: a' =>
      (i <- np_argmax row ;; rest <- np_argmax_axis1 a' ;; Ok (i :: rest))%result
  end.

(** The rows of an (n, 2) array of class probabilities. *)
Definition rows_of (y_pred_prob : list (Q * Q)) : list (list Q) :=
  map (fun row => [fst row; snd row]) y_pred_prob.

(** ** More vocabulary of the statements *)

(** A metric that is a number between 0 and 1. *)
Definition in_unit_interval (x : np_float) : Prop :=
  exists q, x = Finite q /\ (0 <= q)%Q /\ (q <= 1)%Q.

(** ** More vocabulary for statements about runs of the harness *)

Section TraceVocabulary.

Variable Weights : Type.

Definition is_get_model (e : Cervical.event Weights) : bool :=
  match e with Cervical.EvGetModel _ _ => true | _ => false end.

Definition is_predict (e : Cervical.event Weights) : bool :=
  match e with Cervical.EvPredict _ _ => true | _ => false end.

Definition is_print_training (e : Cervical.event Weights) : bool :=
  match e with Cervical.EvPrintTraining _ _ => true | _ => false end.

(** How many of the logged calls are of the kind [p]. *)
Definition count_events (p : Cervical.event Weights -> bool)
  (evs : list (Cervical.event Weights)) : nat :=
  List.length (filter p evs).

(** Every call of [predict] comes right after the training call of the
    same instance, on the test indices that this training call was given
    as its test node, after five epochs. *)
Definition tested_after_training (evs : list (Cervical.event Weights)) : Prop :=
  forall pre m test_idx post,
    evs = pre ++ Cervical.EvPredict m test_idx :: post ->
    exists pre' fold before train_idx,
      pre = pre' ++ [Cervical.EvFit m fold before train_idx test_idx 5].

(** The calls the harness makes, without the objects and arrays they
    work on.  What the libraries themselves write on standard output
    during [fit] and [predict] is not part of the log. *)
Inductive call : Type :=
| CallPrintTraining (model_name : string) (k : nat)
| CallPrintFold (fold k : nat) (model_name : string)
| CallGetModel (model_name : string)
| CallFit (fold epochs : nat)
| CallPredict.

Definition call_of (e : Cervical.event Weights) : call :=
  match e with
  | Cervical.EvPrintTraining model_name k => CallPrintTraining model_name k
  | Cervical.EvPrintFold fold k model_name => CallPrintFold fold k model_name
  | Cervical.EvGetModel model_name _ => CallGetModel model_name
  | Cervical.EvFit _ fold _ _ _ epochs => CallFit fold epochs
  | Cervical.EvPredict _ _ => CallPredict
  end.

End TraceVocabulary.

Section RecordVocabulary.

Variable one_class : one_class_policy.
Variable Image : Type.
Variable Weights : Type.
Variable initial_weights : Cervical.architecture -> nat -> Weights.
Variable fl_fit :
  Weights -> list Image * list Z -> list Image * list Z -> nat -> result Weights.
Variable keras_predict : Weights -> list Image -> result (list (Q * Q)).

(** [fr] is what measuring [model_name] on one fold gives: a new
    instance of the architecture of that name, trained for five epochs
    from its factory weights on the images and labels at [train_idx],
    predicts the images at [test_idx] with its trained weights, and [fr]
    holds the metrics of these probabilities against the labels at
    [test_idx], at the default threshold. *)
Definition fold_record (images : list Image) (labels : list Z) (model_name : string)
  (fold : list nat * list nat) (fr : Cervical.fold_result) : Prop :=
  let '(train_idx, test_idx) := fold in
  exists x_train y_train x_test y_test a o trained y_pred_prob,
    np_take images train_idx = Ok x_train /\ np_take labels train_idx = Ok y_train
    /\ np_take images test_idx = Ok x_test /\ np_take labels test_idx = Ok y_test
    /\ Cervical.architecture_of model_name = Some a
    /\ fl_fit (initial_weights a o) (x_train, y_train) (x_test, y_test) 5 = Ok trained
    /\ keras_predict trained x_test = Ok y_pred_prob
    /\ Cervical.calculate_metrics one_class y_test y_pred_prob Cervical.default_threshold
       = Ok (Cervical.fr_accuracy fr, Cervical.fr_sensitivity fr,
             Cervical.fr_specificity fr, Cervical.fr_roc_auc fr).

End RecordVocabulary.

Arguments fold_record one_class {Image Weights} initial_weights fl_fit keras_predict
  images labels model_name fold fr.

Arguments call_of {Weights} e.
Arguments is_get_model {Weights} e.
Arguments is_predict {Weights} e.
Arguments is_print_training {Weights} e.
Arguments count_events {Weights} p evs.
Arguments tested_after_training {Weights} evs.

(** A trainer for the worked examples that fails on some folds: it
    raises when the training set lacks the image scored 0.2. *)
Definition flaky_fit (w : Synthetic.Weights) (train_node _ : list Synthetic.Image * list Z)
  (_ : nat) : result Synthetic.Weights :=
  if existsb (Qeq_bool (2 # 10)) (fst train_node) then Ok (S w)
  else Raise (ValueError "training diverged").

(** ** Python dictionaries with string keys

    A [dict] keeps its keys in insertion order; assigning to a key that
    is present replaces the value in place. *)

Definition dict (V : Type) : Type := list (string * V).

Fixpoint dict_get {V : Type} (d : dict V) (key : string) : option V :=
  match d with
  | [] => None
  | (key', v) :: d' => if String.eqb key' key then Some v else dict_get d' key
  end.

(** [d[key] = v]. *)
Fixpoint dict_set {V : Type} (d : dict V) (key : string) (v : V) : dict V :=
  match d with
  | [] => [(key, v)]
  | (key', v') :: d' =>
      if String.eqb key' key then (key', v) :: d' else (key', v') :: dict_set d' key v
  end.

Definition dict_keys {V : Type} (d : dict V) : list string := map fst d.

(** ** Script 4 (MetisFL, colorectal polyps): one training run per model

    [get_model] knows four names and builds every network for 224x224
    inputs; [calculate_metrics] is the label-based function of the first
    script, repeated; [federated_training] trains each requested model
    once and stores its metrics in a dictionary under the model name. *)

Module MetisColorectal.

Inductive architecture : Type := ResNet | AlexNet | ZFNet | Bionnica.

(** The name dispatch of [get_model]; [None] is the final [else]. *)
Definition architecture_of (model_name : string) : option architecture :=
  if String.eqb model_name "resnet" then Some ResNet
  else if String.eqb model_name "alexnet" then Some AlexNet
  else if String.eqb model_name "zfnet" then Some ZFNet
  else if String.eqb model_name "bionnica" then Some Bionnica
  else None.

Definition layers_of (a : architecture) : list Cervical.layer :=
  match a with
  | ResNet =>
      [Cervical.ResNet50Base (224, 224, 3); Cervical.Flatten;
       Cervical.Dense 512 Cervical.Relu; Cervical.Dense 2 Cervical.Softmax]
  | AlexNet =>
      [Cervical.Conv2D 96 (11, 11) (4, 4) Cervical.Relu false;
       Cervical.MaxPooling2D (3, 3) (2, 2);
       Cervical.Conv2D 256 (5, 5) (1, 1) Cervical.Relu true;
       Cervical.MaxPooling2D (3, 3) (2, 2);
       Cervical.Flatten; Cervical.Dense 4096 Cervical.Relu;
       Cervical.Dense 4096 Cervical.Relu; Cervical.Dense 2 Cervical.Softmax]
  | ZFNet =>
      [Cervical.Conv2D 96 (7, 7) (2, 2) Cervical.Relu false;
       Cervical.MaxPooling2D (3, 3) (2, 2);
       Cervical.Conv2D 256 (5, 5) (1, 1) Cervical.Relu true;
       Cervical.MaxPooling2D (3, 3) (2, 2);
       Cervical.Flatten; Cervical.Dense 4096 Cervical.Relu;
       Cervical.Dense 4096 Cervical.Relu; Cervical.Dense 2 Cervical.Softmax]
  | Bionnica =>
      [Cervical.Conv2D 64 (3, 3) (1, 1) Cervical.Relu false;
       Cervical.MaxPooling2D (2, 2) (2, 2);
       Cervical.Conv2D 128 (3, 3) (1, 1) Cervical.Relu false;
       Cervical.MaxPooling2D (2, 2) (2, 2);
       Cervical.Flatten; Cervical.Dense 512 Cervical.Relu;
       Cervical.Dense 2 Cervical.Softmax]
  end.

Record model : Type := {
  arch : architecture;
  layers : list Cervical.layer;
  input_shape : nat * nat * nat;
  obj : nat
}.

(** One value of the [results] dictionary. *)
Record metrics : Type := {
  accuracy : np_float;
  sensitivity : np_float;
  specificity : np_float
}.

Section Pipeline.

Variable Image : Type.
Variable Weights : Type.
Variable initial_weights : architecture -> nat -> Weights.
(** [server.train(rounds)] on the single client that holds the model:
    from the weights of the instance to its trained weights. *)
Variable server_train : Weights -> list Image * list Z -> nat -> result Weights.
Variable keras_predict : Weights -> list Image -> result (list (Q * Q)).

Inductive event : Type :=
| EvPrint (model_name : string)
| EvGetModel (model_name : string) (m : model)
| EvTrain (m : model) (rounds : nat)
| EvPredict (m : model).

Record world : Type := {
  log : list event;
  next_obj : nat
}.

Definition M (A : Type) : Type := world -> result A * world.

Definition ret {A : Type} (a : A) : M A := fun w => (Ok a, w).

Definition bind {A B : Type} (m : M A) (k : A -> M B) : M B :=
  fun w =>
    match m w with
    | (Ok a, w') => k a w'
    | (Raise e, w') => (Raise e, w')
    end.

Definition liftR {A : Type} (r : result A) : M A := fun w => (r, w).

Definition emit (e : event) : M unit :=
  fun w => (Ok tt, {| log := log w ++ [e]; next_obj := next_obj w |}).

Declare Scope pipeline_scope.
Delimit Scope pipeline_scope with P.

Notation "x <- c ;; k" := (bind c (fun x => k))
  (at level 61, c at next level, right associativity) : pipeline_scope.
Notation "' p <- c ;; k" := (bind c (fun x => match x with p => k end))
  (at level 61, p pattern, c at next level, right associativity) : pipeline_scope.
Notation "c ;;; k" := (bind c (fun _ => k))
  (at level 61, right associativity) : pipeline_scope.

(** [get_model(model_name)]: a new compiled instance, or [ValueError]. *)
Definition get_model (model_name : string) : M model :=
  fun w =>
    match architecture_of model_name with
    | None => (Raise (ValueError "Unsupported model name"), w)
    | Some a =>
        let m := {| arch := a; layers := layers_of a; input_shape := (224, 224, 3);
                    obj := next_obj w |} in
        (Ok m, {| log := log w ++ [EvGetModel model_name m];
                  next_obj := S (next_obj w) |})
    end.

(** The server, its single client and [server.train(rounds=5)]: the
    instance is trained in place; the trained weights are what the later
    call of [predict] on the same instance reads. *)
Definition train (m : model) (train_data : list Image * list Z) (rounds : nat)
  : M Weights :=
  (emit (EvTrain m rounds) ;;;
   liftR (server_train (initial_weights (arch m) (obj m)) train_data rounds))%P.

Definition predict (m : model) (trained : Weights) (x : list Image) : M (list (Q * Q)) :=
  (emit (EvPredict m) ;;; liftR (keras_predict trained x))%P.

(** The body of the loop. *)
Definition evaluate_one (train_data test_data : list Image * list Z)
  (model_name : string) : M metrics :=
  (emit (EvPrint model_name) ;;;
   m <- get_model model_name ;;
   trained <- train m train_data 5 ;;
   let '(test_images, test_labels) := test_data in
   y_prob <- predict m trained test_images ;;
   predictions <- liftR (np_argmax_axis1 (rows_of y_prob)) ;;
   '(acc, sens, spec) <- liftR (Colorectal.calculate_metrics test_labels predictions) ;;
   ret {| accuracy := acc; sensitivity := sens; specificity := spec |})%P.

(** The loop, with the dictionary built so far. *)
Fixpoint training_loop (train_data test_data : list Image * list Z)
  (models_list : list string) (results : dict metrics) : M (dict metrics) :=
  match models_list with
  | [] => ret results
  | model_name :: rest =>
      (entry <- evaluate_one train_data test_data model_name ;;
       training_loop train_data test_data rest (dict_set results model_name entry))%P
  end.

Definition federated_training (models_list : list string)
  (train_data test_data : list Image * list Z) : M (dict metrics) :=
  training_loop train_data test_data models_list [].

Definition initial_world : world := {| log := []; next_obj := 0 |}.

Definition is_train (e : event) : bool :=
  match e with EvTrain _ _ => true | _ => false end.

End Pipeline.

Arguments evaluate_one {Image Weights} initial_weights server_train keras_predict
  train_data test_data model_name w.
Arguments training_loop {Image Weights} initial_weights server_train keras_predict
  train_data test_data models_list results.
Arguments federated_training {Image Weights} initial_weights server_train keras_predict
  models_list train_data test_data.

End MetisColorectal.

(** A synthetic instance of the collaborators of the colorectal
    pipeline, for the worked examples: the weights of an instance are its
    object number, training leaves them as they are, and the toy network
    scores an image by its value, or by the complement of its value once
    its weights are 2 or more. *)

Module SyntheticPipeline.

Definition initial_weights (_ : MetisColorectal.architecture) (o : nat) : Synthetic.Weights :=
  o.

Definition server_train (w : Synthetic.Weights) (_ : list Synthetic.Image * list Z)
  (_ : nat) : result Synthetic.Weights :=
  Ok w.

Definition keras_predict (w : Synthetic.Weights) (x : list Synthetic.Image)
  : result (list (Q * Q)) :=
  Ok (map (fun p => if w <? 2 then (1 - p, p)%Q else (p, 1 - p)%Q) x).

Definition train_data : list Synthetic.Image * list Z :=
  ([3 # 10; 6 # 10]%Q, [0; 1]%Z).

Definition test_data : list Synthetic.Image * list Z :=
  ([1 # 10; 9 # 10; 2 # 10; 4 # 10]%Q, [0; 1; 0; 1]%Z).

Definition run (models_list : list string)
  : result (dict MetisColorectal.metrics) * MetisColorectal.world :=
  MetisColorectal.federated_training initial_weights server_train keras_predict
    models_list train_data test_data MetisColorectal.initial_world.

End SyntheticPipeline.

(** ** Script 1 (SubstraFL, colorectal polyps): the dataset *)

(** [seq[idx]] for a Python sequence or a numpy array and an integer
    index: a negative index counts from the end; an index outside
    [-len, len) raises [IndexError]. *)
Definition py_index {A : Type} (l : list A) (idx : Z) : result A :=
  let n := Z.of_nat (List.length l) in
  let i := if (idx <? 0)%Z then (idx + n)%Z else idx in
  if ((i <? 0) || (n <=? i))%Z then Raise (IndexError "index out of range")
  else match nth_error l (Z.to_nat i) with
       | Some a => Ok a
       | None => Raise (IndexError "index out of range")
       end.

Module SubstraColorectal.

Section Dataset.

Variable Image : Type.

(** [transform] is [None] or a callable, which is truthy. *)
Record ColorectalDataset : Type := {
  images : list Image;
  labels : list Z;
  transform : option (Image -> result Image)
}.

(** [__len__]. *)
Definition len (self : ColorectalDataset) : nat := List.length (images self).

(** [__getitem__]. *)
Definition getitem (self : ColorectalDataset) (idx : Z) : result (Image * Z) :=
  (image <- py_index (images self) idx ;;
   label <- py_index (labels self) idx ;;
   image <- match transform self with
            | Some t => t image
            | None => Ok image
            end ;;
   Ok (image, label))%result.

End Dataset.

Arguments images {Image} c.
Arguments labels {Image} c.
Arguments transform {Image} c.
Arguments len {Image} self.
Arguments getitem {Image} self idx.

End SubstraColorectal.

(** ** Script 8 (Fed-BioMed, colorectal polyps): one training request

    [federated_training] builds the ResNet-50 model of [create_model],
    submits one request to the environment and, when the request
    succeeds, measures the model on the test set; otherwise it prints a
    message and returns [None]. *)

Module FedBioMedColorectal.

Section Training.

Variable Image : Type.
Variable Weights : Type.
Variable Status : Type.
(** [status == ResearcherRequestStatus.SUCCESS]. *)
Variable is_success : Status -> bool.
(** The weights of the model that [create_model] returns. *)
Variable created_weights : Weights.
(** [env.run(model_request)]: the status of the request and the weights
    the model of the request is left with, or an exception. *)
Variable env_run :
  Weights -> list Image * list Z -> list Image * list Z -> result (Status * Weights).
Variable keras_predict : Weights -> list Image -> result (list (Q * Q)).

Inductive event : Type :=
| EvRun
| EvPredict
| EvPrint (msg : string).

(** The returned value and the calls made, oldest first. *)
Definition federated_training (train_images : list Image) (train_labels : list Z)
  (test_images : list Image) (test_labels : list Z)
  : result (option MetisColorectal.metrics) * list event :=
  match env_run created_weights (train_images, train_labels) (test_images, test_labels) with
  | Raise e => (Raise e, [EvRun])
  | Ok (status, trained) =>
      if is_success status then
        ((y_prob <- keras_predict trained test_images ;;
          predictions <- np_argmax_axis1 (rows_of y_prob) ;;
          ' (acc, sens, spec) <- Colorectal.calculate_metrics test_labels predictions ;;
          Ok (Some {| MetisColorectal.accuracy := acc;
                      MetisColorectal.sensitivity := sens;
                      MetisColorectal.specificity := spec |}))%result,
         [EvRun; EvPredict])
      else (Ok None, [EvRun; EvPrint "Training failed!"])
  end.

End Training.

Arguments federated_training {Image Weights Status} is_success created_weights env_run
  keras_predict train_images train_labels test_images test_labels.

End FedBioMedColorectal.

(* ================================================================== *)
(** * Part II: properties *)
(* ================================================================== *)

(** ** Labels and thresholding *)

Lemma Qgt_bool_true (p threshold : Q) :
  Qgt_bool p threshold = true <-> (threshold < p)%Q.
Proof.
  unfold Qgt_bool. rewrite negb_true_iff. split.
  - intros H. apply Qnot_le_lt. intros Hle.
    apply Qle_bool_iff in Hle. congruence.
  - intros H. destruct (Qle_bool p threshold) eqn:E; [|reflexivity].
    apply Qle_bool_iff in E. exfalso. exact (Qlt_not_le _ _ H E).
Qed.

Lemma Qgt_bool_false (p threshold : Q) :
  Qgt_bool p threshold = false <-> (p <= threshold)%Q.
Proof.
  unfold Qgt_bool. rewrite negb_false_iff. apply Qle_bool_iff.
Qed.

Lemma gt_threshold_binary (threshold p : Q) :
  gt_threshold threshold p = 0%Z \/ gt_threshold threshold p = 1%Z.
Proof. unfold gt_threshold. destruct (Qgt_bool p threshold); auto. Qed.

Lemma binarize_binary (col : list Q) (threshold : Q) : binary (binarize col threshold).
Proof.
  unfold binary, binarize. apply Forall_forall. intros y Hy.
  apply in_map_iff in Hy. destruct Hy as [p [<- _]]. apply gt_threshold_binary.
Qed.

Lemma binarize_length (col : list Q) (threshold : Q) :
  List.length (binarize col threshold) = List.length col.
Proof. unfold binarize. apply length_map. Qed.

Lemma binarize_nth (y_pred_prob : list (Q * Q)) (threshold : Q) (i : nat) (row : Q * Q) :
  nth_error y_pred_prob i = Some row ->
  nth_error (binarize (column1 y_pred_prob) threshold) i
  = Some (gt_threshold threshold (snd row)).
Proof.
  intros H. unfold binarize, column1. rewrite map_map.
  rewrite nth_error_map, H. reflexivity.
Qed.

(** ** [np.unique] *)

Lemma insert_unique_In (x z : Z) (l : list Z) :
  In z (insert_unique x l) <-> z = x \/ In z l.
Proof.
  induction l as [|y l IH]; simpl.
  - intuition.
  - destruct (x <? y)%Z eqn:E1; simpl; [intuition|].
    destruct (x =? y)%Z eqn:E2; simpl.
    + apply Z.eqb_eq in E2. subst. intuition.
    + rewrite IH. intuition.
Qed.

Lemma np_unique_In (z : Z) (l : list Z) : In z (np_unique l) <-> In z l.
Proof.
  induction l as [|x l IH]; simpl; [tauto|].
  rewrite insert_unique_In, IH. intuition.
Qed.

Lemma insert_unique_sorted (x : Z) (l : list Z) :
  StronglySorted Z.lt l -> StronglySorted Z.lt (insert_unique x l).
Proof.
  induction 1 as [|y l Hs IH Hall]; simpl.
  - repeat constructor.
  - destruct (x <? y)%Z eqn:E1.
    + apply Z.ltb_lt in E1. constructor.
      * constructor; assumption.
      * constructor; [assumption|].
        eapply Forall_impl; [|exact Hall]. intros; lia.
    + destruct (x =? y)%Z eqn:E2.
      * constructor; assumption.
      * apply Z.ltb_ge in E1. apply Z.eqb_neq in E2.
        constructor; [assumption|].
        apply Forall_forall. intros z Hz. apply insert_unique_In in Hz.
        destruct Hz as [-> | Hz]; [lia|].
        rewrite Forall_forall in Hall. auto.
Qed.

Lemma np_unique_sorted (l : list Z) : StronglySorted Z.lt (np_unique l).
Proof.
  induction l; simpl; [constructor | apply insert_unique_sorted; assumption].
Qed.

(** Two sorted duplicate-free lists with the same members are equal. *)
Lemma sorted_members_unique (l1 l2 : list Z) :
  StronglySorted Z.lt l1 -> StronglySorted Z.lt l2 ->
  (forall z, In z l1 <-> In z l2) -> l1 = l2.
Proof.
  intros H1. revert l2. induction H1 as [|a l1 Hs1 IH Ha]; intros l2 H2 Hmem.
  - destruct l2 as [|b l2]; [reflexivity|].
    exfalso. apply (Hmem b). left; reflexivity.
  - inversion H2 as [|b l2' Hs2 Hb]; subst.
    + exfalso. apply (Hmem a). left; reflexivity.
    + rewrite Forall_forall in Ha, Hb.
      assert (a = b).
      { assert (Hab : In a (b :: l2')) by (apply Hmem; left; reflexivity).
        assert (Hba : In b (a :: l1)) by (apply Hmem; left; reflexivity).
        destruct Hab as [Hab | Hab]; [auto|].
        destruct Hba as [Hba | Hba]; [auto|].
        apply Hb in Hab. apply Ha in Hba. lia. }
      subst b. f_equal. apply IH; [assumption|].
      intros z. split; intros Hz.
      * assert (Hin : In z (a :: l2')) by (apply Hmem; right; assumption).
        destruct Hin as [<- | Hin]; [|assumption].
        apply Ha in Hz. lia.
      * assert (Hin : In z (a :: l1)) by (apply Hmem; right; assumption).
        destruct Hin as [<- | Hin]; [|assumption].
        apply Hb in Hz. lia.
Qed.

Lemma np_unique_both_classes (l : list Z) :
  binary l -> In 0%Z l -> In 1%Z l -> np_unique l = [0%Z; 1%Z].
Proof.
  intros Hb H0 H1. apply sorted_members_unique.
  - apply np_unique_sorted.
  - repeat constructor.
  - intros z. rewrite np_unique_In. split.
    + intros Hz. unfold binary in Hb. rewrite Forall_forall in Hb.
      destruct (Hb z Hz) as [-> | ->]; simpl; auto.
    + simpl. intros [<- | [<- | []]]; assumption.
Qed.

Lemma np_unique_one_class (c : Z) (l : list Z) :
  Forall (fun y => y = c) l -> np_unique l = [] \/ np_unique l = [c].
Proof.
  induction 1 as [|y l Hy _ IH]; simpl; [left; reflexivity|].
  subst y. right. destruct IH as [-> | ->]; simpl.
  - reflexivity.
  - rewrite Z.ltb_irrefl, Z.eqb_refl. reflexivity.
Qed.

Lemma binary_app (l1 l2 : list Z) : binary l1 -> binary l2 -> binary (l1 ++ l2).
Proof. unfold binary. intros. apply Forall_app. split; assumption. Qed.

(** ** Counting (true, predicted) pairs *)

Lemma pair_count_cons (f : Z * Z -> bool) (a : Z * Z) (ps : list (Z * Z)) :
  pair_count f (a :: ps) = ((if f a then 1 else 0) + pair_count f ps)%Z.
Proof.
  unfold pair_count. simpl. destruct (f a); simpl List.length; lia.
Qed.

Lemma pair_count_nonneg (f : Z * Z -> bool) (ps : list (Z * Z)) : (0 <= pair_count f ps)%Z.
Proof. unfold pair_count. lia. Qed.

Lemma pair_count_pos (f : Z * Z -> bool) (ps : list (Z * Z)) (a : Z * Z) :
  In a ps -> f a = true -> (0 < pair_count f ps)%Z.
Proof.
  induction ps as [|b ps IH]; simpl; [tauto|].
  intros [-> | Hin] Hf; rewrite pair_count_cons.
  - rewrite Hf. pose proof (pair_count_nonneg f ps). lia.
  - specialize (IH Hin Hf). destruct (f b); lia.
Qed.

Ltac split_labels :=
  repeat match goal with
  | H : _ /\ _ |- _ => destruct H
  | H : _ \/ _ |- _ => destruct H
  end.

(** Decides the label tests of the head pair, leaving sums untouched. *)
Ltac eval_label_tests :=
  unfold is_pair; cbn [fst snd];
  change (0 =? 1)%Z with false; change (1 =? 0)%Z with false;
  change (0 =? 0)%Z with true; change (1 =? 1)%Z with true;
  rewrite ?andb_true_r, ?andb_false_r; cbn [andb].

Lemma pair_count_total (ps : list (Z * Z)) :
  binary_pairs ps ->
  Z.of_nat (List.length ps)
  = (pair_count (is_pair 1 1) ps + pair_count (is_pair 0 0) ps
     + pair_count (is_pair 0 1) ps + pair_count (is_pair 1 0) ps)%Z.
Proof.
  induction 1 as [|[t p] ps Hhd _ IH]; [reflexivity|].
  rewrite !pair_count_cons. simpl List.length. rewrite Nat2Z.inj_succ, IH.
  cbn [fst snd] in Hhd. split_labels; subst; eval_label_tests; lia.
Qed.

Lemma pair_count_agree (ps : list (Z * Z)) :
  binary_pairs ps ->
  pair_count (fun tp => (fst tp =? snd tp)%Z) ps
  = (pair_count (is_pair 1 1) ps + pair_count (is_pair 0 0) ps)%Z.
Proof.
  induction 1 as [|[t p] ps Hhd _ IH]; [reflexivity|].
  rewrite !pair_count_cons, IH.
  cbn [fst snd] in Hhd. split_labels; subst; eval_label_tests; lia.
Qed.

Lemma pair_count_true_class (c : Z) (ps : list (Z * Z)) :
  binary_pairs ps ->
  (pair_count (is_pair c 0) ps + pair_count (is_pair c 1) ps)%Z
  = pair_count (fun tp => (fst tp =? c)%Z) ps.
Proof.
  induction 1 as [|[t p] ps Hhd _ IH]; [reflexivity|].
  rewrite !pair_count_cons, <- IH.
  cbn [fst snd] in Hhd. destruct Hhd as [_ Hp].
  destruct Hp; subst; eval_label_tests; destruct (t =? c)%Z; lia.
Qed.

Lemma combine_binary (y_true y_pred : list Z) :
  binary y_true -> binary y_pred -> binary_pairs (combine y_true y_pred).
Proof.
  unfold binary, binary_pairs. intros Ht Hp. rewrite Forall_forall in *.
  intros [t p] Hin. simpl. split.
  - apply Ht. eapply in_combine_l; eassumption.
  - apply Hp. eapply in_combine_r; eassumption.
Qed.

Lemma in_combine_exists (y_true y_pred : list Z) (t : Z) :
  List.length y_true = List.length y_pred -> In t y_true ->
  exists p, In (t, p) (combine y_true y_pred).
Proof.
  revert y_pred. induction y_true as [|a y_true IH]; intros [|b y_pred] Hlen Hin;
    simpl in *; try tauto; try discriminate.
  destruct Hin as [-> | Hin].
  - exists b. left; reflexivity.
  - destruct (IH y_pred) as [p Hp]; [lia | assumption |].
    exists p. right; assumption.
Qed.

Lemma count_pairs_is_pair (t p : Z) (y_true y_pred : list Z) :
  count_pairs t p y_true y_pred = pair_count (is_pair t p) (combine y_true y_pred).
Proof. reflexivity. Qed.

(** The class of true label [c] is not empty when [c] occurs. *)
Lemma true_class_positive (c : Z) (y_true y_pred : list Z) :
  List.length y_true = List.length y_pred ->
  binary y_true -> binary y_pred -> In c y_true ->
  (0 < count_pairs c 0 y_true y_pred + count_pairs c 1 y_true y_pred)%Z.
Proof.
  intros Hlen Ht Hp Hin.
  rewrite !count_pairs_is_pair, pair_count_true_class by (apply combine_binary; assumption).
  destruct (in_combine_exists y_true y_pred c Hlen Hin) as [p Hp'].
  eapply pair_count_pos; [exact Hp'|]. simpl. apply Z.eqb_refl.
Qed.

Lemma total_count (y_true y_pred : list Z) :
  List.length y_true = List.length y_pred -> binary y_true -> binary y_pred ->
  Z.of_nat (List.length y_true)
  = (count_pairs 1 1 y_true y_pred + count_pairs 0 0 y_true y_pred
     + count_pairs 0 1 y_true y_pred + count_pairs 1 0 y_true y_pred)%Z.
Proof.
  intros Hlen Ht Hp. rewrite !count_pairs_is_pair.
  rewrite <- pair_count_total by (apply combine_binary; assumption).
  rewrite length_combine, <- Hlen, Nat.min_id. reflexivity.
Qed.

Lemma agree_count (y_true y_pred : list Z) :
  binary y_true -> binary y_pred ->
  count_agree y_true y_pred
  = (count_pairs 1 1 y_true y_pred + count_pairs 0 0 y_true y_pred)%Z.
Proof.
  intros Ht Hp. rewrite !count_pairs_is_pair.
  rewrite <- pair_count_agree by (apply combine_binary; assumption). reflexivity.
Qed.

(** ** The sklearn routines on two-class inputs *)

Lemma length_eqb_refl (A B : Type) (l1 : list A) (l2 : list B) :
  List.length l1 = List.length l2 ->
  negb (List.length l1 =? List.length l2) = false.
Proof. intros ->. rewrite Nat.eqb_refl. reflexivity. Qed.

Lemma confusion_matrix_two_classes (y_true y_pred : list Z) :
  List.length y_true = List.length y_pred ->
  binary y_true -> binary y_pred -> In 0%Z y_true -> In 1%Z y_true ->
  confusion_matrix y_true y_pred
  = Ok [[count_pairs 0 0 y_true y_pred; count_pairs 0 1 y_true y_pred];
        [count_pairs 1 0 y_true y_pred; count_pairs 1 1 y_true y_pred]].
Proof.
  intros Hlen Ht Hp H0 H1. unfold confusion_matrix, unique_labels.
  rewrite length_eqb_refl by assumption.
  rewrite np_unique_both_classes; [reflexivity | | |].
  - apply binary_app; assumption.
  - apply in_or_app; left; assumption.
  - apply in_or_app; left; assumption.
Qed.

Lemma unpack4_inv (flat : list Z) (a b c d : Z) :
  unpack4 flat = Ok (a, b, c, d) -> flat = [a; b; c; d].
Proof.
  destruct flat as [|x1 [|x2 [|x3 [|x4 [|x5 rest]]]]]; cbn; try discriminate.
  intros H. inversion H. reflexivity.
Qed.

Lemma ravel_table_length (A : Type) (g : A -> A -> Z) (rows cols : list A) :
  List.length (ravel (map (fun t => map (g t) cols) rows))
  = List.length rows * List.length cols.
Proof.
  unfold ravel. induction rows as [|t rows IH]; [reflexivity|].
  cbn [map List.concat]. rewrite length_app, length_map, IH. reflexivity.
Qed.

(** The four-way unpacking succeeds only on a 2x2 matrix. *)
Lemma confusion_matrix_unpacked (y_true y_pred : list Z) (cm : list (list Z))
  (tn fp fn tp : Z) :
  confusion_matrix y_true y_pred = Ok cm ->
  unpack4 (ravel cm) = Ok (tn, fp, fn, tp) ->
  cm = [[tn; fp]; [fn; tp]].
Proof.
  unfold confusion_matrix.
  destruct (negb (List.length y_true =? List.length y_pred)); [discriminate|].
  intros Hcm Hun. inversion Hcm as [Hcm']. clear Hcm.
  apply unpack4_inv in Hun.
  pose proof (ravel_table_length Z (fun t p => count_pairs t p y_true y_pred)
                (unique_labels y_true y_pred) (unique_labels y_true y_pred)) as Hlen.
  cbv beta in Hlen. rewrite Hcm' in Hlen. rewrite Hun in Hlen. cbn [List.length] in Hlen.
  subst cm.
  destruct (unique_labels y_true y_pred) as [|l0 [|l1 [|l2 rest]]];
    cbn [List.length] in Hlen; try lia.
  cbn in Hun. inversion Hun. reflexivity.
Qed.

Lemma roc_auc_score_two_classes (one_class : one_class_policy)
  (y_true : list Z) (y_score : list Q) :
  List.length y_true = List.length y_score ->
  binary y_true -> In 0%Z y_true -> In 1%Z y_true ->
  exists auc, roc_auc_score one_class y_true y_score = Ok (Finite auc).
Proof.
  intros Hlen Ht H0 H1. unfold roc_auc_score.
  rewrite length_eqb_refl by assumption.
  rewrite np_unique_both_classes by assumption. eexists. reflexivity.
Qed.

Lemma roc_auc_score_one_class (c : Z) (y_true : list Z) (y_score : list Q) :
  Forall (fun y => y = c) y_true ->
  exists e, roc_auc_score RaiseOnOneClass y_true y_score = Raise e.
Proof.
  intros Hall. unfold roc_auc_score.
  destruct (negb (List.length y_true =? List.length y_score)); [eexists; reflexivity|].
  destruct (np_unique_one_class c y_true Hall) as [-> | ->]; eexists; reflexivity.
Qed.

Lemma np_true_divide_finite (a b : Z) :
  (0 < b)%Z -> np_true_divide a b = Finite (inject_Z a / inject_Z b)%Q.
Proof.
  intros Hb. unfold np_true_divide.
  destruct (b =? 0)%Z eqn:E; [apply Z.eqb_eq in E; lia | reflexivity].
Qed.

(** ** [calculate_metrics] *)

(** What [calculate_metrics] computes once its predicted labels are
    known to be [y_pred]. *)
Lemma calculate_metrics_two_classes (one_class : one_class_policy)
  (y_true : list Z) (y_pred_prob : list (Q * Q)) (threshold : Q) :
  let y_pred := binarize (column1 y_pred_prob) threshold in
  let tn := count_pairs 0 0 y_true y_pred in
  let fp := count_pairs 0 1 y_true y_pred in
  let fn := count_pairs 1 0 y_true y_pred in
  let tp := count_pairs 1 1 y_true y_pred in
  List.length y_true = List.length y_pred_prob ->
  binary y_true -> In 0%Z y_true -> In 1%Z y_true ->
  exists roc_auc,
    Cervical.calculate_metrics one_class y_true y_pred_prob threshold
    = Ok (Finite (inject_Z (tp + tn) / inject_Z (tp + tn + fp + fn))%Q,
          Finite (inject_Z tp / inject_Z (tp + fn))%Q,
          Finite (inject_Z tn / inject_Z (tn + fp))%Q,
          Finite roc_auc).
Proof.
  intros y_pred tn fp fn tp Hlen Ht H0 H1.
  assert (Hlen' : List.length y_true = List.length y_pred).
  { unfold y_pred. rewrite binarize_length. unfold column1. rewrite length_map. exact Hlen. }
  assert (Hp : binary y_pred) by apply binarize_binary.
  destruct (roc_auc_score_two_classes one_class y_true (column1 y_pred_prob)) as [auc Hauc];
    try assumption.
  { unfold column1. rewrite length_map. exact Hlen. }
  pose proof (true_class_positive 1 y_true y_pred Hlen' Ht Hp H1) as Hpos.
  pose proof (true_class_positive 0 y_true y_pred Hlen' Ht Hp H0) as Hneg.
  pose proof (total_count y_true y_pred Hlen' Ht Hp) as Htot.
  exists auc. unfold Cervical.calculate_metrics. fold y_pred.
  rewrite confusion_matrix_two_classes by assumption.
  cbn [bindR ravel List.concat app unpack4].
  unfold accuracy_score. rewrite length_eqb_refl by assumption.
  cbn [bindR]. rewrite Hauc. cbn [bindR].
  fold tn fp fn tp in Hpos, Hneg, Htot |- *.
  assert (Hg1 : (0 <? tp + fn)%Z = true) by (apply Z.ltb_lt; lia).
  assert (Hg0 : (0 <? tn + fp)%Z = true) by (apply Z.ltb_lt; lia).
  rewrite Hg1, Hg0.
  rewrite (agree_count y_true y_pred Ht Hp). fold tn tp.
  rewrite Htot.
  rewrite !np_true_divide_finite by lia.
  reflexivity.
Qed.

Lemma calculate_metrics_labels_two_classes (y_true y_pred : list Z) :
  let tn := count_pairs 0 0 y_true y_pred in
  let fp := count_pairs 0 1 y_true y_pred in
  let fn := count_pairs 1 0 y_true y_pred in
  let tp := count_pairs 1 1 y_true y_pred in
  List.length y_true = List.length y_pred ->
  binary y_true -> binary y_pred -> In 0%Z y_true -> In 1%Z y_true ->
  Colorectal.calculate_metrics y_true y_pred
  = Ok (Finite (inject_Z (tp + tn) / inject_Z (tp + tn + fp + fn))%Q,
        Finite (inject_Z tp / inject_Z (tp + fn))%Q,
        Finite (inject_Z tn / inject_Z (tn + fp))%Q).
Proof.
  intros tn fp fn tp Hlen Ht Hp H0 H1.
  pose proof (true_class_positive 1 y_true y_pred Hlen Ht Hp H1) as Hpos.
  pose proof (true_class_positive 0 y_true y_pred Hlen Ht Hp H0) as Hneg.
  unfold Colorectal.calculate_metrics.
  rewrite confusion_matrix_two_classes by assumption.
  cbn [bindR ravel List.concat app unpack4].
  fold tn fp fn tp in Hpos, Hneg |- *.
  assert (0 <= tp)%Z by apply pair_count_nonneg.
  assert (0 <= tn)%Z by apply pair_count_nonneg.
  assert (0 <= fp)%Z by apply pair_count_nonneg.
  assert (0 <= fn)%Z by apply pair_count_nonneg.
  rewrite !np_true_divide_finite by lia.
  reflexivity.
Qed.

(** When the true and the predicted labels all fall in one class, the
    confusion matrix is not 2x2 and the unpacking raises, whatever the
    release of scikit-learn. *)
Lemma calculate_metrics_one_label_raises (one_class : one_class_policy)
  (c : Z) (y_true : list Z) (y_pred_prob : list (Q * Q)) (threshold : Q) :
  Forall (fun y => y = c) y_true ->
  Forall (fun y => y = c) (binarize (column1 y_pred_prob) threshold) ->
  exists e, Cervical.calculate_metrics one_class y_true y_pred_prob threshold = Raise e.
Proof.
  intros Htrue Hpred. unfold Cervical.calculate_metrics, confusion_matrix, unique_labels.
  destruct (negb _); cbn [bindR]; [eexists; reflexivity|].
  assert (Hall : Forall (fun y => y = c)
                   (y_true ++ binarize (column1 y_pred_prob) threshold))
    by (apply Forall_app; split; assumption).
  destruct (np_unique_one_class c _ Hall) as [-> | ->]; cbn; eexists; reflexivity.
Qed.

(** With a release that raises on one class, a fold whose true labels
    all belong to one class never gets a metrics record. *)
Lemma calculate_metrics_one_class_raises
  (c : Z) (y_true : list Z) (y_pred_prob : list (Q * Q)) (threshold : Q) :
  Forall (fun y => y = c) y_true ->
  exists e,
    Cervical.calculate_metrics RaiseOnOneClass y_true y_pred_prob threshold = Raise e.
Proof.
  intros Hall. unfold Cervical.calculate_metrics.
  destruct (confusion_matrix y_true _) as [cm|e]; cbn [bindR]; [|eexists; reflexivity].
  destruct (unpack4 (ravel cm)) as [[[[tn fp] fn] tp]|e]; cbn [bindR];
    [|eexists; reflexivity].
  destruct (accuracy_score y_true _) as [acc|e]; cbn [bindR]; [|eexists; reflexivity].
  destruct (roc_auc_score_one_class c y_true (column1 y_pred_prob) Hall) as [e ->].
  cbn [bindR]. eexists; reflexivity.
Qed.

(** C1 (as the code behaves).  On an all-negative fold whose predictions
    are all negative too, the thresholded [calculate_metrics] does not
    return the sentinel: the confusion matrix is 1x1 and the four-way
    unpacking raises, under either release of scikit-learn; the
    all-positive fold fails the same way.  When some prediction is
    positive the guard does yield 0, and the call then raises or returns
    according to what [roc_auc_score] does on one class.  The unguarded
    variant of the first script returns NaN for the sensitivity instead
    of 0. *)
Theorem degenerate_fold_has_no_sentinel :
  (forall one_class,
      Cervical.calculate_metrics one_class
        [0; 0]%Z [(9 # 10, 1 # 10); (8 # 10, 2 # 10)]%Q (1 # 2)%Q
      = Raise (ValueError "not enough values to unpack (expected 4, got 1)"))
  /\ (forall one_class,
        Cervical.calculate_metrics one_class
          [1; 1]%Z [(1 # 10, 9 # 10); (2 # 10, 8 # 10)]%Q (1 # 2)%Q
        = Raise (ValueError "not enough values to unpack (expected 4, got 1)"))
  /\ Cervical.calculate_metrics RaiseOnOneClass
       [0; 0]%Z [(9 # 10, 1 # 10); (2 # 10, 8 # 10)]%Q (1 # 2)%Q
     = Raise (ValueError
         "Only one class present in y_true. ROC AUC score is not defined in that case.")
  /\ Cervical.calculate_metrics NanOnOneClass
       [0; 0]%Z [(9 # 10, 1 # 10); (2 # 10, 8 # 10)]%Q (1 # 2)%Q
     = Ok (Finite (1 # 2), Finite 0, Finite (1 # 2), NaN)
  /\ Colorectal.calculate_metrics [0; 0]%Z [0; 1]%Z = Ok (Finite (1 # 2), NaN, Finite (1 # 2)).
Proof.
  repeat split; try (intros one_class; destruct one_class); vm_compute; reflexivity.
Qed.

(** C2.  For equal-length binary label sequences holding both true
    classes and both predicted classes, [calculate_metrics] returns
    accuracy (tp+tn)/(tp+tn+fp+fn), sensitivity tp/(tp+fn) and specificity
    tn/(tn+fp) over the counts of the (true, predicted) pairs, with
    non-zero denominators; this holds for the label-based function of the
    first script and for the thresholded one whenever its binarised
    predictions are [y_pred]. *)
Theorem calculate_metrics_confusion_formulas (y_true y_pred : list Z) :
  let tn := count_pairs 0 0 y_true y_pred in
  let fp := count_pairs 0 1 y_true y_pred in
  let fn := count_pairs 1 0 y_true y_pred in
  let tp := count_pairs 1 1 y_true y_pred in
  let accuracy := Finite (inject_Z (tp + tn) / inject_Z (tp + tn + fp + fn))%Q in
  let sensitivity := Finite (inject_Z tp / inject_Z (tp + fn))%Q in
  let specificity := Finite (inject_Z tn / inject_Z (tn + fp))%Q in
  List.length y_true = List.length y_pred ->
  binary y_true -> binary y_pred ->
  In 0%Z y_true -> In 1%Z y_true -> In 0%Z y_pred -> In 1%Z y_pred ->
  (0 < tp + tn + fp + fn /\ 0 < tp + fn /\ 0 < tn + fp)%Z
  /\ confusion_matrix y_true y_pred = Ok [[tn; fp]; [fn; tp]]
  /\ Colorectal.calculate_metrics y_true y_pred = Ok (accuracy, sensitivity, specificity)
  /\ forall (y_pred_prob : list (Q * Q)) (threshold : Q),
       binarize (column1 y_pred_prob) threshold = y_pred ->
       forall one_class, exists roc_auc,
         Cervical.calculate_metrics one_class y_true y_pred_prob threshold
         = Ok (accuracy, sensitivity, specificity, Finite roc_auc).
Proof.
  intros tn fp fn tp accuracy sensitivity specificity Hlen Ht Hp H0 H1 _ _.
  pose proof (true_class_positive 1 y_true y_pred Hlen Ht Hp H1) as Hpos.
  pose proof (true_class_positive 0 y_true y_pred Hlen Ht Hp H0) as Hneg.
  fold tn fp fn tp in Hpos, Hneg.
  assert (0 <= tp)%Z by apply pair_count_nonneg.
  assert (0 <= tn)%Z by apply pair_count_nonneg.
  assert (0 <= fp)%Z by apply pair_count_nonneg.
  assert (0 <= fn)%Z by apply pair_count_nonneg.
  split; [lia|]. split; [apply confusion_matrix_two_classes; assumption|].
  split; [apply calculate_metrics_labels_two_classes; assumption|].
  intros y_pred_prob threshold Hbin one_class.
  subst y_pred. apply calculate_metrics_two_classes; try assumption.
  rewrite Hlen, binarize_length. unfold column1. apply length_map.
Qed.

Lemma calculate_metrics_confusion_formulas_witness :
  exists roc_auc,
    Cervical.calculate_metrics NanOnOneClass [0; 1; 0; 1]%Z
      [(9 # 10, 1 # 10); (2 # 10, 8 # 10); (2 # 10, 8 # 10); (7 # 10, 3 # 10)]%Q (1 # 2)%Q
    = Ok (Finite (inject_Z 2 / inject_Z 4)%Q, Finite (inject_Z 1 / inject_Z 2)%Q,
          Finite (inject_Z 1 / inject_Z 2)%Q, Finite roc_auc).
Proof.
  refine (proj2 (proj2 (proj2
    (calculate_metrics_confusion_formulas [0; 1; 0; 1]%Z [0; 1; 1; 0]%Z
       _ _ _ _ _ _ _)))
    [(9 # 10, 1 # 10); (2 # 10, 8 # 10); (2 # 10, 8 # 10); (7 # 10, 3 # 10)]%Q
    (1 # 2)%Q _ NanOnOneClass).
  - reflexivity.
  - unfold binary. repeat (apply Forall_cons; [lia|]). apply Forall_nil.
  - unfold binary. repeat (apply Forall_cons; [lia|]). apply Forall_nil.
  - simpl; auto.
  - simpl; auto.
  - simpl; auto.
  - simpl; auto.
  - reflexivity.
Defined.

Lemma gt_threshold_decides (threshold p : Q) (above : bool) :
  (gt_threshold threshold p =? (if above then 1 else 0))%Z
  = Bool.eqb (if Qlt_le_dec threshold p then true else false) above.
Proof.
  unfold gt_threshold. destruct (Qlt_le_dec threshold p) as [Hlt | Hle].
  - apply Qgt_bool_true in Hlt. rewrite Hlt. destruct above; reflexivity.
  - apply Qgt_bool_false in Hle. rewrite Hle. destruct above; reflexivity.
Qed.

(** The entries of the confusion matrix count the samples by true label
    and by the side of the threshold their probability lies on. *)
Lemma count_pairs_samples_at (t : Z) (above : bool) (threshold : Q) :
  forall (y_true : list Z) (y_pred_prob : list (Q * Q)),
    count_pairs t (if above then 1 else 0) y_true
      (binarize (column1 y_pred_prob) threshold)
    = samples_at t above y_true y_pred_prob threshold.
Proof.
  unfold count_pairs, samples_at, binarize, column1.
  induction y_true as [|y y_true IH]; intros [|row y_pred_prob]; try reflexivity.
  cbn [map combine filter fst snd].
  rewrite gt_threshold_decides.
  specialize (IH y_pred_prob). apply Nat2Z.inj in IH.
  destruct ((y =? t)%Z && _); cbn [List.length]; rewrite IH; reflexivity.
Qed.



(** C9.  A sample whose positive-class probability equals the threshold
    is predicted negative; for instance a positive sample sitting exactly
    on the threshold is counted as a false negative. *)
Theorem probability_equal_to_threshold_is_negative
  (y_pred_prob : list (Q * Q)) (threshold : Q) (i : nat) (row : Q * Q) :
  nth_error y_pred_prob i = Some row ->
  (snd row == threshold)%Q ->
  nth_error (binarize (column1 y_pred_prob) threshold) i = Some 0%Z
  /\ forall a b, confusion_matrix [0; 1]%Z (binarize (column1 [(a, snd row); (b, snd row)]) threshold)
                 = Ok [[1; 0]; [1; 0]]%Z.
Proof.
  intros Hrow Heq.
  assert (E : Qgt_bool (snd row) threshold = false).
  { apply Qgt_bool_false. rewrite Heq. apply Qle_refl. }
  split.
  - rewrite (binarize_nth _ _ _ _ Hrow). unfold gt_threshold. rewrite E. reflexivity.
  - intros a b. unfold binarize, column1. cbn [map snd]. unfold gt_threshold.
    rewrite E. reflexivity.
Qed.

Lemma probability_equal_to_threshold_is_negative_witness :
  nth_error (binarize (column1 [(1 # 2, 1 # 2); (1 # 5, 4 # 5)]%Q) (5 # 10)%Q) 0 = Some 0%Z.
Proof.
  refine (proj1 (probability_equal_to_threshold_is_negative
    [(1 # 2, 1 # 2); (1 # 5, 4 # 5)]%Q (5 # 10)%Q 0 (1 # 2, 1 # 2)%Q _ _)).
  - reflexivity.
  - reflexivity.
Defined.

(** C10.  The result of [calculate_metrics] is a function of the true
    labels, the threshold and the second probability column alone: two
    probability matrices with the same second column give the same
    result, whatever their first columns hold. *)
Theorem calculate_metrics_ignores_first_column (one_class : one_class_policy)
  (y_true : list Z) (prob1 prob2 : list (Q * Q)) (threshold : Q) :
  map snd prob1 = map snd prob2 ->
  Cervical.calculate_metrics one_class y_true prob1 threshold
  = Cervical.calculate_metrics one_class y_true prob2 threshold.
Proof.
  intros Hcol. unfold Cervical.calculate_metrics, column1. rewrite Hcol. reflexivity.
Qed.

Lemma calculate_metrics_ignores_first_column_witness :
  Cervical.calculate_metrics NanOnOneClass
    [0; 1]%Z [(9 # 10, 1 # 10); (1 # 10, 9 # 10)]%Q (1 # 2)%Q
  = Cervical.calculate_metrics NanOnOneClass
      [0; 1]%Z [(0, 1 # 10); (7 # 1, 9 # 10)]%Q (1 # 2)%Q.
Proof.
  apply (calculate_metrics_ignores_first_column NanOnOneClass [0; 1]%Z
           [(9 # 10, 1 # 10); (1 # 10, 9 # 10)]%Q [(0, 1 # 10); (7 # 1, 9 # 10)]%Q (1 # 2)%Q).
  reflexivity.
Defined.

(** ** Index selection by a mask *)

Lemma mask_select_map (g : nat -> bool) (indices folds : list nat) :
  mask_select indices (map g folds)
  = map fst (filter (fun p => g (snd p)) (combine indices folds)).
Proof.
  unfold mask_select. revert folds.
  induction indices as [|a indices IH]; intros [|f folds]; try reflexivity.
  cbn [map combine filter snd]. destruct (g f); cbn [map fst]; rewrite IH; reflexivity.
Qed.

Lemma in_combine_seq (start len a f : nat) (folds : list nat) :
  List.length folds = len ->
  In (a, f) (combine (seq start len) folds)
  <-> start <= a /\ nth_error folds (a - start) = Some f.
Proof.
  revert start folds. induction len as [|len IH]; intros start [|g folds] Hlen;
    try discriminate.
  - simpl. split; [tauto|]. intros [_ H]. destruct (a - start); discriminate.
  - cbn [seq combine In]. rewrite IH by (simpl in Hlen; lia). split.
    + intros [Heq | [Hle Hnth]].
      * inversion Heq; subst. rewrite Nat.sub_diag. split; [lia | reflexivity].
      * split; [lia|]. replace (a - start) with (S (a - S start)) by lia. exact Hnth.
    + intros [Hle Hnth]. destruct (Nat.eq_dec a start) as [-> | Hne].
      * left. rewrite Nat.sub_diag in Hnth. simpl in Hnth. congruence.
      * right. split; [lia|].
        replace (a - start) with (S (a - S start)) in Hnth by lia. exact Hnth.
Qed.

(** Membership in the test and train index sets of fold [i]. *)
Lemma in_test_indices (i a : nat) (test_folds : list nat) :
  In a (mask_select (seq 0 (List.length test_folds)) (map (fun f => f =? i) test_folds))
  <-> nth_error test_folds a = Some i.
Proof.
  rewrite mask_select_map, in_map_iff. split.
  - intros [[a' f] [Hfst Hin]]. simpl in Hfst. subst a'.
    apply filter_In in Hin. destruct Hin as [Hin Hf]. simpl in Hf.
    apply Nat.eqb_eq in Hf. subst f.
    apply in_combine_seq in Hin; [|reflexivity].
    rewrite Nat.sub_0_r in Hin. tauto.
  - intros Hnth. exists (a, i). split; [reflexivity|].
    apply filter_In. split; [|simpl; apply Nat.eqb_refl].
    apply in_combine_seq; [reflexivity|].
    rewrite Nat.sub_0_r. split; [lia | assumption].
Qed.

Lemma in_train_indices (i a : nat) (test_folds : list nat) :
  In a (mask_select (seq 0 (List.length test_folds))
          (map negb (map (fun f => f =? i) test_folds)))
  <-> exists f, nth_error test_folds a = Some f /\ f <> i.
Proof.
  rewrite map_map, mask_select_map, in_map_iff. split.
  - intros [[a' f] [Hfst Hin]]. simpl in Hfst. subst a'.
    apply filter_In in Hin. destruct Hin as [Hin Hf]. simpl in Hf.
    apply negb_true_iff, Nat.eqb_neq in Hf.
    apply in_combine_seq in Hin; [|reflexivity].
    rewrite Nat.sub_0_r in Hin. exists f. tauto.
  - intros [f [Hnth Hne]]. exists (a, f). split; [reflexivity|].
    apply filter_In. split.
    + apply in_combine_seq; [reflexivity|].
      rewrite Nat.sub_0_r. split; [lia | assumption].
    + simpl. apply negb_true_iff, Nat.eqb_neq. assumption.
Qed.

Lemma map_fst_combine_eq (A B : Type) (l1 : list A) (l2 : list B) :
  List.length l1 = List.length l2 -> map fst (combine l1 l2) = l1.
Proof.
  revert l2. induction l1 as [|a l1 IH]; intros [|b l2] Hlen; try discriminate;
    [reflexivity|].
  simpl. f_equal. apply IH. simpl in Hlen. lia.
Qed.

Lemma filter_complement_permutation (A : Type) (g : A -> bool) (l : list A) :
  Permutation (filter (fun a => negb (g a)) l ++ filter g l) l.
Proof.
  induction l as [|a l IH]; [constructor|].
  simpl. destruct (g a); simpl.
  - apply Permutation_sym, Permutation_cons_app, Permutation_sym, IH.
  - constructor. exact IH.
Qed.

(** Within a fold the train and test indices are a rearrangement of all
    the indices. *)
Lemma train_test_permutation (i : nat) (test_folds : list nat) :
  let indices := seq 0 (List.length test_folds) in
  let test_mask := map (fun f => f =? i) test_folds in
  Permutation (mask_select indices (map negb test_mask) ++ mask_select indices test_mask)
              indices.
Proof.
  intros indices test_mask. unfold test_mask. rewrite map_map, !mask_select_map.
  rewrite <- map_app.
  eapply perm_trans.
  - apply Permutation_map.
    apply (filter_complement_permutation _ (fun p => snd p =? i)).
  - rewrite map_fst_combine_eq by (unfold indices; apply length_seq).
    apply Permutation_refl.
Qed.

(** Distributing the elements of [l] over the buckets [0 .. k-1] by a
    key below [k] rearranges [l]. *)
Lemma bucket_insert (A : Type) (key : A -> nat) (a : A) (l : list A) (buckets : list nat) :
  NoDup buckets ->
  (In (key a) buckets ->
   Permutation
     (List.concat (map (fun i => filter (fun x => key x =? i) (a :: l)) buckets))
     (a :: List.concat (map (fun i => filter (fun x => key x =? i) l) buckets)))
  /\ (~ In (key a) buckets ->
      List.concat (map (fun i => filter (fun x => key x =? i) (a :: l)) buckets)
      = List.concat (map (fun i => filter (fun x => key x =? i) l) buckets)).
Proof.
  set (F := fun i => filter (fun x => key x =? i) (a :: l)).
  set (G := fun i => filter (fun x => key x =? i) l).
  assert (HF : forall i, F i = if key a =? i then a :: G i else G i) by reflexivity.
  clearbody F G.
  induction 1 as [|b buckets Hnin Hnd IH]; [simpl; tauto|].
  destruct IH as [IHin IHout]. cbn [map List.concat]. rewrite HF.
  destruct (key a =? b) eqn:E.
  - apply Nat.eqb_eq in E. subst b. split.
    + intros _. simpl. constructor. rewrite IHout by assumption. reflexivity.
    + intros Hn. exfalso. apply Hn. left; reflexivity.
  - apply Nat.eqb_neq in E. split.
    + intros [Heq | Hin]; [congruence|].
      rewrite (IHin Hin). apply Permutation_sym, Permutation_middle.
    + intros Hn. rewrite IHout; [reflexivity|]. intros Hin. apply Hn. right; assumption.
Qed.

Lemma buckets_permutation (A : Type) (key : A -> nat) (k : nat) (l : list A) :
  Forall (fun a => key a < k) l ->
  Permutation (List.concat (map (fun i => filter (fun x => key x =? i) l) (seq 0 k))) l.
Proof.
  induction 1 as [|a l Ha _ IH].
  - simpl. induction (seq 0 k); simpl; [constructor | assumption].
  - destruct (bucket_insert A key a l (seq 0 k) (seq_NoDup k 0)) as [Hin _].
    rewrite Hin by (apply in_seq; lia). constructor. exact IH.
Qed.

(** The test index sets of the [k] folds, put end to end, rearrange all
    the indices when every sample has a fold number below [k]. *)
Lemma test_sets_cover (k : nat) (test_folds : list nat) :
  Forall (fun f => f < k) test_folds ->
  let indices := seq 0 (List.length test_folds) in
  Permutation
    (List.concat (map (fun i => mask_select indices (map (fun f => f =? i) test_folds))
                      (seq 0 k)))
    indices.
Proof.
  intros Hall indices.
  assert (Hlen : List.length indices = List.length test_folds) by apply length_seq.
  rewrite (map_ext _ (fun i => map fst (filter (fun p => snd p =? i) (combine indices test_folds))))
    by (intros i; apply mask_select_map).
  rewrite <- (map_map (fun i => filter (fun p => snd p =? i) (combine indices test_folds))
                      (map fst)).
  rewrite <- concat_map.
  eapply perm_trans.
  - apply Permutation_map. apply (buckets_permutation _ snd k).
    apply Forall_forall. intros [a f] Hin. simpl.
    rewrite Forall_forall in Hall. apply Hall. eapply in_combine_r; eassumption.
  - rewrite map_fst_combine_eq by assumption. apply Permutation_refl.
Qed.

(** ** Class encoding *)

Lemma classes_of_from_In (c : Z) (y seen : list Z) :
  In c (fold_left (fun seen c => if existsb (Z.eqb c) seen then seen else seen ++ [c]) y seen)
  <-> In c seen \/ In c y.
Proof.
  revert seen. induction y as [|a y IH]; intros seen; simpl; [tauto|].
  rewrite IH. destruct (existsb (Z.eqb a) seen) eqn:E.
  - apply existsb_exists in E. destruct E as [x [Hx Hax]].
    apply Z.eqb_eq in Hax. subst x. intuition (subst; auto).
  - rewrite in_app_iff. simpl. intuition.
Qed.

Lemma classes_of_In (c : Z) (y : list Z) : In c (classes_of y) <-> In c y.
Proof. unfold classes_of. rewrite classes_of_from_In. simpl. tauto. Qed.

Lemma index_of_bound (c : Z) (classes : list Z) :
  In c classes -> index_of c classes < List.length classes.
Proof.
  induction classes as [|c' classes IH]; simpl; [tauto|].
  intros Hin. destruct (c =? c')%Z eqn:E; [lia|].
  apply Z.eqb_neq in E. destruct Hin as [-> | Hin]; [congruence|].
  specialize (IH Hin). lia.
Qed.

Lemma y_encoded_bound (y : list Z) :
  Forall (fun e => e < List.length (classes_of y))
         (map (fun c => index_of c (classes_of y)) y).
Proof.
  apply Forall_forall. intros e He. apply in_map_iff in He.
  destruct He as [c [<- Hc]]. apply index_of_bound, classes_of_In, Hc.
Qed.

(** ** Fold numbers handed to a class *)

Lemma arange_repeat_bound (k : nat) (counts : list nat) :
  Forall (fun f => f < k) (arange_repeat k counts).
Proof.
  apply Forall_forall. intros f Hf. unfold arange_repeat in Hf.
  apply in_flat_map in Hf. destruct Hf as [i [Hi Hf]].
  apply repeat_spec in Hf. subst f. apply in_seq in Hi. lia.
Qed.

Lemma arange_repeat_length (k : nat) (counts : list nat) :
  List.length (arange_repeat k counts)
  = list_sum (map (fun i => nth i counts 0) (seq 0 k)).
Proof.
  unfold arange_repeat. rewrite length_flat_map. f_equal.
  apply map_ext. intros i. apply repeat_length.
Qed.

(** ** Masked assignment *)

Lemma assign_where_Forall2 (P : nat -> Prop) (D : nat -> Prop) (c : nat) :
  forall enc arr vals arr',
    Forall2 (fun e v => D e -> P v) enc arr ->
    Forall P vals ->
    assign_where c enc vals arr = Ok arr' ->
    Forall2 (fun e v => e = c \/ D e -> P v) enc arr'.
Proof.
  intros enc arr vals arr' H. revert vals arr'.
  induction H as [|e a enc arr Hea Hrest IH]; intros vals arr' Hvals Hres.
  - simpl in Hres. destruct vals; [|discriminate]. inversion Hres. constructor.
  - simpl in Hres. destruct (e =? c) eqn:E.
    + destruct vals as [|v vals]; [discriminate|].
      inversion Hvals as [|? ? Hv Hvals']; subst.
      destruct (assign_where c enc vals arr) as [rest|] eqn:Hrec; [|discriminate].
      simpl in Hres. inversion Hres; subst. constructor; [intros _; exact Hv|].
      eapply IH; [exact Hvals' | exact Hrec].
    + apply Nat.eqb_neq in E.
      destruct (assign_where c enc vals arr) as [rest|] eqn:Hrec; [|discriminate].
      simpl in Hres. inversion Hres; subst. constructor.
      * intros [Heq | Hd]; [congruence | auto].
      * eapply IH; [exact Hvals | exact Hrec].
Qed.

Lemma assign_where_ok (c : nat) :
  forall enc arr vals,
    List.length enc = List.length arr ->
    List.length vals = count_occ Nat.eq_dec enc c ->
    exists arr', assign_where c enc vals arr = Ok arr'.
Proof.
  induction enc as [|e enc IH]; intros [|a arr] vals Hlen Hvals; try discriminate.
  - simpl in *. destruct vals; [eexists; reflexivity | discriminate].
  - simpl in Hvals. cbn [assign_where]. destruct (Nat.eq_dec e c) as [-> | Hne].
    + rewrite Nat.eqb_refl. destruct vals as [|v vals]; [discriminate|].
      destruct (IH arr vals) as [rest Hrest]; [simpl in Hlen; lia | simpl in Hvals; lia |].
      rewrite Hrest. eexists; reflexivity.
    + apply Nat.eqb_neq in Hne. rewrite Hne.
      destruct (IH arr vals) as [rest Hrest]; [simpl in Hlen; lia | assumption |].
      rewrite Hrest. eexists; reflexivity.
Qed.

(** ** Round-robin allocation *)

Lemma stride_test (i j k : nat) :
  i < k -> (i <=? j) && ((j - i) mod k =? 0) = (i =? j mod k).
Proof.
  intros Hik. destruct (i =? j mod k) eqn:E.
  - apply Nat.eqb_eq in E. apply andb_true_iff. split.
    + apply Nat.leb_le. subst i. apply Nat.Div0.mod_le.
    + apply Nat.eqb_eq. pose proof (Nat.div_mod_eq j k) as Hj.
      replace (j - i) with (j / k * k) by lia.
      apply Nat.Div0.mod_mul.
  - apply Nat.eqb_neq in E. apply andb_false_iff.
    destruct (i <=? j) eqn:Hle; [right | left; reflexivity].
    apply Nat.leb_le in Hle. apply Nat.eqb_neq. intros Hmod. apply E.
    apply Nat.Div0.div_exact in Hmod.
    replace j with (i + (j - i) / k * k) by lia.
    rewrite Nat.Div0.mod_add. symmetry. apply Nat.mod_small. exact Hik.
Qed.

Lemma list_sum_cons (a : nat) (l : list nat) : list_sum (a :: l) = a + list_sum l.
Proof. reflexivity. Qed.

Lemma map_snd_combine_eq (A B : Type) (l1 : list A) (l2 : list B) :
  List.length l1 = List.length l2 -> map snd (combine l1 l2) = l2.
Proof.
  revert l2. induction l1 as [|a l1 IH]; intros [|b l2] Hlen; try discriminate;
    [reflexivity|].
  simpl. f_equal. apply IH. simpl in Hlen. lia.
Qed.

Lemma sum_indicator (t : nat) (start len : nat) :
  list_sum (map (fun i => if i =? t then 1 else 0) (seq start len))
  = if (start <=? t) && (t <? start + len) then 1 else 0.
Proof.
  revert start. induction len as [|len IH]; intros start.
  - simpl. destruct (start <=? t) eqn:E1; [|reflexivity].
    destruct (t <? start + 0) eqn:E2; [|reflexivity].
    apply Nat.leb_le in E1. apply Nat.ltb_lt in E2. lia.
  - cbn [seq map]. rewrite list_sum_cons, IH.
    destruct (start =? t) eqn:E0;
      destruct (S start <=? t) eqn:E1; destruct (t <? S start + len) eqn:E2;
      destruct (start <=? t) eqn:E3; destruct (t <? start + S len) eqn:E4;
      try reflexivity;
      repeat match goal with
      | H : (_ =? _) = true |- _ => apply Nat.eqb_eq in H
      | H : (_ =? _) = false |- _ => apply Nat.eqb_neq in H
      | H : (_ <=? _) = true |- _ => apply Nat.leb_le in H
      | H : (_ <=? _) = false |- _ => apply Nat.leb_gt in H
      | H : (_ <? _) = true |- _ => apply Nat.ltb_lt in H
      | H : (_ <? _) = false |- _ => apply Nat.ltb_ge in H
      end; lia.
Qed.

Lemma list_sum_map_add (A : Type) (f g : A -> nat) (l : list A) :
  list_sum (map (fun a => f a + g a) l) = list_sum (map f l) + list_sum (map g l).
Proof. induction l as [|a l IH]; simpl; [reflexivity | rewrite IH; lia]. Qed.

Lemma list_sum_map_ext_in (A : Type) (f g : A -> nat) (l : list A) :
  (forall a, In a l -> f a = g a) -> list_sum (map f l) = list_sum (map g l).
Proof. intros H. f_equal. apply map_ext_in. exact H. Qed.

(** The slices [ps[i::k]] for [i < k] share out the occurrences of each
    value. *)
Lemma strided_pairs_count (c k : nat) (ps : list (nat * nat)) :
  0 < k ->
  list_sum
    (map (fun i =>
            count_occ Nat.eq_dec
              (map snd (filter (fun jx => (i <=? fst jx) && ((fst jx - i) mod k =? 0)) ps)) c)
         (seq 0 k))
  = count_occ Nat.eq_dec (map snd ps) c.
Proof.
  intros Hk. induction ps as [|[j x] ps IH].
  - simpl. induction (seq 0 k); simpl; [reflexivity | assumption].
  - cbn [map snd count_occ]. rewrite <- IH.
    rewrite (list_sum_map_ext_in _ _
      (fun i => (if i =? j mod k then (if Nat.eq_dec x c then 1 else 0) else 0)
                + count_occ Nat.eq_dec
                    (map snd (filter (fun jx => (i <=? fst jx) && ((fst jx - i) mod k =? 0)) ps))
                    c)).
    + rewrite list_sum_map_add.
      assert (Hone :
        list_sum (map (fun i => if i =? j mod k then if Nat.eq_dec x c then 1 else 0 else 0)
                      (seq 0 k))
        = if Nat.eq_dec x c then 1 else 0).
      { destruct (Nat.eq_dec x c).
        - rewrite sum_indicator. simpl.
          pose proof (Nat.mod_upper_bound j k ltac:(lia)) as Hlt.
          apply Nat.ltb_lt in Hlt. rewrite Hlt. reflexivity.
        - clear. induction (seq 0 k) as [|i l IHl]; simpl; [reflexivity|].
          rewrite IHl. destruct (i =? j mod k); reflexivity. }
      rewrite Hone. destruct (Nat.eq_dec x c); lia.
    + intros i Hi. apply in_seq in Hi. cbn [filter fst].
      rewrite stride_test by lia.
      destruct (i =? j mod k); cbn [map snd count_occ]; [|reflexivity].
      destruct (Nat.eq_dec x c); reflexivity.
Qed.

Lemma strided_count (c k : nat) (a : list nat) :
  0 < k ->
  list_sum (map (fun i => count_occ Nat.eq_dec (strided i k a) c) (seq 0 k))
  = count_occ Nat.eq_dec a c.
Proof.
  intros Hk. unfold strided. rewrite strided_pairs_count by assumption.
  f_equal. apply map_snd_combine_eq, length_seq.
Qed.

Lemma nth_map_seq (A : Type) (g : nat -> A) (i n : nat) (d : A) :
  i < n -> nth i (map g (seq 0 n)) d = g i.
Proof.
  intros Hi. rewrite (nth_indep _ d (g 0)) by (rewrite length_map, length_seq; exact Hi).
  rewrite map_nth, seq_nth by exact Hi. reflexivity.
Qed.

Lemma assign_where_length (c : nat) :
  forall enc arr vals arr',
    assign_where c enc vals arr = Ok arr' -> List.length arr' = List.length arr.
Proof.
  induction enc as [|e enc IH]; intros arr vals arr' Hres.
  - simpl in Hres. destruct vals; [|discriminate]. inversion Hres. reflexivity.
  - destruct arr as [|a arr].
    + simpl in Hres. destruct vals; [|discriminate]. inversion Hres. reflexivity.
    + cbn [assign_where] in Hres. destruct (e =? c).
      * destruct vals as [|v vals]; [discriminate|].
        destruct (assign_where c enc vals arr) as [rest|] eqn:Hrec; [|discriminate].
        simpl in Hres. inversion Hres; subst. simpl. f_equal. eapply IH; exact Hrec.
      * destruct (assign_where c enc vals arr) as [rest|] eqn:Hrec; [|discriminate].
        simpl in Hres. inversion Hres; subst. simpl. f_equal. eapply IH; exact Hrec.
Qed.

Lemma Forall2_of_length (A B : Type) (R : A -> B -> Prop) (l1 : list A) (l2 : list B) :
  List.length l1 = List.length l2 -> (forall a b, R a b) -> Forall2 R l1 l2.
Proof.
  revert l2. induction l1 as [|a l1 IH]; intros [|b l2] Hlen HR; try discriminate;
    constructor; auto.
Qed.

Lemma Forall2_guarded (A B : Type) (G : A -> Prop) (P : B -> Prop)
  (l1 : list A) (l2 : list B) :
  Forall2 (fun a b => G a -> P b) l1 l2 -> Forall G l1 -> Forall P l2.
Proof.
  induction 1 as [|a b l1 l2 Hab _ IH]; intros HG; [constructor|].
  inversion HG; subst. constructor; auto.
Qed.

Lemma count_occ_map_ge (c : Z) (g : Z -> nat) (y : list Z) :
  count_occ Z.eq_dec y c <= count_occ Nat.eq_dec (map g y) (g c).
Proof.
  induction y as [|a y IH]; simpl; [lia|].
  destruct (Z.eq_dec a c) as [-> | Hne].
  - destruct (Nat.eq_dec (g c) (g c)); [lia | congruence].
  - destruct (Nat.eq_dec (g a) (g c)); lia.
Qed.

Section SplitterProperties.

Variable rng : Type.
Variable check_random_state : Z -> rng.
Variable rng_shuffle : rng -> list nat -> list nat * rng.
Variable uninitialised : nat -> nat.

(** The one assumption on the generator: shuffling rearranges. *)
Hypothesis rng_shuffle_permutation :
  forall st l, Permutation l (fst (rng_shuffle st l)).

Lemma fill_classes_Forall2 (sh : bool) (k : nat) (allocation : list (list nat))
  (y_encoded : list nat) :
  forall cs st arr (D : nat -> Prop) test_folds,
    Forall2 (fun e v => D e -> v < k) y_encoded arr ->
    fill_classes rng rng_shuffle sh k allocation y_encoded cs st arr = Ok test_folds ->
    Forall2 (fun e v => In e cs \/ D e -> v < k) y_encoded test_folds.
Proof.
  induction cs as [|c cs IH]; intros st arr D test_folds Harr Hres.
  - simpl in Hres. inversion Hres; subst.
    eapply Forall2_impl; [|exact Harr]. simpl. intros e v H [[] | Hd]. auto.
  - cbn [fill_classes] in Hres.
    set (ffc := arange_repeat k (map (fun row => nth c row 0) allocation)) in Hres.
    assert (Hvals : Forall (fun f => f < k)
                      (fst (if sh then rng_shuffle st ffc else (ffc, st)))).
    { destruct sh; simpl.
      - apply Forall_forall. intros f Hf.
        apply Permutation_in with (l' := ffc) in Hf;
          [|apply Permutation_sym, rng_shuffle_permutation].
        pose proof (arange_repeat_bound k (map (fun row => nth c row 0) allocation)) as Hb.
        rewrite Forall_forall in Hb. apply Hb. exact Hf.
      - apply arange_repeat_bound. }
    destruct (if sh then rng_shuffle st ffc else (ffc, st)) as [vals st'].
    simpl in Hvals.
    destruct (assign_where c y_encoded vals arr) as [arr1|] eqn:Hassign; [|discriminate].
    cbn [bindR] in Hres.
    pose proof (assign_where_Forall2 _ D c _ _ _ _ Harr Hvals Hassign) as Harr1.
    specialize (IH st' arr1 (fun e => e = c \/ D e) test_folds Harr1 Hres).
    eapply Forall2_impl; [|exact IH]. simpl. intros e v H [[Hc | Hin] | Hd]; auto.
Qed.

Lemma fill_classes_ok (sh : bool) (k : nat) (allocation : list (list nat))
  (y_encoded : list nat) :
  forall cs st arr,
    List.length y_encoded = List.length arr ->
    (forall c, In c cs ->
       List.length (arange_repeat k (map (fun row => nth c row 0) allocation))
       = count_occ Nat.eq_dec y_encoded c) ->
    exists test_folds,
      fill_classes rng rng_shuffle sh k allocation y_encoded cs st arr = Ok test_folds.
Proof.
  induction cs as [|c cs IH]; intros st arr Hlen Hcount.
  - eexists; reflexivity.
  - cbn [fill_classes].
    set (ffc := arange_repeat k (map (fun row => nth c row 0) allocation)).
    assert (Hvals : List.length (fst (if sh then rng_shuffle st ffc else (ffc, st)))
                    = count_occ Nat.eq_dec y_encoded c).
    { rewrite <- (Hcount c) by (left; reflexivity). fold ffc.
      destruct sh; simpl; [|reflexivity].
      symmetry. apply Permutation_length, rng_shuffle_permutation. }
    destruct (if sh then rng_shuffle st ffc else (ffc, st)) as [vals st'].
    simpl in Hvals.
    destruct (assign_where_ok c y_encoded arr vals Hlen Hvals) as [arr1 Harr1].
    rewrite Harr1. cbn [bindR]. apply IH.
    + rewrite (assign_where_length _ _ _ _ _ Harr1). exact Hlen.
    + intros c' Hc'. apply Hcount. right; exact Hc'.
Qed.

(** Every sample receives a fold number below [n_splits]. *)
Lemma make_test_folds_bound (skf : StratifiedKFold) (y : list Z) (test_folds : list nat) :
  make_test_folds rng check_random_state rng_shuffle uninitialised skf y = Ok test_folds ->
  List.length test_folds = List.length y
  /\ Forall (fun f => f < n_splits skf) test_folds.
Proof.
  unfold make_test_folds.
  destruct (forallb _ _); [discriminate|]. intros Hres.
  apply fill_classes_Forall2 with (D := fun _ => False) in Hres.
  - split.
    + apply Forall2_length in Hres. rewrite <- Hres. apply length_map.
    + eapply Forall2_guarded; [exact Hres|].
      eapply Forall_impl; [|apply y_encoded_bound].
      intros e He. cbv beta in He. left. apply in_seq. lia.
  - apply Forall2_of_length; [|intros ? ? []].
    unfold np_empty. rewrite !length_map, length_seq. reflexivity.
Qed.

(** The splitter accepts the labels as soon as one class has at least
    [n_splits] members. *)
Lemma make_test_folds_ok (skf : StratifiedKFold) (y : list Z) (c : Z) :
  0 < n_splits skf ->
  n_splits skf <= count_occ Z.eq_dec y c ->
  exists test_folds,
    make_test_folds rng check_random_state rng_shuffle uninitialised skf y = Ok test_folds.
Proof.
  intros Hk Hc. unfold make_test_folds.
  set (classes := classes_of y).
  set (enc := map (fun c => index_of c classes) y).
  assert (Hin : In c y).
  { apply (count_occ_In Z.eq_dec). lia. }
  assert (Hidx : index_of c classes < List.length classes).
  { apply index_of_bound, classes_of_In, Hin. }
  destruct (forallb (fun cnt => cnt <? n_splits skf) (bincount enc (List.length classes)))
    eqn:Hall.
  - exfalso. rewrite forallb_forall in Hall.
    specialize (Hall (count_occ Nat.eq_dec enc (index_of c classes))).
    assert (Hlt : (count_occ Nat.eq_dec enc (index_of c classes) <? n_splits skf) = true).
    { apply Hall. unfold bincount. apply in_map. apply in_seq. lia. }
    apply Nat.ltb_lt in Hlt.
    pose proof (count_occ_map_ge c (fun c => index_of c classes) y) as Hge.
    fold enc in Hge. lia.
  - apply fill_classes_ok.
    + unfold np_empty, enc. rewrite !length_map, length_seq. reflexivity.
    + intros c' Hc'. apply in_seq in Hc'.
      rewrite arange_repeat_length.
      rewrite (list_sum_map_ext_in _ _
        (fun i => count_occ Nat.eq_dec (strided i (n_splits skf) (NatSort.sort enc)) c')).
      * rewrite strided_count by assumption.
        symmetry. apply (Permutation_count_occ Nat.eq_dec), NatSort.Permuted_sort.
      * intros i Hi. apply in_seq in Hi.
        rewrite map_map. rewrite nth_map_seq by lia.
        unfold bincount. apply nth_map_seq. lia.
Qed.

(** C5.  For [n_splits >= 2] and any labelled dataset (in particular
    one holding both classes), the folds that [split] produces are
    [n_splits] in number; their test index sets are pairwise disjoint
    and, put together, hold every index of the dataset exactly once;
    within each fold the train and test indices are disjoint and together
    hold every index exactly once.  Folds are produced whenever the
    images and labels have equal length and some class has at least
    [n_splits] members. *)
Theorem split_folds_partition (X : Type) (skf : StratifiedKFold) (x : list X) (y : list Z) :
  2 <= n_splits skf ->
  (forall folds,
      split rng check_random_state rng_shuffle uninitialised skf x y = Ok folds ->
      let indices := seq 0 (List.length x) in
      List.length folds = n_splits skf
      /\ Permutation (List.concat (map snd folds)) indices
      /\ (forall i j fi fj,
            i <> j -> nth_error folds i = Some fi -> nth_error folds j = Some fj ->
            forall a, In a (snd fi) -> ~ In a (snd fj))
      /\ (forall train test,
            In (train, test) folds ->
            Permutation (train ++ test) indices
            /\ (forall a, In a train -> ~ In a test)))
  /\ (List.length x = List.length y ->
      (exists c, n_splits skf <= count_occ Z.eq_dec y c) ->
      exists folds,
        split rng check_random_state rng_shuffle uninitialised skf x y = Ok folds).
Proof.
  intros Hk. split.
  - intros folds. unfold split.
    destruct (List.length y =? 0); [discriminate|].
    destruct (negb (List.length x =? List.length y)) eqn:Hlen; [discriminate|].
    apply negb_false_iff, Nat.eqb_eq in Hlen.
    destruct (List.length x <? n_splits skf); [discriminate|].
    destruct (make_test_folds _ _ _ _ skf y) as [test_folds|] eqn:Htf; [|discriminate].
    cbn [bindR]. intros Hfolds. inversion Hfolds as [Hf]. clear Hfolds.
    apply make_test_folds_bound in Htf. destruct Htf as [Hlen_tf Hbound].
    replace (List.length x) with (List.length test_folds) by congruence.
    set (fold_of := fun i =>
      (mask_select (seq 0 (List.length test_folds))
         (map negb (map (fun f => f =? i) test_folds)),
       mask_select (seq 0 (List.length test_folds)) (map (fun f => f =? i) test_folds))).
    assert (Hnth : forall i fi, nth_error (map fold_of (seq 0 (n_splits skf))) i = Some fi ->
                                fi = fold_of i).
    { intros i fi H. rewrite nth_error_map, nth_error_seq in H.
      destruct (i <? n_splits skf); simpl in H; [|discriminate].
      inversion H. reflexivity. }
    split; [|split; [|split]].
    + rewrite length_map, length_seq. reflexivity.
    + rewrite map_map. cbn [fold_of snd]. apply test_sets_cover. exact Hbound.
    + intros i j fi fj Hij Hi Hj a Hai Haj.
      apply Hnth in Hi, Hj. subst fi fj. cbn [fold_of snd] in Hai, Haj.
      apply in_test_indices in Hai, Haj. congruence.
    + intros train test Hin. apply in_map_iff in Hin.
      destruct Hin as [i [Hi _]]. unfold fold_of in Hi. inversion Hi; subst. split.
      * apply train_test_permutation.
      * intros a Htrain Htest.
        apply in_train_indices in Htrain. destruct Htrain as [f [Hf Hne]].
        apply in_test_indices in Htest. congruence.
  - intros Hlen [c Hc]. unfold split.
    pose proof (count_occ_bound Z.eq_dec c y) as Hb.
    destruct (List.length y =? 0) eqn:E0; [apply Nat.eqb_eq in E0; lia|].
    rewrite Hlen, Nat.eqb_refl. cbn [negb].
    destruct (List.length y <? n_splits skf) eqn:E1; [apply Nat.ltb_lt in E1; lia|].
    destruct (make_test_folds_ok skf y c) as [test_folds Htf]; [lia | exact Hc |].
    rewrite Htf. cbn [bindR]. eexists; reflexivity.
Qed.

End SplitterProperties.

(** ** What the folds depend on *)

Lemma agree_everywhere (enc : list nat) :
  forall arr arr' : list nat,
    List.length arr = List.length enc -> List.length arr' = List.length enc ->
    Forall2 (fun e aa => In e [] \/ fst aa = snd aa) enc (combine arr arr') ->
    arr = arr'.
Proof.
  induction enc as [|e enc IH]; intros [|a arr] [|a' arr'] Hl Hl' Hall;
    try discriminate; [reflexivity|].
  cbn [combine] in Hall. inversion Hall as [|? ? ? ? Hhd Htl]; subst.
  cbn [fst snd] in Hhd. destruct Hhd as [[] | ->].
  f_equal. apply IH; [simpl in Hl; lia | simpl in Hl'; lia | exact Htl].
Qed.

(** Assigning the fold numbers of class [c] makes two arrays agree at
    the samples of that class, whatever they held there. *)
Lemma assign_where_agree (c : nat) (cs : list nat) :
  forall (enc vals arr arr' : list nat),
    List.length arr = List.length enc -> List.length arr' = List.length enc ->
    Forall2 (fun e aa => In e (c :: cs) \/ fst aa = snd aa) enc (combine arr arr') ->
    match assign_where c enc vals arr with
    | Ok r =>
        exists r', assign_where c enc vals arr' = Ok r'
                   /\ List.length r = List.length enc
                   /\ List.length r' = List.length enc
                   /\ Forall2 (fun e aa => In e cs \/ fst aa = snd aa) enc (combine r r')
    | Raise e => assign_where c enc vals arr' = Raise e
    end.
Proof.
  induction enc as [|e enc IH]; intros vals [|a arr] [|a' arr'] Hl Hl' Hall;
    try discriminate.
  - cbn [assign_where]. destruct vals; [|reflexivity].
    exists []. repeat split; constructor.
  - cbn [combine] in Hall. inversion Hall as [|? ? ? ? Hhd Htl]; subst.
    cbn [fst snd] in Hhd.
    assert (Hla : List.length arr = List.length enc) by (simpl in Hl; lia).
    assert (Hla' : List.length arr' = List.length enc) by (simpl in Hl'; lia).
    cbn [assign_where]. destruct (e =? c) eqn:Ec.
    + destruct vals as [|v vals]; [reflexivity|].
      specialize (IH vals arr arr' Hla Hla' Htl).
      destruct (assign_where c enc vals arr) as [r|err]; cbn [bindR].
      * destruct IH as (r' & -> & Hr & Hr' & Hagree). cbn [bindR].
        exists (v :: r'). split; [reflexivity|].
        split; [simpl; lia|]. split; [simpl; lia|].
        cbn [combine]. constructor; [right; reflexivity | exact Hagree].
      * rewrite IH. reflexivity.
    + apply Nat.eqb_neq in Ec.
      specialize (IH vals arr arr' Hla Hla' Htl).
      destruct (assign_where c enc vals arr) as [r|err]; cbn [bindR].
      * destruct IH as (r' & -> & Hr & Hr' & Hagree). cbn [bindR].
        exists (a' :: r'). split; [reflexivity|].
        split; [simpl; lia|]. split; [simpl; lia|].
        cbn [combine]. constructor; [|exact Hagree]. cbn [fst snd].
        destruct Hhd as [[Heq | Hin] | Heq]; [congruence | left; exact Hin | right; exact Heq].
      * rewrite IH. reflexivity.
Qed.

(** The loop over the classes overwrites every sample of the classes it
    visits: its result does not depend on what the array held there. *)
Lemma fill_classes_agree (rng : Type) (rng_shuffle : rng -> list nat -> list nat * rng)
  (sh : bool) (k : nat) (allocation : list (list nat)) (enc : list nat) :
  forall (cs : list nat) (st : rng) (arr arr' : list nat),
    List.length arr = List.length enc -> List.length arr' = List.length enc ->
    Forall2 (fun e aa => In e cs \/ fst aa = snd aa) enc (combine arr arr') ->
    fill_classes rng rng_shuffle sh k allocation enc cs st arr
    = fill_classes rng rng_shuffle sh k allocation enc cs st arr'.
Proof.
  induction cs as [|c cs IH]; intros st arr arr' Hl Hl' Hall.
  - cbn [fill_classes]. f_equal. apply (agree_everywhere enc); assumption.
  - cbn [fill_classes].
    destruct (if sh
              then rng_shuffle st
                     (arange_repeat k (map (fun row => nth c row 0) allocation))
              else (arange_repeat k (map (fun row => nth c row 0) allocation), st))
      as [vals st'].
    pose proof (assign_where_agree c cs enc vals arr arr' Hl Hl' Hall) as Hstep.
    destruct (assign_where c enc vals arr) as [r|err]; cbn [bindR].
    + destruct Hstep as (r' & -> & Hr & Hr' & Hagree). cbn [bindR].
      apply IH; assumption.
    + rewrite Hstep. reflexivity.
Qed.

(** The fold assignment depends on the generator through the state
    built from the seed of the splitter only, and not on the content of
    the array it allocates. *)
Lemma make_test_folds_seed_only (rng : Type) (check_random_state check_random_state' : Z -> rng)
  (rng_shuffle : rng -> list nat -> list nat * rng) (uninitialised uninitialised' : nat -> nat)
  (skf : StratifiedKFold) (y : list Z) :
  check_random_state (random_state skf) = check_random_state' (random_state skf) ->
  make_test_folds rng check_random_state rng_shuffle uninitialised skf y
  = make_test_folds rng check_random_state' rng_shuffle uninitialised' skf y.
Proof.
  intros Hseed. unfold make_test_folds. rewrite Hseed.
  destruct (forallb _ _); [reflexivity|].
  apply fill_classes_agree.
  - unfold np_empty. rewrite !length_map, length_seq. reflexivity.
  - unfold np_empty. rewrite !length_map, length_seq. reflexivity.
  - assert (Hgen : forall (enc : list nat) (pos : list nat),
               List.length pos = List.length enc ->
               Forall (fun e => e < List.length (classes_of y)) enc ->
               Forall2 (fun e aa => In e (seq 0 (List.length (classes_of y)))
                                    \/ fst aa = snd aa)
                       enc (combine (map uninitialised pos) (map uninitialised' pos))).
    { induction enc as [|e enc IH]; intros [|p pos] Hlen Hall; try discriminate;
        [constructor|].
      inversion Hall; subst. cbn [map combine]. constructor.
      - left. apply in_seq. lia.
      - apply IH; [simpl in Hlen; lia | assumption]. }
    unfold np_empty. apply Hgen; [|apply y_encoded_bound].
    rewrite length_seq, length_map. reflexivity.
Qed.

(** So do the folds. *)
Lemma split_seed_only (X : Type) (rng : Type) (check_random_state check_random_state' : Z -> rng)
  (rng_shuffle : rng -> list nat -> list nat * rng) (uninitialised uninitialised' : nat -> nat)
  (skf : StratifiedKFold) (x : list X) (y : list Z) :
  check_random_state (random_state skf) = check_random_state' (random_state skf) ->
  split rng check_random_state rng_shuffle uninitialised skf x y
  = split rng check_random_state' rng_shuffle uninitialised' skf x y.
Proof.
  intros Hseed. unfold split.
  rewrite (make_test_folds_seed_only rng check_random_state check_random_state'
             rng_shuffle uninitialised uninitialised' skf y Hseed).
  reflexivity.
Qed.

Lemma split_folds_partition_witness :
  exists folds,
    split unit (fun _ => tt) (fun st l => (rev l, st)) (fun _ => 0)
      {| n_splits := 2; shuffle := true; random_state := 42 |}
      [tt; tt; tt; tt; tt] [0; 1; 0; 1; 1]%Z = Ok folds
    /\ List.length folds = 2
    /\ Permutation (List.concat (map snd folds)) (seq 0 5).
Proof.
  pose proof (split_folds_partition unit (fun _ => tt) (fun st l => (rev l, st)) (fun _ => 0)
                (fun st l => Permutation_rev l) unit
                {| n_splits := 2; shuffle := true; random_state := 42 |}
                [tt; tt; tt; tt; tt] [0; 1; 0; 1; 1]%Z (le_n 2)) as [Hpart Hok].
  destruct (Hok eq_refl (ex_intro _ 1%Z (le_S _ _ (le_n 2)))) as [folds Hfolds].
  exists folds. split; [exact Hfolds|].
  destruct (Hpart folds Hfolds) as [Hlen [Hcover _]].
  split; [exact Hlen | exact Hcover].
Defined.

(** ** Finite metrics and column means *)

Lemma np_sum_finite (qs : list Q) : np_sum (map Finite qs) = Finite (Qsum qs).
Proof.
  induction qs as [|q qs IH]; [reflexivity|].
  cbn [map np_sum fold_right]. fold (np_sum (map Finite qs)). rewrite IH. reflexivity.
Qed.

Lemma filter_finite (qs : list Q) :
  filter (fun x => negb (is_nan x)) (map Finite qs) = map Finite qs.
Proof. induction qs as [|q qs IH]; [reflexivity|]. simpl. rewrite IH. reflexivity. Qed.

Lemma pd_mean_finite (qs : list Q) :
  qs <> [] -> pd_mean (map Finite qs) = Finite (arithmetic_mean qs).
Proof.
  intros Hne. unfold pd_mean. rewrite filter_finite.
  destruct qs as [|q qs]; [congruence|].
  change (map Finite (q :: qs)) with (Finite q :: map Finite qs) at 1.
  cbv iota. rewrite np_sum_finite, length_map. reflexivity.
Qed.

Lemma pd_mean_mean_of (col : list np_float) (qs : list Q) :
  col = map Finite qs -> qs <> [] -> mean_of col (pd_mean col).
Proof.
  intros -> Hne. exists qs. split; [reflexivity | apply pd_mean_finite; exact Hne].
Qed.

Lemma Forall_finite_map (A : Type) (f : A -> np_float) (l : list A) :
  Forall (fun a => finite (f a)) l -> exists qs, map f l = map Finite qs.
Proof.
  induction 1 as [|a l [q Hq] _ [qs IH]].
  - exists []. reflexivity.
  - exists (q :: qs). simpl. rewrite Hq, IH. reflexivity.
Qed.

(** A successful call of [calculate_metrics] yields a finite accuracy,
    sensitivity and specificity; its ROC-AUC is finite too, unless the
    release returns NaN on one class. *)
Lemma calculate_metrics_finite (one_class : one_class_policy)
  (y_true : list Z) (y_pred_prob : list (Q * Q))
  (threshold : Q) (accuracy sensitivity specificity roc_auc : np_float) :
  Cervical.calculate_metrics one_class y_true y_pred_prob threshold
  = Ok (accuracy, sensitivity, specificity, roc_auc) ->
  finite accuracy /\ finite sensitivity /\ finite specificity
  /\ (finite roc_auc \/ roc_auc = NaN)
  /\ (one_class = RaiseOnOneClass -> finite roc_auc).
Proof.
  unfold Cervical.calculate_metrics.
  set (y_pred := binarize (column1 y_pred_prob) threshold).
  destruct (confusion_matrix y_true y_pred) as [cm|e] eqn:Hcm; cbn [bindR]; [|discriminate].
  destruct (unpack4 (ravel cm)) as [[[[tn fp] fn] tp]|e] eqn:Hun; cbn [bindR];
    [|discriminate].
  destruct (accuracy_score y_true y_pred) as [acc|e] eqn:Hacc; cbn [bindR]; [|discriminate].
  destruct (roc_auc_score one_class y_true (column1 y_pred_prob)) as [auc|e] eqn:Hauc;
    cbn [bindR]; [|discriminate].
  intros Heq. inversion Heq; subst. clear Heq.
  assert (Hpos : forall a b, (0 <? b)%Z = true -> finite (np_true_divide a b)).
  { intros a b Hb. apply Z.ltb_lt in Hb. rewrite np_true_divide_finite by exact Hb.
    eexists; reflexivity. }
  repeat split.
  - unfold accuracy_score in Hacc.
    destruct (negb (List.length y_true =? List.length y_pred)) eqn:Hlen; [discriminate|].
    inversion Hacc; subst. apply Hpos. apply Z.ltb_lt.
    destruct y_true as [|y0 y_true]; [|simpl; lia].
    exfalso. apply negb_false_iff, Nat.eqb_eq in Hlen.
    destruct y_pred; [|discriminate].
    vm_compute in Hcm. inversion Hcm; subst. discriminate.
  - destruct (0 <? tp + fn)%Z eqn:E; [apply Hpos; exact E | eexists; reflexivity].
  - destruct (0 <? tn + fp)%Z eqn:E; [apply Hpos; exact E | eexists; reflexivity].
  - unfold roc_auc_score in Hauc.
    destruct (negb _); [discriminate|].
    destruct (np_unique y_true) as [|? [|? [|? ?]]]; try discriminate.
    + destruct one_class; [discriminate|]. inversion Hauc. right; reflexivity.
    + inversion Hauc. left. eexists; reflexivity.
  - intros ->. unfold roc_auc_score in Hauc.
    destruct (negb _); [discriminate|].
    destruct (np_unique y_true) as [|? [|? [|? ?]]]; try discriminate.
    inversion Hauc. eexists; reflexivity.
Qed.

Lemma filter_defined (col : list np_float) :
  Forall (fun y => finite y \/ y = NaN) col ->
  filter (fun x => negb (is_nan x)) col = map Finite (finite_values col).
Proof.
  induction 1 as [|y col Hy _ IH]; [reflexivity|].
  unfold finite_values in *. cbn [filter flat_map].
  destruct Hy as [[q ->] | ->]; cbn [is_nan negb app map].
  - rewrite IH. reflexivity.
  - exact IH.
Qed.

Lemma pd_mean_defined (col : list np_float) :
  Forall (fun y => finite y \/ y = NaN) col -> mean_of_defined col (pd_mean col).
Proof.
  intros Hcol. split; [exact Hcol|].
  unfold pd_mean. rewrite (filter_defined col Hcol).
  destruct (finite_values col) as [|q qs]; [reflexivity|].
  change (map Finite (q :: qs)) with (Finite q :: map Finite qs) at 1. cbv iota.
  rewrite np_sum_finite, length_map. reflexivity.
Qed.

(** ** Index arrays within range *)

Lemma np_take_ok (A : Type) (arr : list A) (idx : list nat) :
  Forall (fun i => i < List.length arr) idx -> exists l, np_take arr idx = Ok l.
Proof.
  induction 1 as [|i idx Hi _ [l IH]]; [eexists; reflexivity|].
  cbn [np_take]. destruct (nth_error arr i) as [a|] eqn:E.
  - rewrite IH. eexists; reflexivity.
  - apply nth_error_None in E. lia.
Qed.

Lemma mask_select_In (indices : list nat) (mask : list bool) (a : nat) :
  In a (mask_select indices mask) -> In a indices.
Proof.
  unfold mask_select. intros H. apply in_map_iff in H.
  destruct H as [[a' b] [Ha Hin]]. simpl in Ha. subst a'.
  apply filter_In in Hin. destruct Hin as [Hin _].
  eapply in_combine_l. exact Hin.
Qed.

Section HarnessProperties.

Import Cervical.

Variable one_class : one_class_policy.
Variable Image : Type.
Variable Weights : Type.
Variable initial_weights : architecture -> nat -> Weights.
Variable fl_fit :
  Weights -> list Image * list Z -> list Image * list Z -> nat -> result Weights.
Variable keras_predict : Weights -> list Image -> result (list (Q * Q)).
Variable rng : Type.
Variable check_random_state : Z -> rng.
Variable rng_shuffle : rng -> list nat -> list nat * rng.
Variable uninitialised : nat -> nat.

Local Abbreviation world := (Cervical.world Weights).
Local Abbreviation M := (Cervical.M Weights).
Local Abbreviation event := (Cervical.event Weights).
Local Abbreviation fold_body :=
  (evaluate_fold one_class initial_weights fl_fit keras_predict).
Local Abbreviation model_body :=
  (evaluate_model one_class initial_weights fl_fit keras_predict
     check_random_state rng_shuffle uninitialised).
Local Abbreviation harness :=
  (federated_kfold_cross_validation one_class initial_weights fl_fit keras_predict
     check_random_state rng_shuffle uninitialised).
Local Abbreviation split_of := (split rng check_random_state rng_shuffle uninitialised).
Local Abbreviation folds_of := (Cervical.folds_of check_random_state rng_shuffle uninitialised).

(** *** Running binds and loops *)

Lemma bind_inv (A B : Type) (m : M A) (k : A -> M B) (w : world) (r : result B) (w' : world) :
  bind m k w = (r, w') ->
  (exists a w1, m w = (Ok a, w1) /\ k a w1 = (r, w'))
  \/ (exists e, m w = (Raise e, w') /\ r = Raise e).
Proof.
  unfold bind. destruct (m w) as [[a|e] w1]; intros H.
  - left. exists a, w1. split; [reflexivity | exact H].
  - right. inversion H; subst. exists e. split; reflexivity.
Qed.

Lemma for_each_Ok (A B : Type) (body : A -> M B) :
  forall (l : list A) (w : world) (bs : list B) (w' : world),
    for_each l body w = (Ok bs, w') ->
    Forall2 (fun a b => exists w1 w2, body a w1 = (Ok b, w2)) l bs.
Proof.
  induction l as [|a l IH]; intros w bs w' Hrun.
  - inversion Hrun. constructor.
  - cbn [for_each] in Hrun.
    apply bind_inv in Hrun. destruct Hrun as [[b [w1 [Hb Hrun]]] | [e [_ He]]];
      [|discriminate].
    apply bind_inv in Hrun. destruct Hrun as [[bs' [w2 [Hbs Hrun]]] | [e [_ He]]];
      [|discriminate].
    inversion Hrun; subst. constructor; [exists w, w1; exact Hb|].
    eapply IH; exact Hbs.
Qed.

Lemma enumerate_from_length (A : Type) (l : list A) (start : nat) :
  List.length (enumerate_from start l) = List.length l.
Proof.
  revert start. induction l as [|a l IH]; intros start; [reflexivity|].
  simpl. rewrite IH. reflexivity.
Qed.

Lemma enumerate_from_In (A : Type) (l : list A) (start i : nat) (a : A) :
  In (i, a) (enumerate_from start l) -> start <= i /\ nth_error l (i - start) = Some a.
Proof.
  revert start. induction l as [|b l IH]; intros start; simpl; [tauto|].
  intros [Heq | Hin].
  - inversion Heq; subst. rewrite Nat.sub_diag. split; [lia | reflexivity].
  - apply IH in Hin. destruct Hin as [Hle Hnth]. split; [lia|].
    replace (i - start) with (S (i - S start)) by lia. exact Hnth.
Qed.

(** *** What one successful fold evaluation returns *)

Lemma evaluate_fold_Ok (images : list Image) (labels : list Z) (k : nat)
  (model_name : string) (fold : nat) (train_idx test_idx : list nat)
  (w : world) (fr : fold_result) (w' : world) :
  fold_body images labels k model_name (fold, (train_idx, test_idx)) w = (Ok fr, w') ->
  fr_fold fr = fold + 1
  /\ exists y_test y_pred_prob,
       np_take labels test_idx = Ok y_test
       /\ calculate_metrics one_class y_test y_pred_prob default_threshold
          = Ok (fr_accuracy fr, fr_sensitivity fr, fr_specificity fr, fr_roc_auc fr).
Proof.
  unfold evaluate_fold, bind, emit, liftR, ret, get_model, fit, predict.
  destruct (np_take images train_idx) as [x_train|]; [|discriminate].
  destruct (np_take images test_idx) as [x_test|]; [|discriminate].
  destruct (np_take labels train_idx) as [y_train|]; [|discriminate].
  destruct (np_take labels test_idx) as [y_test|]; [|discriminate].
  cbn [log heap next_obj].
  destruct (architecture_of model_name) as [a|]; [|discriminate].
  cbn [log heap next_obj].
  destruct (fl_fit _ _ _ _) as [after|]; [|discriminate].
  cbn [log heap next_obj].
  destruct (keras_predict _ _) as [y_pred_prob|]; [|discriminate].
  destruct (calculate_metrics one_class y_test y_pred_prob default_threshold)
    as [[[[acc sens] spec] auc]|] eqn:Hm; [|discriminate].
  intros H. inversion H; subst. cbn. split; [reflexivity|].
  exists y_test, y_pred_prob. split; [reflexivity | exact Hm].
Qed.

(** *** Segments of a run *)

Lemma lookup_fresh (w : world) :
  heap_bounded w -> lookup (next_obj w) (heap w) = None.
Proof.
  unfold heap_bounded. intros Hb.
  assert (H : forall h : list (nat * Weights),
            (forall o v, In (o, v) h -> o < next_obj w) ->
                        lookup (next_obj w) h = None).
  { induction h as [|[o v] h IH]; intros Hh; [reflexivity|].
    simpl. destruct (o =? next_obj w) eqn:E.
    - apply Nat.eqb_eq in E. specialize (Hh o v (or_introl eq_refl)). lia.
    - apply IH. intros o' v' Hin. apply (Hh o' v'). right; exact Hin. }
  apply H. exact Hb.
Qed.

Lemma fit_ids_app (evs1 evs2 : list event) :
  fit_ids (evs1 ++ evs2) = fit_ids evs1 ++ fit_ids evs2.
Proof. unfold fit_ids. apply flat_map_app. Qed.

Lemma built_before_fit_app (evs1 evs2 : list event) :
  built_before_fit initial_weights evs1 -> built_before_fit initial_weights evs2 ->
  built_before_fit initial_weights (evs1 ++ evs2).
Proof.
  intros H1 H2 pre m fold before tr te ep post Heq.
  apply app_eq_app in Heq. destruct Heq as [l [[Hp Hq] | [Hp Hq]]].
  - destruct l as [|e l].
    + rewrite app_nil_r in Hp. subst evs1. simpl in Hq.
      destruct (H2 [] m fold before tr te ep post (eq_sym Hq)) as [pre' [name [k [Hpre _]]]].
      destruct pre'; discriminate.
    + simpl in Hq. inversion Hq; subst.
      apply (H1 pre m fold before tr te ep l). reflexivity.
  - subst pre.
    destruct (H2 l m fold before tr te ep post Hq) as [pre' [name [k [Hpre Hrest]]]].
    exists (evs1 ++ pre'), name, k. split; [|exact Hrest].
    rewrite Hpre, app_assoc. reflexivity.
Qed.

Lemma segment_refl (folds : list (list nat * list nat)) (w : world) :
  heap_bounded w -> segment initial_weights folds w [] w.
Proof.
  intros Hb. constructor.
  - rewrite app_nil_r. reflexivity.
  - lia.
  - exact Hb.
  - constructor.
  - intros o [].
  - intros pre m fold before tr te ep post Heq. destruct pre; discriminate.
  - constructor.
Qed.

Lemma segment_trans (folds : list (list nat * list nat)) (w w1 w2 : world)
  (evs1 evs2 : list event) :
  segment initial_weights folds w evs1 w1 ->
  segment initial_weights folds w1 evs2 w2 ->
  segment initial_weights folds w (evs1 ++ evs2) w2.
Proof.
  intros [Hl1 Hn1 Hh1 Hd1 Hr1 Hb1 Hs1] [Hl2 Hn2 Hh2 Hd2 Hr2 Hb2 Hs2]. constructor.
  - rewrite Hl2, Hl1, app_assoc. reflexivity.
  - lia.
  - exact Hh2.
  - rewrite fit_ids_app. apply NoDup_app; [exact Hd1 | exact Hd2 |].
    intros o Ho1 Ho2. apply Hr1 in Ho1. apply Hr2 in Ho2. lia.
  - intros o Ho. rewrite fit_ids_app in Ho. apply in_app_or in Ho.
    destruct Ho as [Ho | Ho]; [apply Hr1 in Ho | apply Hr2 in Ho]; lia.
  - apply built_before_fit_app; assumption.
  - apply Forall_app. split; assumption.
Qed.

(** An event other than a training call, added without touching the
    heap or the counter. *)
Lemma segment_note (folds : list (list nat * list nat)) (w : world) (e : event) :
  heap_bounded w -> is_fit e = false ->
  segment initial_weights folds w [e]
    {| log := log w ++ [e]; heap := heap w; next_obj := next_obj w |}.
Proof.
  intros Hb He. constructor; cbn [log heap next_obj].
  - reflexivity.
  - lia.
  - exact Hb.
  - destruct e; try discriminate; constructor.
  - destruct e; try discriminate; intros o [].
  - intros pre m fold before tr te ep post Heq.
    destruct pre as [|e' pre]; simpl in Heq; inversion Heq; subst.
    + discriminate.
    + destruct pre; discriminate.
  - constructor; [|constructor]. destruct e; try discriminate; exact I.
Qed.

Lemma fit_ids_no_fit (evs : list event) :
  Forall (fun e => is_fit e = false) evs -> fit_ids evs = [].
Proof.
  induction 1 as [|e evs He _ IH]; [reflexivity|].
  unfold fit_ids in *. cbn [flat_map]. rewrite IH.
  destruct e; try discriminate; reflexivity.
Qed.

(** One iteration that reaches training: the progress line, the factory
    call, the training call on the new instance, and what follows them. *)
Lemma segment_train (folds : list (list nat * list nat)) (w w' : world)
  (model_name : string) (a : architecture) (fold k : nat) (train_idx test_idx : list nat)
  (epochs : nat) (tail : list event) :
  let m := {| arch := a; layers := layers_of a; input_shape := input_shape_of a (64, 64, 3);
              obj := next_obj w |} in
  let evs := EvPrintFold fold k model_name
             :: EvGetModel model_name m
             :: EvFit m fold (initial_weights a (next_obj w)) train_idx test_idx epochs
             :: tail in
  heap_bounded w ->
  architecture_of model_name = Some a ->
  1 <= fold -> nth_error folds (fold - 1) = Some (train_idx, test_idx) ->
  Forall (fun e => is_fit e = false) tail ->
  log w' = log w ++ evs ->
  next_obj w' = S (next_obj w) ->
  (forall o v, In (o, v) (heap w') -> In (o, v) (heap w) \/ o = next_obj w) ->
  segment initial_weights folds w evs w'.
Proof.
  intros m evs Hb Ha Hfold Hnth Htail Hlog Hnext Hheap.
  assert (Hids : fit_ids evs = [next_obj w]).
  { unfold evs. change (fit_ids (?x :: ?y :: ?z :: tail)) with (obj m :: fit_ids tail).
    rewrite (fit_ids_no_fit tail Htail). reflexivity. }
  constructor.
  - exact Hlog.
  - lia.
  - intros o v Hin. apply Hheap in Hin. destruct Hin as [Hin | ->]; [|lia].
    apply Hb in Hin. lia.
  - rewrite Hids. constructor; [intros [] | constructor].
  - rewrite Hids. intros o [<- | []]. lia.
  - intros pre m' fold' before tr te ep post Heq. unfold evs in Heq.
    destruct pre as [|e1 [|e2 [|e3 pre]]]; simpl in Heq.
    + discriminate.
    + discriminate.
    + inversion Heq; subst. exists [], model_name, k. repeat split. exact Ha.
    + exfalso. inversion Heq as [[H1 H2 H3 H4]]. rewrite Forall_forall in Htail.
      specialize (Htail (EvFit m' fold' before tr te ep)).
      rewrite H4 in Htail. discriminate Htail. apply in_elt.
  - unfold evs. constructor; [exact I|]. constructor; [exact I|].
    constructor; [split; assumption|].
    eapply Forall_impl; [|exact Htail]. intros e He. destruct e; try discriminate; exact I.
Qed.

Lemma evaluate_fold_segment (images : list Image) (labels : list Z) (k : nat)
  (model_name : string) (folds : list (list nat * list nat))
  (fold : nat) (train_idx test_idx : list nat)
  (w : world) (r : result fold_result) (w' : world) :
  nth_error folds fold = Some (train_idx, test_idx) ->
  heap_bounded w ->
  fold_body images labels k model_name (fold, (train_idx, test_idx)) w = (r, w') ->
  exists evs, segment initial_weights folds w evs w'.
Proof.
  intros Hnth Hb.
  pose proof (segment_note folds w (EvPrintFold (fold + 1) k model_name) Hb eq_refl)
    as Hnote.
  assert (Hfresh : forall a lg,
    current_weights initial_weights
      {| log := lg; heap := heap w; next_obj := S (next_obj w) |}
      {| arch := a; layers := layers_of a; input_shape := input_shape_of a (64, 64, 3);
         obj := next_obj w |}
    = initial_weights a (next_obj w)).
  { intros a lg. unfold current_weights. cbn [heap obj arch].
    rewrite (lookup_fresh w Hb). reflexivity. }
  assert (Hnth' : nth_error folds (fold + 1 - 1) = Some (train_idx, test_idx)).
  { replace (fold + 1 - 1) with fold by lia. exact Hnth. }
  unfold evaluate_fold, bind, emit, liftR, ret, get_model, fit, predict.
  destruct (np_take images train_idx) as [x_train|];
    [|intros H; inversion H; subst; eexists; exact Hnote].
  destruct (np_take images test_idx) as [x_test|];
    [|intros H; inversion H; subst; eexists; exact Hnote].
  destruct (np_take labels train_idx) as [y_train|];
    [|intros H; inversion H; subst; eexists; exact Hnote].
  destruct (np_take labels test_idx) as [y_test|];
    [|intros H; inversion H; subst; eexists; exact Hnote].
  destruct (architecture_of model_name) as [a|] eqn:Ha;
    [|intros H; inversion H; subst; eexists; exact Hnote].
  cbn [log heap next_obj]. rewrite Hfresh.
  destruct (fl_fit _ _ _ _) as [after|].
  - cbn [log heap next_obj].
    destruct (keras_predict _ _) as [y_pred_prob|];
      [destruct (calculate_metrics one_class y_test y_pred_prob default_threshold)
         as [[[[acc sens] spec] auc]|]|];
      intros H; inversion H; subst; eexists;
      (eapply (segment_train folds w _ model_name a (fold + 1) k train_idx test_idx 5
                 [EvPredict _ test_idx]);
       [exact Hb | exact Ha | lia | exact Hnth' | repeat constructor
       | cbn [log next_obj]; rewrite <- !app_assoc; reflexivity
       | reflexivity
       | cbn [heap]; intros o v [Heq | Hin];
         [inversion Heq; right; reflexivity | left; exact Hin]]).
  - intros H; inversion H; subst; eexists.
    eapply (segment_train folds w _ model_name a (fold + 1) k train_idx test_idx 5 []);
      [exact Hb | exact Ha | lia | exact Hnth' | constructor
      | cbn [log next_obj]; rewrite <- !app_assoc; reflexivity
      | reflexivity
      | cbn [heap]; intros o v Hin; left; exact Hin].
Qed.

Lemma for_each_segment (A B : Type) (folds : list (list nat * list nat))
  (body : A -> M B) :
  forall l : list A,
    (forall a w r w', In a l -> heap_bounded w -> body a w = (r, w') ->
       exists evs, segment initial_weights folds w evs w') ->
    forall w r w', heap_bounded w -> for_each l body w = (r, w') ->
      exists evs, segment initial_weights folds w evs w'.
Proof.
  induction l as [|a l IH]; intros Hbody w r w' Hb Hrun.
  - inversion Hrun; subst. exists []. apply segment_refl. exact Hb.
  - cbn [for_each] in Hrun. apply bind_inv in Hrun.
    destruct Hrun as [[b [w1 [Ha Hrun]]] | [e [Ha _]]].
    + destruct (Hbody a w (Ok b) w1 (or_introl eq_refl) Hb Ha) as [evs1 Hs1].
      apply bind_inv in Hrun.
      destruct Hrun as [[bs [w2 [Hl Hrun]]] | [e [Hl _]]].
      * inversion Hrun; subst.
        destruct (IH (fun a' w0 r0 w0' Hin => Hbody a' w0 r0 w0' (or_intror Hin))
                     w1 (Ok bs) w' (seg_heap _ _ _ _ _ _ Hs1) Hl) as [evs2 Hs2].
        exists (evs1 ++ evs2). eapply segment_trans; eassumption.
      * destruct (IH (fun a' w0 r0 w0' Hin => Hbody a' w0 r0 w0' (or_intror Hin))
                     w1 (Raise e) w' (seg_heap _ _ _ _ _ _ Hs1) Hl) as [evs2 Hs2].
        exists (evs1 ++ evs2). eapply segment_trans; eassumption.
    + exact (Hbody a w (Raise e) w' (or_introl eq_refl) Hb Ha).
Qed.

Lemma evaluate_model_segment (skf : StratifiedKFold) (images : list Image)
  (labels : list Z) (k : nat) (model_name : string)
  (w : world) (r : result summary_row) (w' : world) :
  heap_bounded w ->
  model_body skf images labels k model_name w = (r, w') ->
  exists evs, segment initial_weights (folds_of skf images labels) w evs w'.
Proof.
  intros Hb. unfold evaluate_model.
  pose proof (segment_note (folds_of skf images labels) w
                (EvPrintTraining model_name k) Hb eq_refl) as Hnote.
  set (w0 := {| log := log w ++ [EvPrintTraining model_name k];
                heap := heap w; next_obj := next_obj w |}) in *.
  unfold bind at 1. unfold emit at 1. fold w0.
  unfold bind at 1. unfold liftR at 1. unfold folds_of in *.
  destruct (split_of skf images labels) as [folds|e].
  - intros Hrun. apply bind_inv in Hrun.
    assert (Hloop : forall r0 w1,
      for_each (enumerate_from 0 folds) (fold_body images labels k model_name) w0
      = (r0, w1) -> exists evs, segment initial_weights folds w0 evs w1).
    { intros r0 w1. apply for_each_segment; [|exact Hb].
      intros [fold [tr te]] wa ra wa' Hin Hba Hrun'.
      apply enumerate_from_In in Hin. destruct Hin as [_ Hnth].
      rewrite Nat.sub_0_r in Hnth.
      eapply evaluate_fold_segment; eassumption. }
    destruct Hrun as [[frs [w1 [Hl Hrun]]] | [e [Hl _]]].
    + inversion Hrun; subst. destruct (Hloop _ _ Hl) as [evs Hs].
      eexists. eapply segment_trans; eassumption.
    + destruct (Hloop _ _ Hl) as [evs Hs].
      eexists. eapply segment_trans; eassumption.
  - intros Hrun. inversion Hrun; subst. eexists. exact Hnote.
Qed.

(** Every run of the harness, whatever its outcome, extends the world by
    a well-formed segment over the folds of the splitter. *)
Lemma harness_segment (images : list Image) (labels : list Z) (models : list string)
  (k : nat) (w : world) (r : result (list summary_row)) (w' : world) :
  heap_bounded w ->
  harness images labels models k w = (r, w') ->
  exists evs, segment initial_weights (folds_of (skf_of k) images labels) w evs w'.
Proof.
  intros Hb. unfold federated_kfold_cross_validation, new_StratifiedKFold.
  unfold bind at 1. unfold liftR at 1.
  destruct (k <=? 1).
  - intros Hrun. inversion Hrun; subst. exists []. apply segment_refl. exact Hb.
  - apply for_each_segment; [|exact Hb].
    intros name wa ra wa' _ Hba Hrun. eapply evaluate_model_segment; eassumption.
Qed.

Lemma initial_world_bounded : heap_bounded (@initial_world Weights).
Proof. intros o v []. Qed.

(** *** The folds a training call works on *)

Lemma on_split_folds (skf : StratifiedKFold) (images : list Image) (labels : list Z)
  (m : model) (fold : nat) (before : Weights) (train_idx test_idx : list nat)
  (epochs : nat) :
  on_split (folds_of skf images labels) (EvFit m fold before train_idx test_idx epochs) ->
  exists folds,
    split_of skf images labels = Ok folds
    /\ 1 <= fold
    /\ nth_error folds (fold - 1) = Some (train_idx, test_idx).
Proof.
  unfold Cervical.folds_of. cbn [on_split]. intros [Hfold Hnth].
  destruct (split_of skf images labels) as [folds|e].
  - exists folds. repeat split; assumption.
  - destruct (fold - 1); discriminate.
Qed.

Lemma run_fits_on_split (images : list Image) (labels : list Z) (models : list string)
  (k : nat) (m : model) (fold : nat) (before : Weights) (train_idx test_idx : list nat)
  (epochs : nat) :
  In (EvFit m fold before train_idx test_idx epochs)
     (log (snd (harness images labels models k initial_world))) ->
  exists folds,
    split_of (skf_of k) images labels = Ok folds
    /\ 1 <= fold
    /\ nth_error folds (fold - 1) = Some (train_idx, test_idx).
Proof.
  intros Hin.
  destruct (harness images labels models k initial_world) as [r w'] eqn:Hrun.
  destruct (harness_segment _ _ _ _ _ _ _ initial_world_bounded Hrun) as [evs Hs].
  cbn [snd] in Hin. rewrite (seg_log _ _ _ _ _ _ Hs) in Hin. cbn [initial_world log app] in Hin.
  pose proof (seg_split _ _ _ _ _ _ Hs) as Hsplit.
  rewrite Forall_forall in Hsplit.
  apply (on_split_folds _ _ _ m fold before train_idx test_idx epochs).
  apply Hsplit. exact Hin.
Qed.

(** *** Successful runs *)

Lemma split_length (X : Type) (skf : StratifiedKFold) (x : list X) (y : list Z)
  (folds : list (list nat * list nat)) :
  split rng check_random_state rng_shuffle uninitialised skf x y = Ok folds ->
  List.length folds = n_splits skf.
Proof.
  unfold split.
  destruct (List.length y =? 0); [discriminate|].
  destruct (negb (List.length x =? List.length y)); [discriminate|].
  destruct (List.length x <? n_splits skf); [discriminate|].
  destruct (make_test_folds _ _ _ _ skf y) as [test_folds|]; [|discriminate].
  cbn [bindR]. intros H. inversion H. rewrite length_map, length_seq. reflexivity.
Qed.

Lemma evaluate_model_Ok (skf : StratifiedKFold) (images : list Image) (labels : list Z)
  (k : nat) (model_name : string) (w : world) (row : summary_row) (w' : world) :
  model_body skf images labels k model_name w = (Ok row, w') ->
  exists folds fold_results,
    split_of skf images labels = Ok folds
    /\ for_each (enumerate_from 0 folds) (fold_body images labels k model_name)
         {| log := log w ++ [EvPrintTraining model_name k];
            heap := heap w; next_obj := next_obj w |}
       = (Ok fold_results, w')
    /\ row = dataframe_mean model_name fold_results.
Proof.
  unfold evaluate_model. intros Hrun.
  apply bind_inv in Hrun. destruct Hrun as [[[] [w1 [Hprint Hrun]]] | [e [_ He]]];
    [|discriminate].
  unfold emit in Hprint. inversion Hprint; subst. clear Hprint.
  apply bind_inv in Hrun. destruct Hrun as [[folds [w2 [Hsplit Hrun]]] | [e [_ He]]];
    [|discriminate].
  unfold liftR in Hsplit. inversion Hsplit; subst.
  apply bind_inv in Hrun. destruct Hrun as [[frs [w3 [Hloop Hrun]]] | [e [_ He]]];
    [|discriminate].
  inversion Hrun; subst.
  exists folds, frs. repeat split; assumption.
Qed.

Lemma for_each_split_Ok (A B : Type) (body : A -> M B) (a : A) (l2 : list A) :
  forall (l1 : list A) (w : world) (bs : list B) (w' : world),
    for_each (l1 ++ a :: l2) body w = (Ok bs, w') ->
    exists bs1 b bs2 w1 w2,
      bs = bs1 ++ b :: bs2
      /\ List.length bs1 = List.length l1
      /\ for_each l1 body w = (Ok bs1, w1)
      /\ body a w1 = (Ok b, w2)
      /\ for_each l2 body w2 = (Ok bs2, w').
Proof.
  induction l1 as [|a1 l1 IH]; intros w bs w' Hrun.
  - cbn [app for_each] in Hrun.
    apply bind_inv in Hrun. destruct Hrun as [[b [w2 [Hb Hrun]]] | [e [_ He]]];
      [|discriminate].
    apply bind_inv in Hrun. destruct Hrun as [[bs2 [w3 [Hbs Hrun]]] | [e [_ He]]];
      [|discriminate].
    inversion Hrun; subst.
    exists [], b, bs2, w, w2. repeat split; assumption.
  - cbn [app for_each] in Hrun.
    apply bind_inv in Hrun. destruct Hrun as [[b1 [wa [Hb1 Hrun]]] | [e [_ He]]];
      [|discriminate].
    apply bind_inv in Hrun. destruct Hrun as [[bs' [wb [Hrest Hrun]]] | [e [_ He]]];
      [|discriminate].
    inversion Hrun; subst.
    destruct (IH wa bs' w' Hrest) as [bs1 [b [bs2 [w1 [w2 [-> [Hlen [H1 [Hb H2]]]]]]]]].
    exists (b1 :: bs1), b, bs2, w1, w2. repeat split; try assumption.
    + simpl. rewrite Hlen. reflexivity.
    + cbn [for_each]. unfold bind. rewrite Hb1, H1. reflexivity.
Qed.

Lemma fold_results_finite (images : list Image) (labels : list Z) (k : nat)
  (model_name : string) (items : list (nat * (list nat * list nat)))
  (w : world) (fold_results : list fold_result) (w' : world) :
  for_each items (fold_body images labels k model_name) w = (Ok fold_results, w') ->
  List.length fold_results = List.length items
  /\ Forall (fun fr => finite (fr_accuracy fr) /\ finite (fr_sensitivity fr)
                       /\ finite (fr_specificity fr)
                       /\ (finite (fr_roc_auc fr) \/ fr_roc_auc fr = NaN)
                       /\ (one_class = RaiseOnOneClass -> finite (fr_roc_auc fr)))
            fold_results.
Proof.
  intros Hrun. apply for_each_Ok in Hrun. split.
  - symmetry. eapply Forall2_length. exact Hrun.
  - induction Hrun as [|[fold [tr te]] fr items frs [w1 [w2 Hfr]] _ IH]; constructor.
    + apply evaluate_fold_Ok in Hfr. destruct Hfr as [_ [y_test [probs [_ Hm]]]].
      eapply calculate_metrics_finite. exact Hm.
    + exact IH.
Qed.

Lemma column_mean_of (A : Type) (f : A -> np_float) (l : list A) :
  l <> [] -> Forall (fun a => finite (f a)) l -> mean_of (map f l) (pd_mean (map f l)).
Proof.
  intros Hne Hall. destruct (Forall_finite_map A f l Hall) as [qs Hqs].
  apply (pd_mean_mean_of _ qs Hqs).
  intros ->. destruct l; [congruence | discriminate].
Qed.

(** C3 (amended).  When the harness returns its table, the rows carry
    the names of the requested models, in order; and for every model of
    the list, its row holds, for each of accuracy, sensitivity and
    specificity, the arithmetic mean of that metric over the [k] fold
    results which the inner loop produced for that model in this run,
    that is, started from the world left by the models listed before it.
    For ROC-AUC the row holds the arithmetic mean over the folds on which
    the metric is defined: all the [k] folds when none of them is NaN,
    which a release that raises on one class ensures. *)
Theorem model_summary_is_mean_of_folds (images : list Image) (labels : list Z)
  (models : list string) (k : nat) (w : world) (rows : list summary_row) (w' : world) :
  harness images labels models k w = (Ok rows, w') ->
  map row_model rows = models
  /\ forall earlier model_name later,
       models = earlier ++ model_name :: later ->
       exists rows1 row rows2 w1,
         rows = rows1 ++ row :: rows2
         /\ List.length rows1 = List.length earlier
         /\ for_each earlier (model_body (skf_of k) images labels k) w = (Ok rows1, w1)
         /\ summarises one_class initial_weights fl_fit keras_predict
              check_random_state rng_shuffle uninitialised
              w1 images labels k model_name row.
Proof.
  unfold federated_kfold_cross_validation, new_StratifiedKFold. intros Hrun.
  apply bind_inv in Hrun. destruct Hrun as [[skf [w0 [Hskf Hrun]]] | [e [_ He]]];
    [|discriminate].
  unfold liftR in Hskf. destruct (k <=? 1) eqn:Hk; [discriminate|].
  apply Nat.leb_gt in Hk. inversion Hskf; subst. fold (skf_of k) in Hrun.
  assert (Hrow : forall model_name wa row wb,
    model_body (skf_of k) images labels k model_name wa = (Ok row, wb) ->
    summarises one_class initial_weights fl_fit keras_predict
      check_random_state rng_shuffle uninitialised wa images labels k model_name row).
  { intros model_name wa row wb Hrow.
    apply evaluate_model_Ok in Hrow.
    destruct Hrow as [folds [frs [Hsplit [Hloop ->]]]].
    pose proof (split_length _ _ _ _ _ Hsplit) as Hlen. cbn [skf_of n_splits] in Hlen.
    destruct (fold_results_finite _ _ _ _ _ _ _ _ Hloop) as [Hlen' Hfin].
    rewrite enumerate_from_length in Hlen'.
    assert (Hne : frs <> []) by (intros ->; simpl in Hlen'; lia).
    unfold summarises. split; [reflexivity|].
    exists folds, frs, wb. split; [exact Hsplit|]. split; [exact Hloop|].
    split; [lia|].
    cbn [dataframe_mean row_accuracy row_sensitivity row_specificity row_roc_auc].
    split; [|split; [|split; [|split]]].
    - apply column_mean_of; [exact Hne|].
      eapply Forall_impl; [|exact Hfin]. cbv beta. tauto.
    - apply column_mean_of; [exact Hne|].
      eapply Forall_impl; [|exact Hfin]. cbv beta. tauto.
    - apply column_mean_of; [exact Hne|].
      eapply Forall_impl; [|exact Hfin]. cbv beta. tauto.
    - apply pd_mean_defined. apply Forall_map.
      eapply Forall_impl; [|exact Hfin]. cbv beta. tauto.
    - intros [Hpolicy | Hdef]; apply column_mean_of; try exact Hne; try exact Hdef.
      eapply Forall_impl; [|exact Hfin]. cbv beta. tauto. }
  split.
  - pose proof (for_each_Ok _ _ _ _ _ _ _ Hrun) as Hall. clear Hrun.
    induction Hall as [|model_name row models rows [wa [wb Hr]] _ IH]; [reflexivity|].
    cbn [map]. f_equal; [|exact IH].
    apply Hrow in Hr. exact (proj1 Hr).
  - intros earlier model_name later ->.
    apply for_each_split_Ok in Hrun.
    destruct Hrun as [rows1 [row [rows2 [w1 [w2 [-> [Hlen [H1 [Hr _]]]]]]]]].
    exists rows1, row, rows2, w1. repeat split; try assumption.
    + exact (proj1 (Hrow _ _ _ _ Hr)).
    + exact (proj2 (Hrow _ _ _ _ Hr)).
Qed.

(** *** Unsupported model names *)

(** The indices of every fold lie within the dataset, on both sides. *)
Lemma split_in_range (skf : StratifiedKFold) (images : list Image) (labels : list Z)
  (folds : list (list nat * list nat)) (train_idx test_idx : list nat) :
  split_of skf images labels = Ok folds ->
  In (train_idx, test_idx) folds ->
  List.length images = List.length labels
  /\ Forall (fun i => i < List.length images) train_idx
  /\ Forall (fun i => i < List.length images) test_idx.
Proof.
  unfold split.
  destruct (List.length labels =? 0); [discriminate|].
  destruct (negb (List.length images =? List.length labels)) eqn:Hlen; [discriminate|].
  apply negb_false_iff, Nat.eqb_eq in Hlen.
  destruct (List.length images <? n_splits skf); [discriminate|].
  destruct (make_test_folds _ _ _ _ skf labels) as [test_folds|]; [|discriminate].
  cbn [bindR]. intros H Hin. inversion H; subst. clear H.
  apply in_map_iff in Hin. destruct Hin as [i [Hi _]]. inversion Hi; subst.
  split; [exact Hlen|].
  split; apply Forall_forall; intros a Ha; apply mask_select_In, in_seq in Ha; lia.
Qed.

Lemma for_each_app_Ok (A B : Type) (body : A -> M B) (l2 : list A) :
  forall (l1 : list A) (w : world) (bs : list B) (w1 : world),
    for_each l1 body w = (Ok bs, w1) ->
    for_each (l1 ++ l2) body w
    = match for_each l2 body w1 with
      | (Ok bs2, w2) => (Ok (bs ++ bs2), w2)
      | (Raise e, w2) => (Raise e, w2)
      end.
Proof.
  induction l1 as [|a l1 IH]; intros w bs w1 Hrun.
  - inversion Hrun; subst. simpl.
    destruct (for_each l2 body w1) as [[bs2|e] w2]; reflexivity.
  - cbn [for_each app] in Hrun |- *. unfold bind in Hrun |- *.
    destruct (body a w) as [[b|e] wa]; [|discriminate].
    destruct (for_each l1 body wa) as [[bs1|e] wb] eqn:Hl1; [|discriminate].
    unfold ret in Hrun. inversion Hrun; subst.
    rewrite (IH wa bs1 w1 Hl1).
    destruct (for_each l2 body w1) as [[bs2|e] w2]; reflexivity.
Qed.

(** Reaching an unsupported name: the two progress lines are printed,
    the fold is cut out of the data, and [get_model] raises. *)
Lemma evaluate_model_unsupported (skf : StratifiedKFold) (images : list Image)
  (labels : list Z) (k : nat) (model_name : string) (w : world)
  (folds : list (list nat * list nat)) :
  architecture_of model_name = None ->
  split_of skf images labels = Ok folds -> folds <> [] ->
  model_body skf images labels k model_name w
  = (Raise (ValueError "Unsupported model name."),
     {| log := log w ++ [EvPrintTraining model_name k; EvPrintFold 1 k model_name];
        heap := heap w; next_obj := next_obj w |}).
Proof.
  intros Harch Hsplit Hne. destruct folds as [|[train_idx test_idx] folds]; [congruence|].
  destruct (split_in_range skf images labels _ train_idx test_idx Hsplit
              (or_introl eq_refl)) as [Hlen [Htr Hte]].
  destruct (np_take_ok _ images train_idx Htr) as [x_train Hx_train].
  destruct (np_take_ok _ images test_idx Hte) as [x_test Hx_test].
  rewrite Hlen in Htr, Hte.
  destruct (np_take_ok _ labels train_idx Htr) as [y_train Hy_train].
  destruct (np_take_ok _ labels test_idx Hte) as [y_test Hy_test].
  unfold evaluate_model, bind, emit, liftR. rewrite Hsplit.
  cbn [enumerate_from for_each]. unfold evaluate_fold, bind, emit, liftR, get_model.
  rewrite Hx_train, Hx_test, Hy_train, Hy_test, Harch.
  cbn [log heap next_obj]. rewrite <- app_assoc. reflexivity.
Qed.

Lemma evaluate_fold_Ok_supported (images : list Image) (labels : list Z) (k : nat)
  (model_name : string) (item : nat * (list nat * list nat))
  (w : world) (fr : fold_result) (w' : world) :
  fold_body images labels k model_name item w = (Ok fr, w') ->
  architecture_of model_name <> None.
Proof.
  destruct item as [fold [train_idx test_idx]].
  unfold evaluate_fold, bind, emit, liftR, ret, get_model.
  destruct (np_take images train_idx); [|discriminate].
  destruct (np_take images test_idx); [|discriminate].
  destruct (np_take labels train_idx); [|discriminate].
  destruct (np_take labels test_idx); [|discriminate].
  destruct (architecture_of model_name); [intros _; discriminate | discriminate].
Qed.

(** C6 (amended).  A model name outside the five supported ones makes
    the run fail: no run that was asked for such a name returns a table;
    and when the splitter accepts the data and every model listed before
    it has been evaluated, the harness ends in
    [ValueError "Unsupported model name."], raised once by [get_model] on
    the first fold of that model, after its two progress lines and before
    any instance is built or trained for it.  What the models listed
    before it logged, trained and allocated stays in the world. *)
Theorem unsupported_model_raises_when_reached (images : list Image) (labels : list Z)
  (earlier later : list string) (model_name : string) (k : nat) :
  architecture_of model_name = None ->
  (forall w rows w',
      harness images labels (earlier ++ model_name :: later) k w <> (Ok rows, w'))
  /\ (forall folds w rows w1,
        2 <= k ->
        split_of (skf_of k) images labels = Ok folds ->
        for_each earlier (model_body (skf_of k) images labels k) w = (Ok rows, w1) ->
        harness images labels (earlier ++ model_name :: later) k w
        = (Raise (ValueError "Unsupported model name."),
           {| log := log w1 ++ [EvPrintTraining model_name k; EvPrintFold 1 k model_name];
              heap := heap w1; next_obj := next_obj w1 |})).
Proof.
  intros Harch. split.
  - intros w rows w' Hrun.
    unfold federated_kfold_cross_validation, new_StratifiedKFold in Hrun.
    apply bind_inv in Hrun. destruct Hrun as [[skf [w1 [Hskf Hrun]]] | [e [_ He]]];
      [|discriminate].
    unfold liftR in Hskf. destruct (k <=? 1) eqn:Hk; [discriminate|].
    apply Nat.leb_gt in Hk. inversion Hskf; subst. fold (skf_of k) in Hrun.
    apply for_each_Ok in Hrun.
    apply Forall2_app_inv_l in Hrun.
    destruct Hrun as [rows1 [rows2 [_ [Hrest _]]]].
    inversion Hrest as [|? row ? ? [wa [wb Hrow]] _]; subst.
    apply evaluate_model_Ok in Hrow.
    destruct Hrow as [folds [frs [Hsplit [Hloop _]]]].
    pose proof (split_length _ _ _ _ _ Hsplit) as Hlen. cbn [skf_of n_splits] in Hlen.
    destruct folds as [|f folds]; [simpl in Hlen; lia|].
    cbn [enumerate_from] in Hloop. apply for_each_Ok in Hloop.
    inversion Hloop as [|? fr ? ? [wd [we Hfr]] _]; subst.
    apply evaluate_fold_Ok_supported in Hfr. congruence.
  - intros folds w rows w1 Hk Hsplit Hearlier.
    unfold federated_kfold_cross_validation, new_StratifiedKFold.
    destruct (k <=? 1) eqn:Hk'; [apply Nat.leb_le in Hk'; lia|].
    unfold bind at 1. unfold liftR at 1. fold (skf_of k).
    rewrite (for_each_app_Ok _ _ _ _ _ _ _ _ Hearlier).
    cbn [for_each]. unfold bind at 1.
    rewrite (evaluate_model_unsupported _ _ _ _ _ _ folds Harch Hsplit).
    + reflexivity.
    + pose proof (split_length _ _ _ _ _ Hsplit) as Hlen. cbn [skf_of n_splits] in Hlen.
      intros ->. simpl in Hlen. lia.
Qed.

(** *** Traces: what every step adds to the log *)

(** A property of event lists that holds of the empty list and is kept
    by concatenation holds of what a loop logs as soon as it holds of
    what each iteration logs, whatever the outcome. *)
Lemma for_each_trace (A B : Type) (Q : list event -> Prop) (body : A -> M B) :
  Q [] -> (forall evs1 evs2, Q evs1 -> Q evs2 -> Q (evs1 ++ evs2)) ->
  forall l : list A,
    (forall a w r w', In a l -> body a w = (r, w') ->
       exists evs, log w' = log w ++ evs /\ Q evs) ->
    forall w r w', for_each l body w = (r, w') ->
      exists evs, log w' = log w ++ evs /\ Q evs.
Proof.
  intros Hnil Happ. induction l as [|a l IH]; intros Hbody w r w' Hrun.
  - inversion Hrun; subst. exists []. rewrite app_nil_r. split; [reflexivity | exact Hnil].
  - cbn [for_each] in Hrun. apply bind_inv in Hrun.
    destruct Hrun as [[b [w1 [Ha Hrun]]] | [e [Ha _]]].
    + destruct (Hbody a w (Ok b) w1 (or_introl eq_refl) Ha) as [evs1 [Hl1 Hq1]].
      assert (Hrest : exists r0, for_each l body w1 = (r0, w')).
      { apply bind_inv in Hrun.
        destruct Hrun as [[bs [w2 [Hl Hrun]]] | [e [Hl _]]].
        - inversion Hrun; subst. eexists; exact Hl.
        - eexists; exact Hl. }
      destruct Hrest as [r0 Hl].
      destruct (IH (fun a' w0 r1 w0' Hin => Hbody a' w0 r1 w0' (or_intror Hin))
                   w1 r0 w' Hl) as [evs2 [Hl2 Hq2]].
      exists (evs1 ++ evs2). split; [|apply Happ; assumption].
      rewrite Hl2, Hl1, app_assoc. reflexivity.
    + exact (Hbody a w (Raise e) w' (or_introl eq_refl) Ha).
Qed.

(** What one fold evaluation logs: the progress line; then, when the
    name is supported, the factory call and the training call; then,
    when training returns, the call of [predict]. *)
Lemma evaluate_fold_trace (images : list Image) (labels : list Z) (k : nat)
  (model_name : string) (fold : nat) (train_idx test_idx : list nat)
  (w : world) (r : result fold_result) (w' : world) :
  fold_body images labels k model_name (fold, (train_idx, test_idx)) w = (r, w') ->
  (log w' = log w ++ [EvPrintFold (fold + 1) k model_name]
   /\ forall fr, r <> Ok fr)
  \/ (exists m before,
        log w' = log w ++ [EvPrintFold (fold + 1) k model_name;
                           EvGetModel model_name m;
                           EvFit m (fold + 1) before train_idx test_idx 5]
        /\ forall fr, r <> Ok fr)
  \/ (exists m before,
        log w' = log w ++ [EvPrintFold (fold + 1) k model_name;
                           EvGetModel model_name m;
                           EvFit m (fold + 1) before train_idx test_idx 5;
                           EvPredict m test_idx]).
Proof.
  unfold evaluate_fold, bind, emit, liftR, ret, get_model, fit, predict.
  destruct (np_take images train_idx) as [x_train|];
    [|intros H; inversion H; subst; left; split; [reflexivity | discriminate]].
  destruct (np_take images test_idx) as [x_test|];
    [|intros H; inversion H; subst; left; split; [reflexivity | discriminate]].
  destruct (np_take labels train_idx) as [y_train|];
    [|intros H; inversion H; subst; left; split; [reflexivity | discriminate]].
  destruct (np_take labels test_idx) as [y_test|];
    [|intros H; inversion H; subst; left; split; [reflexivity | discriminate]].
  destruct (architecture_of model_name) as [a|];
    [|intros H; inversion H; subst; left; split; [reflexivity | discriminate]].
  cbn [log heap next_obj].
  destruct (fl_fit _ _ _ _) as [after|].
  - cbn [log heap next_obj]. intros H. right. right.
    destruct (keras_predict _ _) as [y_pred_prob|];
      [destruct (calculate_metrics one_class y_test y_pred_prob default_threshold)
         as [[[[acc sens] spec] auc]|]|];
      inversion H; subst; cbn [log]; eexists _, _; rewrite <- !app_assoc; reflexivity.
  - intros H. inversion H; subst. right. left. eexists _, _.
    cbn [log]. rewrite <- !app_assoc. split; [reflexivity | discriminate].
Qed.

Lemma evaluate_fold_Ok_trace (images : list Image) (labels : list Z) (k : nat)
  (model_name : string) (fold : nat) (train_idx test_idx : list nat)
  (w : world) (fr : fold_result) (w' : world) :
  fold_body images labels k model_name (fold, (train_idx, test_idx)) w = (Ok fr, w') ->
  exists m before,
    log w' = log w ++ [EvPrintFold (fold + 1) k model_name;
                       EvGetModel model_name m;
                       EvFit m (fold + 1) before train_idx test_idx 5;
                       EvPredict m test_idx].
Proof.
  intros Hrun. apply evaluate_fold_trace in Hrun.
  destruct Hrun as [[_ Hno] | [(m & before & _ & Hno) | Hfull]];
    [exfalso; eapply Hno; reflexivity | exfalso; eapply Hno; reflexivity | exact Hfull].
Qed.

(** A trace property that holds of the blocks of events that the steps
    of the harness log holds of what any run logs. *)
Lemma harness_trace (Q : list event -> Prop) :
  Q [] -> (forall evs1 evs2, Q evs1 -> Q evs2 -> Q (evs1 ++ evs2)) ->
  (forall model_name k, Q [EvPrintTraining model_name k]) ->
  (forall fold k model_name, Q [EvPrintFold fold k model_name]) ->
  (forall fold k model_name m before train_idx test_idx,
      Q [EvPrintFold fold k model_name; EvGetModel model_name m;
         EvFit m fold before train_idx test_idx 5]) ->
  (forall fold k model_name m before train_idx test_idx,
      Q [EvPrintFold fold k model_name; EvGetModel model_name m;
         EvFit m fold before train_idx test_idx 5; EvPredict m test_idx]) ->
  forall images labels models k w r w',
    harness images labels models k w = (r, w') ->
    exists evs, log w' = log w ++ evs /\ Q evs.
Proof.
  intros Hnil Happ Hpt Hpf Hfit Hfull images labels models k w r w'.
  unfold federated_kfold_cross_validation, new_StratifiedKFold.
  unfold bind at 1. unfold liftR at 1.
  destruct (k <=? 1).
  { intros Hrun. inversion Hrun; subst. exists []. rewrite app_nil_r. auto. }
  apply for_each_trace; [exact Hnil | exact Happ |].
  clear w r w'. intros model_name w r w' _. unfold evaluate_model.
  set (w0 := {| log := log w ++ [EvPrintTraining model_name k];
                heap := heap w; next_obj := next_obj w |}).
  unfold bind at 1. unfold emit at 1. fold w0.
  unfold bind at 1. unfold liftR at 1.
  destruct (split rng check_random_state rng_shuffle uninitialised _ images labels)
    as [folds|e].
  - intros Hrun.
    assert (Hloop : exists r0,
      for_each (enumerate_from 0 folds) (fold_body images labels k model_name) w0
      = (r0, w')).
    { apply bind_inv in Hrun. destruct Hrun as [[frs [w1 [Hl Hrun]]] | [e [Hl _]]].
      - inversion Hrun; subst. eexists; exact Hl.
      - eexists; exact Hl. }
    destruct Hloop as [r0 Hl].
    apply (for_each_trace _ _ Q) in Hl; [| exact Hnil | exact Happ |].
    + destruct Hl as [evs [Hlog Hq]].
      exists ([EvPrintTraining model_name k] ++ evs). split.
      * rewrite Hlog. unfold w0. cbn [log]. rewrite <- app_assoc. reflexivity.
      * apply Happ; [apply Hpt | exact Hq].
    + intros [fold [tr te]] wa ra wa' _ Hbody. apply evaluate_fold_trace in Hbody.
      destruct Hbody as [[Hlog _] | [(m & before & Hlog & _) | (m & before & Hlog)]];
        eexists; (split; [exact Hlog|]); auto.
  - intros Hrun. inversion Hrun; subst. eexists. split; [reflexivity | apply Hpt].
Qed.

Lemma tested_after_training_app (evs1 evs2 : list event) :
  tested_after_training evs1 -> tested_after_training evs2 ->
  tested_after_training (evs1 ++ evs2).
Proof.
  intros H1 H2 pre m te post Heq.
  apply app_eq_app in Heq. destruct Heq as [l [[Hp Hq] | [Hp Hq]]].
  - destruct l as [|e l].
    + rewrite app_nil_r in Hp. subst evs1. simpl in Hq.
      destruct (H2 [] m te post (eq_sym Hq)) as (pre' & fold & before & tr & Hpre).
      destruct pre'; discriminate.
    + simpl in Hq. inversion Hq; subst.
      apply (H1 pre m te l). reflexivity.
  - subst pre.
    destruct (H2 l m te post Hq) as (pre' & fold & before & tr & Hpre).
    exists (evs1 ++ pre'), fold, before, tr. rewrite Hpre, app_assoc. reflexivity.
Qed.

Lemma run_tested_after_training (images : list Image) (labels : list Z)
  (models : list string) (k : nat) (w : world) (r : result (list summary_row))
  (w' : world) :
  harness images labels models k w = (r, w') ->
  exists evs, log w' = log w ++ evs /\ tested_after_training evs.
Proof.
  apply harness_trace.
  - intros pre m te post Heq. destruct pre; discriminate.
  - apply tested_after_training_app.
  - intros model_name k0 pre m te post Heq.
    destruct pre as [|e1 pre]; [discriminate | destruct pre; discriminate].
  - intros fold k0 model_name pre m te post Heq.
    destruct pre as [|e1 pre]; [discriminate | destruct pre; discriminate].
  - intros fold k0 model_name m0 before tr te0 pre m te post Heq.
    destruct pre as [|e1 [|e2 [|e3 pre]]]; try discriminate.
    destruct pre; discriminate.
  - intros fold k0 model_name m0 before tr te0 pre m te post Heq.
    destruct pre as [|e1 [|e2 [|e3 [|e4 pre]]]]; try discriminate.
    + inversion Heq; subst.
      exists [EvPrintFold fold k0 model_name; EvGetModel model_name m], fold, before, tr.
      reflexivity.
    + destruct pre; discriminate.
Qed.

Lemma mask_select_disjoint (indices : list nat) :
  NoDup indices ->
  forall (mask : list bool) (a : nat),
    In a (mask_select indices (map negb mask)) -> ~ In a (mask_select indices mask).
Proof.
  induction 1 as [|i indices Hnotin _ IH]; intros [|b mask] a; try (intros []).
  unfold mask_select in *. cbn [map combine filter snd].
  destruct b; cbn [negb map fst In].
  - intros Htrain [-> | Htest].
    + apply Hnotin. eapply mask_select_In. exact Htrain.
    + exact (IH mask a Htrain Htest).
  - intros [<- | Htrain] Htest.
    + apply Hnotin. eapply mask_select_In. exact Htest.
    + exact (IH mask a Htrain Htest).
Qed.

Lemma split_train_test_disjoint (skf : StratifiedKFold) (images : list Image)
  (labels : list Z) (folds : list (list nat * list nat)) (train_idx test_idx : list nat) :
  split_of skf images labels = Ok folds ->
  In (train_idx, test_idx) folds ->
  forall i, In i train_idx -> ~ In i test_idx.
Proof.
  unfold split.
  destruct (List.length labels =? 0); [discriminate|].
  destruct (negb (List.length images =? List.length labels)); [discriminate|].
  destruct (List.length images <? n_splits skf); [discriminate|].
  destruct (make_test_folds _ _ _ _ skf labels) as [test_folds|]; [|discriminate].
  cbn [bindR]. intros H Hin. inversion H; subst. clear H.
  apply in_map_iff in Hin. destruct Hin as [j [Hj _]]. inversion Hj; subst.
  apply mask_select_disjoint. apply seq_NoDup.
Qed.

(** *** Successful runs: how many calls are made *)

Lemma count_events_app (p : event -> bool) (evs1 evs2 : list event) :
  count_events p (evs1 ++ evs2) = count_events p evs1 + count_events p evs2.
Proof. unfold count_events. rewrite filter_app, length_app. reflexivity. Qed.

(** A loop that completes logs, for each of its iterations, what a
    completed iteration logs. *)
Lemma for_each_Ok_count (A B : Type) (p : event -> bool) (n : nat) (body : A -> M B) :
  (forall a w b w', body a w = (Ok b, w') ->
     exists evs, log w' = log w ++ evs /\ count_events p evs = n) ->
  forall (l : list A) (w : world) (bs : list B) (w' : world),
    for_each l body w = (Ok bs, w') ->
    exists evs, log w' = log w ++ evs /\ count_events p evs = List.length l * n.
Proof.
  intros Hbody. induction l as [|a l IH]; intros w bs w' Hrun.
  - inversion Hrun; subst. exists []. rewrite app_nil_r. split; reflexivity.
  - cbn [for_each] in Hrun.
    apply bind_inv in Hrun. destruct Hrun as [[b [w1 [Hb Hrun]]] | [e [_ He]]];
      [|discriminate].
    apply bind_inv in Hrun. destruct Hrun as [[bs' [w2 [Hbs Hrun]]] | [e [_ He]]];
      [|discriminate].
    inversion Hrun; subst.
    destruct (Hbody _ _ _ _ Hb) as [evs1 [Hl1 Hc1]].
    destruct (IH _ _ _ Hbs) as [evs2 [Hl2 Hc2]].
    exists (evs1 ++ evs2). split.
    + rewrite Hl2, Hl1, app_assoc. reflexivity.
    + rewrite count_events_app, Hc1, Hc2. cbn [List.length]. lia.
Qed.

Lemma harness_Ok_count (p : event -> bool) (n : nat) :
  (forall model_name k, p (EvPrintTraining model_name k) = false) ->
  (forall fold k model_name m before train_idx test_idx,
      count_events p [EvPrintFold fold k model_name; EvGetModel model_name m;
                      EvFit m fold before train_idx test_idx 5; EvPredict m test_idx]
      = n) ->
  forall images labels models k w rows w',
    harness images labels models k w = (Ok rows, w') ->
    exists evs, log w' = log w ++ evs
                /\ count_events p evs = List.length models * (k * n).
Proof.
  intros Hpt Hblock images labels models k w rows w'.
  unfold federated_kfold_cross_validation, new_StratifiedKFold.
  unfold bind at 1. unfold liftR at 1.
  destruct (k <=? 1); [discriminate|].
  apply for_each_Ok_count. clear w rows w'.
  intros model_name w row w' Hrun.
  apply evaluate_model_Ok in Hrun.
  destruct Hrun as (folds & frs & Hsplit & Hloop & _).
  apply split_length in Hsplit. cbn [n_splits] in Hsplit.
  apply (for_each_Ok_count _ _ p n) in Hloop.
  - destruct Hloop as [evs [Hlog Hc]]. cbn [log] in Hlog.
    exists ([EvPrintTraining model_name k] ++ evs). split.
    + rewrite Hlog, <- app_assoc. reflexivity.
    + rewrite count_events_app, Hc, enumerate_from_length, Hsplit.
      unfold count_events. cbn [filter]. rewrite Hpt. reflexivity.
  - intros [fold [tr te]] wa fr wa' Hbody.
    apply evaluate_fold_Ok_trace in Hbody. destruct Hbody as (m & before & Hlog).
    eexists. split; [exact Hlog | apply Hblock].
Qed.

(** X8.  A run that returns a table has made exactly one factory call,
    one training call and one call of [predict] for each (model, fold)
    pair, that is [k] of each per entry of the model list, repeated
    entries included, and has printed one headline per entry. *)
Theorem one_training_per_model_and_fold (images : list Image) (labels : list Z)
  (models : list string) (k : nat) (rows : list summary_row) (w' : world) :
  harness images labels models k initial_world = (Ok rows, w') ->
  count_events is_get_model (log w') = List.length models * k
  /\ count_events (@is_fit Weights) (log w') = List.length models * k
  /\ count_events is_predict (log w') = List.length models * k
  /\ count_events is_print_training (log w') = List.length models.
Proof.
  intros Hrun.
  assert (Hcount : forall p n,
    (forall model_name k, p (EvPrintTraining model_name k) = false) ->
    (forall fold k model_name m before train_idx test_idx,
        count_events p [EvPrintFold fold k model_name; EvGetModel model_name m;
                        EvFit m fold before train_idx test_idx 5; EvPredict m test_idx]
        = n) ->
    count_events p (log w') = List.length models * (k * n)).
  { intros p n Hpt Hblock.
    destruct (harness_Ok_count p n Hpt Hblock _ _ _ _ _ _ _ Hrun) as [evs [Hlog Hc]].
    rewrite Hlog. exact Hc. }
  repeat split.
  - rewrite (Hcount is_get_model 1) by reflexivity. lia.
  - rewrite (Hcount is_fit 1) by reflexivity. lia.
  - rewrite (Hcount is_predict 1) by reflexivity. lia.
  - revert Hrun. unfold federated_kfold_cross_validation, new_StratifiedKFold.
    unfold bind at 1. unfold liftR at 1.
    destruct (k <=? 1); [discriminate|]. intros Hrun.
    apply (for_each_Ok_count _ _ is_print_training 1) in Hrun.
    + destruct Hrun as [evs [Hlog Hc]]. rewrite Hlog. cbn [log initial_world app].
      rewrite Hc. lia.
    + intros model_name w row w1 Hbody.
      apply evaluate_model_Ok in Hbody.
      destruct Hbody as (folds & frs & _ & Hloop & _).
      apply (for_each_Ok_count _ _ is_print_training 0) in Hloop.
      * destruct Hloop as [evs [Hlog Hc]]. cbn [log] in Hlog.
        exists ([EvPrintTraining model_name k] ++ evs). split.
        -- rewrite Hlog, <- app_assoc. reflexivity.
        -- rewrite count_events_app, Hc. rewrite Nat.mul_0_r. reflexivity.
      * intros [fold [tr te]] wa fr wa' Hfold.
        apply evaluate_fold_Ok_trace in Hfold. destruct Hfold as (m & before & Hlog).
        eexists. split; [exact Hlog | reflexivity].
Qed.

(** *** The [fold] column of the table *)

Lemma fold_numbers (images : list Image) (labels : list Z) (k : nat)
  (model_name : string) :
  forall (folds : list (list nat * list nat)) (start : nat) (w : world)
         (fold_results : list fold_result) (w' : world),
    for_each (enumerate_from start folds) (fold_body images labels k model_name) w
    = (Ok fold_results, w') ->
    map fr_fold fold_results = seq (start + 1) (List.length folds).
Proof.
  induction folds as [|[tr te] folds IH]; intros start w frs w' Hrun.
  - inversion Hrun. reflexivity.
  - cbn [enumerate_from for_each] in Hrun.
    apply bind_inv in Hrun. destruct Hrun as [[fr [w1 [Hfr Hrun]]] | [e [_ He]]];
      [|discriminate].
    apply bind_inv in Hrun. destruct Hrun as [[frs' [w2 [Hfrs Hrun]]] | [e [_ He]]];
      [|discriminate].
    inversion Hrun; subst.
    apply evaluate_fold_Ok in Hfr. destruct Hfr as [Hfold _].
    apply IH in Hfrs. cbn [map List.length seq]. rewrite Hfold, Hfrs.
    replace (S start + 1) with (S (start + 1)) by lia. reflexivity.
Qed.

Lemma Qsum_app_one (l : list Q) (q : Q) : (Qsum (l ++ [q]) == Qsum l + q)%Q.
Proof.
  induction l as [|x l IH].
  - cbn. ring.
  - cbn [app]. change (Qsum (x :: l ++ [q])) with (x + Qsum (l ++ [q]))%Q.
    change (Qsum (x :: l)) with (x + Qsum l)%Q. rewrite IH. ring.
Qed.

Lemma sum_of_fold_numbers (k : nat) :
  (2 * Qsum (map (fun i => inject_Z (Z.of_nat i)) (seq 1 k))
   == inject_Z (Z.of_nat k) * (inject_Z (Z.of_nat k) + 1))%Q.
Proof.
  induction k as [|k IH].
  - cbn. ring.
  - rewrite seq_S, map_app. cbn [map]. rewrite Qsum_app_one.
    replace (1 + k) with (S k) by lia.
    rewrite Nat2Z.inj_succ, <- Z.add_1_r, inject_Z_plus in *.
    change (inject_Z 1) with 1%Q.
    setoid_replace (2 * (Qsum (map (fun i => inject_Z (Z.of_nat i)) (seq 1 k))
                         + (inject_Z (Z.of_nat k) + 1)))%Q
      with (2 * Qsum (map (fun i => inject_Z (Z.of_nat i)) (seq 1 k))
            + 2 * (inject_Z (Z.of_nat k) + 1))%Q by ring.
    rewrite IH. ring.
Qed.

(** X9.  The table that the harness returns has a [fold] column besides
    the four metrics: the fold numbers 1, ..., k are averaged with the
    rest, so every row carries (k + 1) / 2 there. *)
Theorem fold_column_is_mean_fold_number (images : list Image) (labels : list Z)
  (models : list string) (k : nat) (w : world) (rows : list summary_row) (w' : world) :
  harness images labels models k w = (Ok rows, w') ->
  Forall (fun row => exists q, row_fold row = Finite q
                               /\ (q == (inject_Z (Z.of_nat k) + 1) / 2)%Q) rows.
Proof.
  unfold federated_kfold_cross_validation, new_StratifiedKFold.
  unfold bind at 1. unfold liftR at 1.
  destruct (k <=? 1) eqn:Hk; [discriminate|]. apply Nat.leb_gt in Hk.
  intros Hrun. apply for_each_Ok in Hrun.
  assert (Hrows : forall row, In row rows ->
            exists model_name w1 w2,
              model_body (skf_of k) images labels k model_name w1 = (Ok row, w2)).
  { clear -Hrun. induction Hrun as [|name row models rows (w1 & w2 & Hrow) _ IH];
      intros row' Hin; [destruct Hin|].
    destruct Hin as [<- | Hin]; [exists name, w1, w2; exact Hrow | apply IH; exact Hin]. }
  apply Forall_forall. intros row Hin.
  destruct (Hrows row Hin) as (model_name & w1 & w2 & Hrow).
  apply evaluate_model_Ok in Hrow.
  destruct Hrow as (folds & frs & Hsplit & Hloop & ->).
  apply split_length in Hsplit. change (n_splits (skf_of k)) with k in Hsplit.
  apply fold_numbers in Hloop. rewrite Hsplit in Hloop. cbn [Nat.add] in Hloop.
  cbn [dataframe_mean row_fold].
  rewrite <- (map_map fr_fold (fun i => Finite (inject_Z (Z.of_nat i)))), Hloop.
  rewrite <- (map_map (fun i => inject_Z (Z.of_nat i)) Finite).
  rewrite pd_mean_finite by (destruct k as [|[|k']]; [lia | lia | discriminate]).
  eexists. split; [reflexivity|].
  unfold arithmetic_mean. rewrite length_map, length_seq.
  pose proof (sum_of_fold_numbers k) as Hsum.
  assert (Hpos : (0 < inject_Z (Z.of_nat k))%Q).
  { change 0%Q with (inject_Z 0). rewrite <- Zlt_Qlt. lia. }
  set (s := Qsum (map (fun i => inject_Z (Z.of_nat i)) (seq 1 k))) in *.
  set (n := inject_Z (Z.of_nat k)) in *.
  assert (Hs : (s == n * (n + 1) / 2)%Q).
  { setoid_replace s with (2 * s / 2)%Q by (field; lra). rewrite Hsum. reflexivity. }
  rewrite Hs. field. lra.
Qed.

(** *** Failures *)

Lemma enumerate_from_app (A : Type) (l1 l2 : list A) (start : nat) :
  enumerate_from start (l1 ++ l2)
  = enumerate_from start l1 ++ enumerate_from (start + List.length l1) l2.
Proof.
  revert start. induction l1 as [|a l1 IH]; intros start.
  - cbn. rewrite Nat.add_0_r. reflexivity.
  - cbn [app enumerate_from List.length]. rewrite IH.
    replace (S start + List.length l1) with (start + S (List.length l1)) by lia.
    reflexivity.
Qed.

(** X10.  Nothing in the loops catches an exception.  Whatever one fold
    evaluation raises (the trainer, [predict] or the metrics) ends the
    run with that exception, in the world of that point: the remaining
    folds and the models listed later are never started, and the rows of
    the models already evaluated are not returned. *)
Theorem fold_failure_aborts_run (images : list Image) (labels : list Z)
  (earlier later : list string) (model_name : string) (k : nat)
  (done rest : list (list nat * list nat)) (train_idx test_idx : list nat)
  (w w1 w2 w3 : world) (rows : list summary_row) (fold_results : list fold_result)
  (e : exn) :
  2 <= k ->
  for_each earlier (model_body (skf_of k) images labels k) w = (Ok rows, w1) ->
  split_of (skf_of k) images labels = Ok (done ++ (train_idx, test_idx) :: rest) ->
  for_each (enumerate_from 0 done) (fold_body images labels k model_name)
    {| log := log w1 ++ [EvPrintTraining model_name k];
       heap := heap w1; next_obj := next_obj w1 |}
  = (Ok fold_results, w2) ->
  fold_body images labels k model_name (List.length done, (train_idx, test_idx)) w2
  = (Raise e, w3) ->
  harness images labels (earlier ++ model_name :: later) k w = (Raise e, w3).
Proof.
  intros Hk Hearlier Hsplit Hdone Hfold.
  unfold federated_kfold_cross_validation, new_StratifiedKFold.
  unfold bind at 1. unfold liftR at 1.
  destruct (k <=? 1) eqn:E; [apply Nat.leb_le in E; lia|].
  fold (skf_of k).
  rewrite (for_each_app_Ok _ _ _ _ _ _ _ _ Hearlier).
  cbn [for_each]. unfold bind at 1.
  assert (Hmodel : model_body (skf_of k) images labels k model_name w1 = (Raise e, w3)).
  { unfold evaluate_model. unfold bind at 1. unfold emit at 1.
    unfold bind at 1. unfold liftR at 1. rewrite Hsplit.
    unfold bind at 1.
    rewrite enumerate_from_app, (for_each_app_Ok _ _ _ _ _ _ _ _ Hdone).
    cbn [enumerate_from for_each Nat.add]. unfold bind at 1. rewrite Hfold.
    reflexivity. }
  rewrite Hmodel. reflexivity.
Qed.

(** *** What the rows of the table measure *)

(** A loop that completes has run each of its iterations to completion,
    each from a world in which the invariant [I] holds. *)
Lemma for_each_Ok_inv (A B : Type) (I : world -> Prop) (body : A -> M B) :
  (forall a w b w', I w -> body a w = (Ok b, w') -> I w') ->
  forall (l : list A) (w : world) (bs : list B) (w' : world),
    I w -> for_each l body w = (Ok bs, w') ->
    Forall2 (fun a b => exists w1 w2, I w1 /\ body a w1 = (Ok b, w2)) l bs /\ I w'.
Proof.
  intros Hstep. induction l as [|a l IH]; intros w bs w' Hw Hrun.
  - inversion Hrun; subst. split; [constructor | exact Hw].
  - cbn [for_each] in Hrun.
    apply bind_inv in Hrun. destruct Hrun as [[b [w1 [Hb Hrun]]] | [e [_ He]]];
      [|discriminate].
    apply bind_inv in Hrun. destruct Hrun as [[bs' [w2 [Hbs Hrun]]] | [e [_ He]]];
      [|discriminate].
    inversion Hrun; subst.
    destruct (IH _ _ _ (Hstep _ _ _ _ Hw Hb) Hbs) as [Hall Hw'].
    split; [|exact Hw']. constructor; [exists w, w1; split; assumption | exact Hall].
Qed.

Lemma evaluate_fold_Ok_record (images : list Image) (labels : list Z) (k : nat)
  (model_name : string) (fold : nat) (train_idx test_idx : list nat)
  (w : world) (fr : fold_result) (w' : world) :
  heap_bounded w ->
  fold_body images labels k model_name (fold, (train_idx, test_idx)) w = (Ok fr, w') ->
  fold_record one_class initial_weights fl_fit keras_predict images labels model_name
    (train_idx, test_idx) fr
  /\ heap_bounded w'.
Proof.
  intros Hb.
  unfold evaluate_fold, bind, emit, liftR, ret, get_model, fit, predict.
  destruct (np_take images train_idx) as [x_train|] eqn:Hxtr; [|discriminate].
  destruct (np_take images test_idx) as [x_test|] eqn:Hxte; [|discriminate].
  destruct (np_take labels train_idx) as [y_train|] eqn:Hytr; [|discriminate].
  destruct (np_take labels test_idx) as [y_test|] eqn:Hyte; [|discriminate].
  cbn [log heap next_obj].
  destruct (architecture_of model_name) as [a|] eqn:Ha; [|discriminate].
  cbn [log heap next_obj].
  unfold current_weights at 1. cbn [heap obj arch]. rewrite (lookup_fresh w Hb).
  destruct (fl_fit _ _ _ _) as [after|] eqn:Hfit; [|discriminate].
  cbn [log heap next_obj].
  unfold current_weights. cbn [heap obj arch lookup]. rewrite Nat.eqb_refl.
  destruct (keras_predict after x_test) as [y_pred_prob|] eqn:Hpred; [|discriminate].
  destruct (calculate_metrics one_class y_test y_pred_prob default_threshold)
    as [[[[acc sens] spec] auc]|] eqn:Hm; [|discriminate].
  intros H. inversion H; subst. clear H. split.
  - cbn [fold_record fr_accuracy fr_sensitivity fr_specificity fr_roc_auc].
    exists x_train, y_train, x_test, y_test, a, (next_obj w), after, y_pred_prob.
    repeat split; assumption.
  - intros o v. cbn [heap next_obj]. intros [Heq | Hin].
    + inversion Heq; subst. lia.
    + apply Hb in Hin. lia.
Qed.

(** *** Held-out samples *)

Lemma Forall2_with_left (A B : Type) (P : A -> B -> Prop) (Q : A -> Prop)
  (l1 : list A) (l2 : list B) :
  Forall2 P l1 l2 -> Forall Q l1 -> Forall2 (fun a b => P a b /\ Q a) l1 l2.
Proof.
  induction 1 as [|a b l1 l2 Hab _ IH]; intros Hq; [constructor|].
  inversion Hq; subst. constructor; [split; assumption | apply IH; assumption].
Qed.

Lemma evaluate_model_Ok_records (images : list Image) (labels : list Z) (k : nat)
  (model_name : string) (w : world) (row : summary_row) (w1 : world) :
  heap_bounded w ->
  model_body (skf_of k) images labels k model_name w = (Ok row, w1) ->
  heap_bounded w1
  /\ exists folds fold_results,
       split_of (skf_of k) images labels = Ok folds
       /\ row = dataframe_mean model_name fold_results
       /\ Forall2 (fold_record one_class initial_weights fl_fit keras_predict
                     images labels model_name)
                  folds fold_results.
Proof.
  intros Hb Hrow. apply evaluate_model_Ok in Hrow.
  destruct Hrow as (folds & frs & Hsplit & Hloop & ->).
  apply (for_each_Ok_inv _ _ heap_bounded) in Hloop.
  - destruct Hloop as [Hall Hb1]. split; [exact Hb1|].
    exists folds, frs. repeat split; try assumption.
    clear -Hall. revert Hall. generalize 0 as start.
    revert frs. induction folds as [|[tr te] folds IH]; intros frs start Hall.
    + inversion Hall. constructor.
    + cbn [enumerate_from] in Hall. inversion Hall as [|? fr ? frs' Hhd Htl]; subst.
      constructor; [|eapply IH; exact Htl].
      destruct Hhd as (wa & wb & Hba & Hfr).
      eapply evaluate_fold_Ok_record; eassumption.
  - intros [fold [tr te]] wa fr wb Hba Hfr.
    eapply evaluate_fold_Ok_record; eassumption.
  - intros o v. cbn [heap next_obj]. apply Hb.
Qed.


(** X20.  In a table that the harness returns from the initial world,
    the row of each requested model is the column mean of one record per
    fold that the splitter gives for that model, in fold order, and the
    record of a fold holds the metrics, against the test labels of the
    fold, of what a newly built instance of that model predicts for the
    test images once it has been trained on the train images and labels
    of the fold. *)
Theorem rows_measure_trained_models (images : list Image) (labels : list Z)
  (models : list string) (k : nat) (rows : list summary_row) (w' : world) :
  harness images labels models k initial_world = (Ok rows, w') ->
  Forall2 (fun model_name row =>
      exists folds fold_results,
        split_of (skf_of k) images labels = Ok folds
        /\ List.length folds = k
        /\ row = dataframe_mean model_name fold_results
        /\ map fr_fold fold_results = seq 1 k
        /\ Forall2 (fold_record one_class initial_weights fl_fit keras_predict
                      images labels model_name)
                   folds fold_results)
    models rows.
Proof.
  unfold federated_kfold_cross_validation, new_StratifiedKFold.
  unfold bind at 1. unfold liftR at 1.
  destruct (k <=? 1) eqn:Hk; [discriminate|]. apply Nat.leb_gt in Hk.
  fold (skf_of k). intros Hrun.
  assert (Hmodel : forall model_name w row w1,
            heap_bounded w ->
            model_body (skf_of k) images labels k model_name w = (Ok row, w1) ->
            heap_bounded w1
            /\ exists folds fold_results,
                 split_of (skf_of k) images labels = Ok folds
                 /\ List.length folds = k
                 /\ row = dataframe_mean model_name fold_results
                 /\ map fr_fold fold_results = seq 1 k
                 /\ Forall2 (fold_record one_class initial_weights fl_fit keras_predict
                               images labels model_name)
                            folds fold_results).
  { intros model_name w row w1 Hb Hrow.
    apply evaluate_model_Ok in Hrow.
    destruct Hrow as (folds & frs & Hsplit & Hloop & ->).
    pose proof (fold_numbers _ _ _ _ _ _ _ _ _ Hloop) as Hnum.
    pose proof (split_length _ _ _ _ _ Hsplit) as Hlen.
    rewrite Hlen in Hnum. cbn [n_splits skf_of Nat.add] in Hnum, Hlen.
    apply (for_each_Ok_inv _ _ heap_bounded) in Hloop.
    - destruct Hloop as [Hall Hb1]. split; [exact Hb1|].
      exists folds, frs. repeat split; try assumption.
      clear -Hall. revert Hall. generalize 0 as start.
      revert frs. induction folds as [|[tr te] folds IH]; intros frs start Hall.
      + inversion Hall. constructor.
      + cbn [enumerate_from] in Hall. inversion Hall as [|? fr ? frs' Hhd Htl]; subst.
        constructor; [|eapply IH; exact Htl].
        destruct Hhd as (wa & wb & Hba & Hfr).
        eapply evaluate_fold_Ok_record; eassumption.
    - intros [fold [tr te]] wa fr wb Hba Hfr.
      eapply evaluate_fold_Ok_record; eassumption.
    - intros o v. cbn [heap next_obj]. apply Hb. }
  apply (for_each_Ok_inv _ _ heap_bounded) in Hrun;
    [| intros name w row w1 Hb Hrow; apply (Hmodel _ _ _ _ Hb Hrow)
     | apply initial_world_bounded].
  destruct Hrun as [Hall _].
  eapply Forall2_impl; [|exact Hall].
  intros name row (w1 & w2 & Hb & Hrow).
  exact (proj2 (Hmodel _ _ _ _ Hb Hrow)).
Qed.

(** *** The calls of a run that returns a table *)

Lemma for_each_Ok_calls (A B : Type) (g : A -> list call) (body : A -> M B) :
  (forall a w b w', body a w = (Ok b, w') ->
     exists evs, log w' = log w ++ evs /\ map call_of evs = g a) ->
  forall (l : list A) (w : world) (bs : list B) (w' : world),
    for_each l body w = (Ok bs, w') ->
    exists evs, log w' = log w ++ evs /\ map call_of evs = flat_map g l.
Proof.
  intros Hbody. induction l as [|a l IH]; intros w bs w' Hrun.
  - inversion Hrun; subst. exists []. rewrite app_nil_r. split; reflexivity.
  - cbn [for_each] in Hrun.
    apply bind_inv in Hrun. destruct Hrun as [[b [w1 [Hb Hrun]]] | [e [_ He]]];
      [|discriminate].
    apply bind_inv in Hrun. destruct Hrun as [[bs' [w2 [Hbs Hrun]]] | [e [_ He]]];
      [|discriminate].
    inversion Hrun; subst.
    destruct (Hbody _ _ _ _ Hb) as [evs1 [Hl1 Hc1]].
    destruct (IH _ _ _ Hbs) as [evs2 [Hl2 Hc2]].
    exists (evs1 ++ evs2). split.
    + rewrite Hl2, Hl1, app_assoc. reflexivity.
    + rewrite map_app, Hc1, Hc2. reflexivity.
Qed.

Lemma fold_calls_of_enumerate (k : nat) (model_name : string)
  (folds : list (list nat * list nat)) (start : nat) :
  flat_map (fun a : nat * (list nat * list nat) =>
              [CallPrintFold (fst a + 1) k model_name; CallGetModel model_name;
               CallFit (fst a + 1) 5; CallPredict])
    (enumerate_from start folds)
  = flat_map (fun fold => [CallPrintFold fold k model_name; CallGetModel model_name;
                           CallFit fold 5; CallPredict])
      (seq (start + 1) (List.length folds)).
Proof.
  revert start. induction folds as [|f folds IH]; intros start; [reflexivity|].
  cbn [enumerate_from flat_map List.length seq app fst]. rewrite IH.
  replace (S start + 1) with (S (start + 1)) by lia. reflexivity.
Qed.

(** X21.  A run that returns a table has made exactly these calls, in
    this order: for each entry of the model list in list order, the
    headline of the model, then for each fold number from 1 to [k] in
    increasing order the progress line, the factory call for the model,
    the training call for that fold with five epochs, and the call of
    [predict]. *)
Theorem run_makes_its_calls_in_order (images : list Image) (labels : list Z)
  (models : list string) (k : nat) (rows : list summary_row) (w' : world) :
  harness images labels models k initial_world = (Ok rows, w') ->
  map call_of (log w')
  = flat_map (fun model_name =>
                CallPrintTraining model_name k
                :: flat_map (fun fold => [CallPrintFold fold k model_name;
                                          CallGetModel model_name;
                                          CallFit fold 5; CallPredict])
                     (seq 1 k))
             models.
Proof.
  unfold federated_kfold_cross_validation, new_StratifiedKFold.
  unfold bind at 1. unfold liftR at 1.
  destruct (k <=? 1); [discriminate|]. intros Hrun.
  apply (for_each_Ok_calls _ _
           (fun model_name =>
              CallPrintTraining model_name k
              :: flat_map (fun fold => [CallPrintFold fold k model_name;
                                        CallGetModel model_name;
                                        CallFit fold 5; CallPredict])
                   (seq 1 k))) in Hrun.
  - destruct Hrun as [evs [Hlog Hf]]. rewrite Hlog. exact Hf.
  - intros model_name w row w1 Hrow.
    apply evaluate_model_Ok in Hrow.
    destruct Hrow as (folds & frs & Hsplit & Hloop & _).
    apply split_length in Hsplit. cbn [n_splits skf_of] in Hsplit.
    apply (for_each_Ok_calls _ _
             (fun a : nat * (list nat * list nat) =>
                [CallPrintFold (fst a + 1) k model_name; CallGetModel model_name;
                 CallFit (fst a + 1) 5; CallPredict])) in Hloop.
    + destruct Hloop as [evs [Hlog Hf]]. cbn [log] in Hlog.
      exists ([EvPrintTraining model_name k] ++ evs). split.
      * rewrite Hlog, <- app_assoc. reflexivity.
      * rewrite map_app, Hf, fold_calls_of_enumerate, Hsplit. reflexivity.
    + intros [fold [tr te]] wa fr wb Hbody.
      apply evaluate_fold_Ok_trace in Hbody. destruct Hbody as (m & before & Hlog).
      eexists. split; [exact Hlog | reflexivity].
Qed.

(** *** One new instance for each (model, fold) pair *)

Lemma elt_app_cases (A : Type) (l1 l2 pre post : list A) (x : A) :
  l1 ++ l2 = pre ++ x :: post ->
  (exists post1, l1 = pre ++ x :: post1 /\ post = post1 ++ l2)
  \/ (exists pre2, pre = l1 ++ pre2 /\ l2 = pre2 ++ x :: post).
Proof.
  intros Heq. apply app_eq_app in Heq. destruct Heq as [l [[Hp Hq] | [Hp Hq]]].
  - destruct l as [|e l].
    + right. exists []. rewrite app_nil_r in Hp. split; [rewrite app_nil_r|]; auto.
    + simpl in Hq. inversion Hq; subst. left. exists l. split; reflexivity.
  - right. exists l. split; [exact Hp | exact Hq].
Qed.

Lemma pairs_built_app (evs1 evs2 : list event) :
  pairs_built evs1 -> pairs_built evs2 -> pairs_built (evs1 ++ evs2).
Proof.
  intros H1 H2 pre fold k name post Heq.
  apply elt_app_cases in Heq. destruct Heq as [(post1 & He & ->) | (pre2 & -> & He)].
  - destruct (H1 _ _ _ _ _ He) as (m & before & tr & te & post' & ->).
    exists m, before, tr, te, (post' ++ evs2). reflexivity.
  - exact (H2 _ _ _ _ _ He).
Qed.

Lemma pairs_started_app (evs1 evs2 : list event) :
  pairs_built evs1 -> pairs_started evs2 -> pairs_started (evs1 ++ evs2).
Proof.
  intros H1 H2 pre fold k name post Heq.
  apply elt_app_cases in Heq. destruct Heq as [(post1 & He & ->) | (pre2 & -> & He)].
  - right. destruct (H1 _ _ _ _ _ He) as (m & before & tr & te & post' & ->).
    exists m, before, tr, te, (post' ++ evs2). reflexivity.
  - exact (H2 _ _ _ _ _ He).
Qed.

Lemma pairs_built_started (evs : list event) : pairs_built evs -> pairs_started evs.
Proof. intros H pre fold k name post Heq. right. exact (H _ _ _ _ _ Heq). Qed.

(** What a result allows to say of the events that led to it. *)
Local Abbreviation pairs_by_result :=
  (fun (B : Type) (r : result B) (evs : list event) =>
     match r with Ok _ => pairs_built evs | Raise _ => pairs_started evs end).

Lemma for_each_pairs (A B : Type) (body : A -> M B) :
  (forall a w r w', body a w = (r, w') ->
     exists evs, log w' = log w ++ evs /\ pairs_by_result B r evs) ->
  forall (l : list A) (w : world) (r : result (list B)) (w' : world),
    for_each l body w = (r, w') ->
    exists evs, log w' = log w ++ evs /\ pairs_by_result (list B) r evs.
Proof.
  intros Hbody. induction l as [|a l IH]; intros w r w' Hrun.
  - inversion Hrun; subst. exists []. rewrite app_nil_r. split; [reflexivity|].
    intros pre fold k name post Heq. destruct pre; discriminate.
  - cbn [for_each] in Hrun. apply bind_inv in Hrun.
    destruct Hrun as [[b [w1 [Ha Hrun]]] | [e [Ha ->]]].
    + destruct (Hbody _ _ _ _ Ha) as [evs1 [Hl1 Hq1]]. cbn in Hq1.
      apply bind_inv in Hrun.
      destruct Hrun as [[bs [w2 [Hl Hrun]]] | [e [Hl ->]]].
      * inversion Hrun; subst. destruct (IH _ _ _ Hl) as [evs2 [Hl2 Hq2]].
        exists (evs1 ++ evs2). split; [rewrite Hl2, Hl1, app_assoc; reflexivity|].
        apply pairs_built_app; assumption.
      * destruct (IH _ _ _ Hl) as [evs2 [Hl2 Hq2]].
        exists (evs1 ++ evs2). split; [rewrite Hl2, Hl1, app_assoc; reflexivity|].
        apply pairs_started_app; assumption.
    + exact (Hbody _ _ _ _ Ha).
Qed.

(** Refutes that one more progress line occurs in a block of known events. *)
Ltac no_other_line Heq pre :=
  simpl in Heq;
  first [ discriminate Heq
        | destruct pre as [|? pre]; [simpl in Heq; discriminate Heq | no_other_line Heq pre] ].

Lemma evaluate_fold_pairs (images : list Image) (labels : list Z) (k : nat)
  (model_name : string) (item : nat * (list nat * list nat))
  (w : world) (r : result fold_result) (w' : world) :
  fold_body images labels k model_name item w = (r, w') ->
  exists evs, log w' = log w ++ evs /\ pairs_by_result fold_result r evs.
Proof.
  destruct item as [fold [tr te]]. intros Hrun.
  apply evaluate_fold_trace in Hrun.
  destruct Hrun as [[Hlog Hno] | [(m & before & Hlog & Hno) | (m & before & Hlog)]].
  - eexists. split; [exact Hlog|].
    destruct r as [fr|e]; [exfalso; eapply Hno; reflexivity|].
    intros pre f k' name post Heq. destruct pre as [|e1 pre].
    + inversion Heq. left. reflexivity.
    + exfalso. no_other_line Heq pre.
  - eexists. split; [exact Hlog|].
    destruct r as [fr|e]; [exfalso; eapply Hno; reflexivity|].
    intros pre f k' name post Heq. destruct pre as [|e1 pre].
    + inversion Heq. right. exists m, before, tr, te, []. reflexivity.
    + exfalso. no_other_line Heq pre.
  - eexists. split; [exact Hlog|].
    assert (Hb : pairs_built [EvPrintFold (fold + 1) k model_name; EvGetModel model_name m;
                              EvFit m (fold + 1) before tr te 5; EvPredict m te]).
    { intros pre f k' name post Heq. destruct pre as [|e1 pre].
      - inversion Heq. exists m, before, tr, te, [EvPredict m te]. reflexivity.
      - exfalso. no_other_line Heq pre. }
    destruct r as [fr|e]; [exact Hb | apply pairs_built_started; exact Hb].
Qed.

Lemma harness_pairs (images : list Image) (labels : list Z) (models : list string)
  (k : nat) (w : world) (r : result (list summary_row)) (w' : world) :
  harness images labels models k w = (r, w') ->
  exists evs, log w' = log w ++ evs /\ pairs_started evs.
Proof.
  assert (Hnil : pairs_built ([] : list event))
    by (intros pre fold k' name post Heq; destruct pre; discriminate).
  unfold federated_kfold_cross_validation, new_StratifiedKFold.
  unfold bind at 1. unfold liftR at 1.
  destruct (k <=? 1).
  { intros Hrun. inversion Hrun; subst. exists []. rewrite app_nil_r.
    split; [reflexivity | apply pairs_built_started, Hnil]. }
  intros Hrun.
  apply (for_each_pairs _ _ (model_body (skf_of k) images labels k)) in Hrun.
  - destruct Hrun as [evs [Hlog Hq]]. exists evs. split; [exact Hlog|].
    destruct r; [apply pairs_built_started|]; exact Hq.
  - clear w r w' Hrun. intros model_name w r w'. unfold evaluate_model.
    set (w0 := {| log := log w ++ [EvPrintTraining model_name k];
                  heap := heap w; next_obj := next_obj w |}).
    assert (Hpt : pairs_built [EvPrintTraining model_name k : event]).
    { intros pre fold k' name post Heq. destruct pre as [|e1 pre].
      - discriminate.
      - destruct pre; discriminate. }
    unfold bind at 1. unfold emit at 1. fold w0.
    unfold bind at 1. unfold liftR at 1.
    destruct (split rng check_random_state rng_shuffle uninitialised _ images labels)
      as [folds|e].
    + intros Hrun. apply bind_inv in Hrun.
      destruct Hrun as [[frs [w1 [Hl Hrun]]] | [e [Hl ->]]].
      * inversion Hrun; subst.
        apply (for_each_pairs _ _ _ (evaluate_fold_pairs images labels k model_name)) in Hl.
        destruct Hl as [evs [Hlog Hq]].
        exists ([EvPrintTraining model_name k] ++ evs). split.
        -- rewrite Hlog. unfold w0. cbn [log]. rewrite <- app_assoc. reflexivity.
        -- apply pairs_built_app; assumption.
      * apply (for_each_pairs _ _ _ (evaluate_fold_pairs images labels k model_name)) in Hl.
        destruct Hl as [evs [Hlog Hq]].
        exists ([EvPrintTraining model_name k] ++ evs). split.
        -- rewrite Hlog. unfold w0. cbn [log]. rewrite <- app_assoc. reflexivity.
        -- apply pairs_started_app; assumption.
    + intros Hrun. inversion Hrun; subst. eexists. split; [reflexivity|].
      apply pairs_built_started, Hpt.
Qed.

(** A loop that completes has logged, for each of its items, what a
    completed iteration on that item logs. *)
Lemma for_each_Ok_member (A B : Type) (P : A -> list event -> Prop) (body : A -> M B) :
  (forall a w b w', body a w = (Ok b, w') ->
     exists evs, log w' = log w ++ evs /\ P a evs) ->
  forall (l : list A) (w : world) (bs : list B) (w' : world),
    for_each l body w = (Ok bs, w') ->
    (exists evs, log w' = log w ++ evs)
    /\ forall a, In a l ->
         exists pre evs post, log w' = log w ++ pre ++ evs ++ post /\ P a evs.
Proof.
  intros Hbody. induction l as [|a l IH]; intros w bs w' Hrun.
  - inversion Hrun; subst. split; [exists []; rewrite app_nil_r; reflexivity|].
    intros a [].
  - cbn [for_each] in Hrun.
    apply bind_inv in Hrun. destruct Hrun as [[b [w1 [Hb Hrun]]] | [e [_ He]]];
      [|discriminate].
    apply bind_inv in Hrun. destruct Hrun as [[bs' [w2 [Hbs Hrun]]] | [e [_ He]]];
      [|discriminate].
    inversion Hrun; subst.
    destruct (Hbody _ _ _ _ Hb) as [evs1 [Hl1 Hp1]].
    destruct (IH _ _ _ Hbs) as [[evs2 Hl2] Hmem].
    split; [exists (evs1 ++ evs2); rewrite Hl2, Hl1, app_assoc; reflexivity|].
    intros a' [<- | Hin].
    + exists [], evs1, evs2. split; [|exact Hp1].
      rewrite Hl2, Hl1, <- app_assoc. reflexivity.
    + destruct (Hmem a' Hin) as (pre & evs & post & Hlog & Hp).
      exists (evs1 ++ pre), evs, post. split; [|exact Hp].
      rewrite Hlog, Hl1, <- !app_assoc. reflexivity.
Qed.

Lemma enumerate_from_nth (A : Type) (l : list A) (start j : nat) (a : A) :
  nth_error l j = Some a -> In (start + j, a) (enumerate_from start l).
Proof.
  revert start j. induction l as [|b l IH]; intros start [|j] Hnth; try discriminate.
  - inversion Hnth; subst. left. f_equal. lia.
  - right. replace (start + S j) with (S start + j) by lia. apply IH. exact Hnth.
Qed.

Lemma fit_ids_count (evs : list event) :
  List.length (fit_ids evs) = count_events is_fit evs.
Proof.
  unfold count_events. induction evs as [|e evs IH]; [reflexivity|].
  destruct e; cbn [fit_ids flat_map filter is_fit app List.length]; fold (fit_ids evs);
    rewrite ?IH; reflexivity.
Qed.

(** In a run that returns a table, every requested model and every fold
    number from 1 to [k] has its progress line, factory call and training
    call, one right after the other. *)
Lemma harness_Ok_pairs (images : list Image) (labels : list Z) (models : list string)
  (k : nat) (w : world) (rows : list summary_row) (w' : world) :
  harness images labels models k w = (Ok rows, w') ->
  forall model_name fold, In model_name models -> 1 <= fold <= k ->
    exists pre m before train_idx test_idx post,
      log w' = log w ++ pre
               ++ EvPrintFold fold k model_name :: EvGetModel model_name m
                  :: EvFit m fold before train_idx test_idx 5 :: post.
Proof.
  unfold federated_kfold_cross_validation, new_StratifiedKFold.
  unfold bind at 1. unfold liftR at 1.
  destruct (k <=? 1); [discriminate|]. intros Hrun model_name fold Hin Hfold.
  apply (for_each_Ok_member _ _
           (fun name evs => forall fold, 1 <= fold <= k ->
              exists pre m before train_idx test_idx post,
                evs = pre ++ EvPrintFold fold k name :: EvGetModel name m
                          :: EvFit m fold before train_idx test_idx 5 :: post)) in Hrun.
  - destruct Hrun as [_ Hmem].
    destruct (Hmem model_name Hin) as (pre & evs & post & Hlog & Hp).
    destruct (Hp fold Hfold) as (pre1 & m & before & tr & te & post1 & ->).
    exists (pre ++ pre1), m, before, tr, te, (post1 ++ post).
    rewrite Hlog, <- !app_assoc. reflexivity.
  - clear. intros name w row w1 Hrow.
    apply evaluate_model_Ok in Hrow.
    destruct Hrow as (folds & frs & Hsplit & Hloop & _).
    apply split_length in Hsplit. cbn [n_splits skf_of] in Hsplit.
    apply (for_each_Ok_member _ _
             (fun (a : nat * (list nat * list nat)) evs =>
                exists m before,
                  evs = [EvPrintFold (fst a + 1) k name; EvGetModel name m;
                         EvFit m (fst a + 1) before (fst (snd a)) (snd (snd a)) 5;
                         EvPredict m (snd (snd a))])) in Hloop.
    + destruct Hloop as [[evs Hlog] Hmem]. cbn [log] in Hlog.
      exists ([EvPrintTraining name k] ++ evs). split.
      * rewrite Hlog, <- app_assoc. reflexivity.
      * intros fold Hfold.
        destruct (nth_error folds (fold - 1)) as [[tr te]|] eqn:Hnth.
        2: { apply nth_error_None in Hnth. lia. }
        apply (enumerate_from_nth _ _ 0) in Hnth.
        destruct (Hmem _ Hnth) as (pre & evs1 & post & Hlog1 & m & before & ->).
        cbn [fst snd Nat.add] in Hlog1.
        replace (fold - 1 + 1) with fold in Hlog1 by lia.
        rewrite Hlog in Hlog1. cbn [log] in Hlog1. rewrite <- !app_assoc in Hlog1.
        apply app_inv_head in Hlog1. apply app_inv_head in Hlog1. subst evs.
        exists (EvPrintTraining name k :: pre), m, before, tr, te,
          (EvPredict m te :: post).
        reflexivity.
    + intros [fold [tr te]] wa fr wb Hbody.
      apply evaluate_fold_Ok_trace in Hbody. destruct Hbody as (m & before & Hlog).
      eexists. split; [exact Hlog|]. exists m, before. reflexivity.
Qed.

(** C7.  In every run of the harness from the initial world, whatever
    its outcome: each call of [fit] comes right after the [get_model]
    call that built the instance it trains, itself right after the
    progress line of the (model, fold) pair being processed, with the
    model name and fold number of that pair, and the instance still holds
    its factory weights when training starts; no instance is handed to
    [fit] twice; and every progress line of a pair is followed at once by
    the factory call for its model and the training call on the new
    instance, unless the run ended on that line.  In a run that returns a
    table, every requested model and every fold number from 1 to [k] has
    such a block, and there are as many trained instances as (model, fold)
    pairs. *)
Theorem fresh_model_for_each_fold (images : list Image) (labels : list Z)
  (models : list string) (k : nat) :
  let run := harness images labels models k initial_world in
  let trace := log (snd run) in
  (forall pre m fold before train_idx test_idx epochs post,
      trace = pre ++ EvFit m fold before train_idx test_idx epochs :: post ->
      exists pre' model_name k',
        pre = pre' ++ [EvPrintFold fold k' model_name; EvGetModel model_name m]
        /\ architecture_of model_name = Some (arch m)
        /\ before = initial_weights (arch m) (obj m))
  /\ NoDup (fit_ids trace)
  /\ (forall pre fold k' model_name post,
        trace = pre ++ EvPrintFold fold k' model_name :: post ->
        post = []
        \/ exists m train_idx test_idx post',
             post = EvGetModel model_name m
                    :: EvFit m fold (initial_weights (arch m) (obj m))
                         train_idx test_idx 5 :: post'
             /\ architecture_of model_name = Some (arch m)
             /\ ~ In (obj m) (fit_ids pre))
  /\ (forall rows, fst run = Ok rows ->
        List.length (fit_ids trace) = List.length models * k
        /\ forall model_name fold, In model_name models -> 1 <= fold <= k ->
             exists pre m train_idx test_idx post,
               trace = pre ++ EvPrintFold fold k model_name
                           :: EvGetModel model_name m
                           :: EvFit m fold (initial_weights (arch m) (obj m))
                                train_idx test_idx 5 :: post
               /\ architecture_of model_name = Some (arch m)
               /\ ~ In (obj m) (fit_ids pre)).
Proof.
  intros run trace. unfold trace, run. clear run trace.
  destruct (harness images labels models k initial_world) as [r w'] eqn:Hrun.
  destruct (harness_segment _ _ _ _ _ _ _ initial_world_bounded Hrun) as [evs Hs].
  destruct (harness_pairs _ _ _ _ _ _ _ Hrun) as [evs' [Hlog' Hstarted]].
  cbn [snd fst]. pose proof (seg_log _ _ _ _ _ _ Hs) as Hlog.
  cbn [initial_world log app] in Hlog, Hlog'. rewrite Hlog.
  rewrite Hlog in Hlog'. subst evs'.
  pose proof (seg_built _ _ _ _ _ _ Hs) as Hbuilt.
  pose proof (seg_fit_nodup _ _ _ _ _ _ Hs) as Hnodup.
  assert (Hblock : forall pre fold k' model_name m before train_idx test_idx post',
            evs = pre ++ EvPrintFold fold k' model_name :: EvGetModel model_name m
                      :: EvFit m fold before train_idx test_idx 5 :: post' ->
            before = initial_weights (arch m) (obj m)
            /\ architecture_of model_name = Some (arch m)
            /\ ~ In (obj m) (fit_ids pre)).
  { intros pre fold k' name m before tr te post' Heq.
    destruct (Hbuilt (pre ++ [EvPrintFold fold k' name; EvGetModel name m])
                m fold before tr te 5 post') as (pre' & name' & k'' & Hpre & Harch & Hbefore).
    { rewrite Heq, <- app_assoc. reflexivity. }
    split; [exact Hbefore|]. split.
    - change (pre ++ [EvPrintFold fold k' name; EvGetModel name m])
        with (pre ++ [EvPrintFold fold k' name] ++ [EvGetModel name m]) in Hpre.
      change (pre' ++ [EvPrintFold fold k'' name'; EvGetModel name' m])
        with (pre' ++ [EvPrintFold fold k'' name'] ++ [EvGetModel name' m]) in Hpre.
      rewrite !app_assoc in Hpre. apply app_inj_tail in Hpre.
      destruct Hpre as [_ Hgm]. inversion Hgm; subst. exact Harch.
    - rewrite Heq in Hnodup.
      change (pre ++ EvPrintFold fold k' name :: EvGetModel name m
                  :: EvFit m fold before tr te 5 :: post')
        with (pre ++ [EvPrintFold fold k' name; EvGetModel name m]
                  ++ EvFit m fold before tr te 5 :: post') in Hnodup.
      rewrite !fit_ids_app in Hnodup. cbn [fit_ids flat_map app] in Hnodup.
      fold (fit_ids post') in Hnodup.
      apply NoDup_remove_2 in Hnodup. intros Hin. apply Hnodup.
      apply in_or_app. left. exact Hin. }
  split; [exact Hbuilt|]. split; [exact Hnodup|]. split.
  - intros pre fold k' name post Heq.
    destruct (Hstarted _ _ _ _ _ Heq) as [-> | (m & before & tr & te & post' & ->)];
      [left; reflexivity|].
    right. destruct (Hblock _ _ _ _ _ _ _ _ _ Heq) as (-> & Harch & Hnew).
    exists m, tr, te, post'. repeat split; assumption.
  - intros rows ->. split.
    + destruct (harness_Ok_count is_fit 1 ltac:(reflexivity) ltac:(reflexivity)
                  _ _ _ _ _ _ _ Hrun) as [evs1 [Hlog1 Hc]].
      cbn [initial_world log app] in Hlog1. rewrite Hlog in Hlog1. subst evs1.
      rewrite fit_ids_count, Hc. lia.
    + intros name fold Hin Hfold.
      destruct (harness_Ok_pairs _ _ _ _ _ _ _ Hrun name fold Hin Hfold)
        as (pre & m & before & tr & te & post & Hlog2).
      cbn [initial_world log app] in Hlog2. rewrite Hlog in Hlog2.
      pose proof Hlog2 as Heq.
      destruct (Hblock _ _ _ _ _ _ _ _ _ Heq) as (-> & Harch & Hnew).
      exists pre, m, tr, te, post. repeat split; assumption.
Qed.

End HarnessProperties.

(** C4.  Two runs of the harness on the same images, labels and [k]
    work on the same fold partitions, whatever their trainers,
    predictors, model lists and releases of scikit-learn, whatever their
    generators do for other seeds and whatever the arrays they allocate
    hold, as long as the generator state built from the seed of the
    harness, the constant 42 of the source, is the same in both: the
    splitter gives both runs the same answer, and a training call for
    fold number [fold] receives the [fold]-th (train, test) pair of that
    answer.  With both runs taken to be the same run, every model of the
    list is evaluated on identical splits although [split] is called once
    per model. *)
Theorem same_seed_same_folds
  (one_class one_class' : one_class_policy) (Image Weights Weights' : Type)
  (initial_weights : Cervical.architecture -> nat -> Weights)
  (fl_fit : Weights -> list Image * list Z -> list Image * list Z -> nat -> result Weights)
  (keras_predict : Weights -> list Image -> result (list (Q * Q)))
  (initial_weights' : Cervical.architecture -> nat -> Weights')
  (fl_fit' : Weights' -> list Image * list Z -> list Image * list Z -> nat -> result Weights')
  (keras_predict' : Weights' -> list Image -> result (list (Q * Q)))
  (rng : Type) (check_random_state check_random_state' : Z -> rng)
  (rng_shuffle : rng -> list nat -> list nat * rng)
  (uninitialised uninitialised' : nat -> nat)
  (images : list Image) (labels : list Z) (models models' : list string) (k : nat) :
  check_random_state 42%Z = check_random_state' 42%Z ->
  split rng check_random_state rng_shuffle uninitialised (Cervical.skf_of k) images labels
  = split rng check_random_state' rng_shuffle uninitialised' (Cervical.skf_of k)
      images labels
  /\ forall (m m' : Cervical.model) (fold : nat) (before : Weights) (before' : Weights')
            (train_idx test_idx train_idx' test_idx' : list nat) (epochs epochs' : nat),
      In (Cervical.EvFit m fold before train_idx test_idx epochs)
         (Cervical.log (snd
            (Cervical.federated_kfold_cross_validation one_class
               initial_weights fl_fit keras_predict
               check_random_state rng_shuffle uninitialised images labels models k
               Cervical.initial_world))) ->
      In (Cervical.EvFit m' fold before' train_idx' test_idx' epochs')
         (Cervical.log (snd
            (Cervical.federated_kfold_cross_validation one_class'
               initial_weights' fl_fit' keras_predict'
               check_random_state' rng_shuffle uninitialised' images labels models' k
               Cervical.initial_world))) ->
      (exists folds,
          split rng check_random_state rng_shuffle uninitialised (Cervical.skf_of k)
            images labels = Ok folds
          /\ nth_error folds (fold - 1) = Some (train_idx, test_idx))
      /\ train_idx = train_idx' /\ test_idx = test_idx'.
Proof.
  intros Hseed.
  pose proof (split_seed_only Image rng check_random_state check_random_state'
                rng_shuffle uninitialised uninitialised' (Cervical.skf_of k)
                images labels Hseed) as Hsame.
  split; [exact Hsame|].
  intros m m' fold before before' train_idx test_idx train_idx' test_idx' epochs epochs'
    H1 H2.
  apply run_fits_on_split in H1. destruct H1 as [folds [Hsplit [_ Hnth]]].
  apply run_fits_on_split in H2. destruct H2 as [folds' [Hsplit' [_ Hnth']]].
  assert (folds' = folds) by congruence. subst folds'.
  split; [exists folds; split; assumption|].
  split; congruence.
Qed.

(** The seed does matter: under the seed-dependent generator, the
    splitter of the harness and one seeded with 43 cut the six synthetic
    samples differently. *)
Example other_seed_other_folds :
  split SeededGenerator.rng SeededGenerator.check_random_state SeededGenerator.rng_shuffle
    Synthetic.uninitialised (Cervical.skf_of 3) Synthetic.images Synthetic.labels
  <> split SeededGenerator.rng SeededGenerator.check_random_state
       SeededGenerator.rng_shuffle Synthetic.uninitialised
       {| n_splits := 3; shuffle := true; random_state := 43 |}
       Synthetic.images Synthetic.labels.
Proof. vm_compute. discriminate. Qed.

(** ** Worked examples on the synthetic instance *)

(** A three-fold run: fold accuracies 1/2, 1/2 and 1 average to 2/3,
    sensitivities 1, 0, 1 and specificities 0, 1, 1 to 2/3 each, and the
    ROC-AUC is 1 on every fold. *)
Example synthetic_three_fold_run :
  fst (Synthetic.run RaiseOnOneClass Synthetic.images Synthetic.labels ["bfnet"] 3)
  = Ok [{| Cervical.row_model := "bfnet";
           Cervical.row_fold := Finite (6 # 3);
           Cervical.row_accuracy := Finite (16 # 24);
           Cervical.row_sensitivity := Finite (2 # 3);
           Cervical.row_specificity := Finite (2 # 3);
           Cervical.row_roc_auc := Finite (3 # 3) |}].
Proof. vm_compute. reflexivity. Qed.

(** C3 (as stated).  Under a release that returns NaN on one class, the
    first of the two folds of the skewed data tests on negatives only and
    has no ROC-AUC; the row of the model then holds 1, the value of the
    other fold alone, which is not the arithmetic mean of the metric over
    the two fold results. *)
Lemma one_class_fold_left_out_of_mean :
  fst (Synthetic.run NanOnOneClass Synthetic.skewed_images Synthetic.skewed_labels
         ["bfnet"] 2)
  = Ok [{| Cervical.row_model := "bfnet";
           Cervical.row_fold := Finite (3 # 2);
           Cervical.row_accuracy := Finite (2 # 8);
           Cervical.row_sensitivity := Finite (1 # 2);
           Cervical.row_specificity := Finite (0 # 4);
           Cervical.row_roc_auc := Finite 1 |}]
  /\ exists fold_results,
       fst (Cervical.for_each
              (Cervical.enumerate_from 0 [([0; 3], [1; 2]); ([1; 2], [0; 3])])
              (Cervical.evaluate_fold NanOnOneClass Synthetic.initial_weights
                 Synthetic.fl_fit Synthetic.keras_predict
                 Synthetic.skewed_images Synthetic.skewed_labels 2 "bfnet")
              {| Cervical.log := [Cervical.EvPrintTraining "bfnet" 2];
                 Cervical.heap := []; Cervical.next_obj := 0 |})
       = Ok fold_results
       /\ map Cervical.fr_roc_auc fold_results = [NaN; Finite 1]
       /\ ~ mean_of (map Cervical.fr_roc_auc fold_results) (Finite 1).
Proof.
  split; [vm_compute; reflexivity|].
  eexists. split; [vm_compute; reflexivity|].
  split; [reflexivity|].
  cbn [map Cervical.fr_roc_auc]. intros [qs [Hcol _]].
  destruct qs; discriminate.
Qed.

(** Under a release that raises, the same run ends in an exception. *)
Example synthetic_one_class_fold_raises :
  fst (Synthetic.run RaiseOnOneClass Synthetic.skewed_images Synthetic.skewed_labels
         ["bfnet"] 2)
  = Raise (ValueError
      "Only one class present in y_true. ROC AUC score is not defined in that case.").
Proof. vm_compute. reflexivity. Qed.

Example synthetic_fresh_instances :
  Cervical.fit_ids
    (Cervical.log (snd (Synthetic.run RaiseOnOneClass Synthetic.images Synthetic.labels
                          ["bfnet"; "zfnet"] 3)))
  = [0; 1; 2; 3; 4; 5].
Proof. vm_compute. reflexivity. Qed.

Lemma model_summary_is_mean_of_folds_witness :
  Cervical.summarises NanOnOneClass Synthetic.initial_weights Synthetic.fl_fit
    Synthetic.keras_predict Synthetic.check_random_state Synthetic.rng_shuffle
    Synthetic.uninitialised Cervical.initial_world
    Synthetic.skewed_images Synthetic.skewed_labels 2 "bfnet"
    {| Cervical.row_model := "bfnet";
       Cervical.row_fold := Finite (3 # 2);
       Cervical.row_accuracy := Finite (2 # 8);
       Cervical.row_sensitivity := Finite (1 # 2);
       Cervical.row_specificity := Finite (0 # 4);
       Cervical.row_roc_auc := Finite 1 |}.
Proof.
  destruct (model_summary_is_mean_of_folds NanOnOneClass
              Synthetic.Image Synthetic.Weights
              Synthetic.initial_weights Synthetic.fl_fit Synthetic.keras_predict
              Synthetic.rng Synthetic.check_random_state Synthetic.rng_shuffle
              Synthetic.uninitialised Synthetic.skewed_images Synthetic.skewed_labels
              ["bfnet"] 2 Cervical.initial_world
              [{| Cervical.row_model := "bfnet";
                  Cervical.row_fold := Finite (3 # 2);
                  Cervical.row_accuracy := Finite (2 # 8);
                  Cervical.row_sensitivity := Finite (1 # 2);
                  Cervical.row_specificity := Finite (0 # 4);
                  Cervical.row_roc_auc := Finite 1 |}]
              (snd (Synthetic.run NanOnOneClass Synthetic.skewed_images
                      Synthetic.skewed_labels ["bfnet"] 2))
              ltac:(vm_compute; reflexivity)) as [_ Hrows].
  destruct (Hrows [] "bfnet" [] eq_refl) as [rows1 [row [rows2 [w1 [Heq [Hlen [Hpre Hsum]]]]]]].
  destruct rows1 as [|r rows1]; [|discriminate Hlen].
  cbn [Cervical.for_each Cervical.ret] in Hpre. inversion Hpre; subst w1.
  cbn [app] in Heq. inversion Heq; subst row. exact Hsum.
Defined.

(** C6 (as stated).  With a supported model listed first, the
    unsupported name is reached only after three training calls have been
    made: the error does not come before any training is attempted. *)
Lemma unsupported_model_after_training :
  Cervical.architecture_of "vgg" = None
  /\ fst (Synthetic.run RaiseOnOneClass Synthetic.images Synthetic.labels ["resnet"; "vgg"] 3)
     = Raise (ValueError "Unsupported model name.")
  /\ List.length
       (filter Cervical.is_fit
          (Cervical.log (snd (Synthetic.run RaiseOnOneClass Synthetic.images Synthetic.labels
                                ["resnet"; "vgg"] 3))))
     = 3.
Proof. repeat split; vm_compute; reflexivity. Qed.

Lemma unsupported_model_raises_when_reached_witness :
  fst (Synthetic.run RaiseOnOneClass Synthetic.images Synthetic.labels ["resnet"; "vgg"] 3)
  = Raise (ValueError "Unsupported model name.").
Proof.
  pose proof (unsupported_model_raises_when_reached RaiseOnOneClass
                Synthetic.Image Synthetic.Weights
                Synthetic.initial_weights Synthetic.fl_fit Synthetic.keras_predict
                Synthetic.rng Synthetic.check_random_state Synthetic.rng_shuffle
                Synthetic.uninitialised Synthetic.images Synthetic.labels
                ["resnet"] [] "vgg" 3 eq_refl) as [_ Hreached].
  pose proof (Hreached
    [([0; 1; 2; 3], [4; 5]); ([0; 1; 4; 5], [2; 3]); ([2; 3; 4; 5], [0; 1])]
    Cervical.initial_world
    (match fst (Cervical.for_each ["resnet"]
                  (Cervical.evaluate_model RaiseOnOneClass
                     Synthetic.initial_weights Synthetic.fl_fit
                     Synthetic.keras_predict Synthetic.check_random_state
                     Synthetic.rng_shuffle Synthetic.uninitialised (Cervical.skf_of 3)
                     Synthetic.images Synthetic.labels 3)
                  Cervical.initial_world) with
     | Ok rows => rows
     | Raise _ => []
     end)
    (snd (Cervical.for_each ["resnet"]
            (Cervical.evaluate_model RaiseOnOneClass
               Synthetic.initial_weights Synthetic.fl_fit
               Synthetic.keras_predict Synthetic.check_random_state
               Synthetic.rng_shuffle Synthetic.uninitialised (Cervical.skf_of 3)
               Synthetic.images Synthetic.labels 3)
            Cervical.initial_world))
    ltac:(lia) ltac:(vm_compute; reflexivity) ltac:(vm_compute; reflexivity)) as Hrun.
  cbn [app] in Hrun. unfold Synthetic.run. rewrite Hrun. reflexivity.
Defined.

(** Two models over three folds: six instances, all different, and the
    second fold of the second model has a block of its own. *)
Lemma fresh_model_for_each_fold_witness :
  let trace :=
    Cervical.log (snd (Synthetic.run RaiseOnOneClass Synthetic.images Synthetic.labels
                         ["bfnet"; "resnet"] 3)) in
  NoDup (Cervical.fit_ids trace)
  /\ List.length (Cervical.fit_ids trace) = 2 * 3
  /\ exists pre m train_idx test_idx post,
       trace = pre ++ Cervical.EvPrintFold 2 3 "resnet"
                   :: Cervical.EvGetModel "resnet" m
                   :: Cervical.EvFit m 2
                        (Synthetic.initial_weights (Cervical.arch m) (Cervical.obj m))
                        train_idx test_idx 5 :: post
       /\ Cervical.architecture_of "resnet" = Some (Cervical.arch m)
       /\ ~ In (Cervical.obj m) (Cervical.fit_ids pre).
Proof.
  intros trace.
  destruct (fresh_model_for_each_fold RaiseOnOneClass
              Synthetic.Image Synthetic.Weights
              Synthetic.initial_weights Synthetic.fl_fit Synthetic.keras_predict
              Synthetic.rng Synthetic.check_random_state Synthetic.rng_shuffle
              Synthetic.uninitialised Synthetic.images Synthetic.labels
              ["bfnet"; "resnet"] 3) as (_ & Hnodup & _ & Hok).
  split; [exact Hnodup|].
  refine ((fun H => conj (proj1 H) (proj2 H "resnet" 2 _ _)) (Hok _ _)).
  - right. left. reflexivity.
  - lia.
  - vm_compute. reflexivity.
Defined.

Lemma same_seed_same_folds_witness :
  split SeededGenerator.rng SeededGenerator.check_random_state SeededGenerator.rng_shuffle
    Synthetic.uninitialised (Cervical.skf_of 3) Synthetic.images Synthetic.labels
  = split SeededGenerator.rng SeededGenerator.other_seeding SeededGenerator.rng_shuffle
      SeededGenerator.garbage (Cervical.skf_of 3) Synthetic.images Synthetic.labels
  /\ (exists folds,
        split SeededGenerator.rng SeededGenerator.check_random_state
          SeededGenerator.rng_shuffle Synthetic.uninitialised (Cervical.skf_of 3)
          Synthetic.images Synthetic.labels
        = Ok folds
        /\ nth_error folds (1 - 1) = Some ([0; 2; 3; 5], [1; 4]))
  /\ [0; 2; 3; 5] = [0; 2; 3; 5] /\ [1; 4] = [1; 4].
Proof.
  pose proof (same_seed_same_folds RaiseOnOneClass NanOnOneClass
    Synthetic.Image Synthetic.Weights Synthetic.Weights
    Synthetic.initial_weights Synthetic.fl_fit Synthetic.keras_predict
    Synthetic.initial_weights Synthetic.fl_fit Synthetic.keras_predict
    SeededGenerator.rng SeededGenerator.check_random_state SeededGenerator.other_seeding
    SeededGenerator.rng_shuffle Synthetic.uninitialised SeededGenerator.garbage
    Synthetic.images Synthetic.labels
    ["resnet"] ["bfnet"; "alexnet"] 3 eq_refl) as [Hsplit Hfit].
  split; [exact Hsplit|].
  refine (Hfit
    {| Cervical.arch := Cervical.ResNet;
       Cervical.layers := Cervical.layers_of Cervical.ResNet;
       Cervical.input_shape := (224, 224, 3); Cervical.obj := 0 |}
    {| Cervical.arch := Cervical.AlexNet;
       Cervical.layers := Cervical.layers_of Cervical.AlexNet;
       Cervical.input_shape := (64, 64, 3); Cervical.obj := 3 |}
    1 0 0 [0; 2; 3; 5] [1; 4] [0; 2; 3; 5] [1; 4] 5 5 _ _).
  - vm_compute. repeat (first [left; reflexivity | right]).
  - vm_compute. repeat (first [left; reflexivity | right]).
Defined.

(* ================================================================== *)
(** * Part III: further properties of the scripts *)
(* ================================================================== *)

(** ** The metrics functions *)

Lemma count_pairs_nonneg (t p : Z) (y_true y_pred : list Z) :
  (0 <= count_pairs t p y_true y_pred)%Z.
Proof. unfold count_pairs. lia. Qed.

Lemma count_pairs_absent (t p : Z) (y_true y_pred : list Z) :
  ~ In t y_true -> count_pairs t p y_true y_pred = 0%Z.
Proof.
  unfold count_pairs. revert y_pred.
  induction y_true as [|a y_true IH]; intros [|b y_pred] Hno; try reflexivity.
  cbn [combine filter fst snd].
  destruct (a =? t)%Z eqn:E.
  - apply Z.eqb_eq in E. exfalso. apply Hno. left. exact E.
  - cbn [andb]. apply IH. intros Hin. apply Hno. right. exact Hin.
Qed.

Lemma binary_nonempty_class (c : Z) (l : list Z) :
  binary l -> l <> [] -> ~ In (1 - c)%Z l -> (c = 0 \/ c = 1)%Z -> In c l.
Proof.
  intros Hb Hne Hno Hc. destruct l as [|y l]; [contradiction|].
  left. inversion Hb as [|? ? Hy _]; subst.
  destruct Hy as [-> | ->], Hc as [-> | ->]; try reflexivity;
    exfalso; apply Hno; left; reflexivity.
Qed.

(** X1.  The metrics function of the colorectal scripts has no guard:
    when the true labels hold no positive but some prediction is
    positive, it returns normally with sensitivity NaN (numpy's 0/0);
    accuracy and specificity are both tn/(tn+fp).  Symmetrically, without
    a true negative but with a predicted one, specificity is NaN. *)
Theorem unguarded_metrics_return_nan (y_true y_pred : list Z) :
  List.length y_true = List.length y_pred ->
  binary y_true -> binary y_pred ->
  (~ In 1%Z y_true -> In 1%Z y_pred ->
   let tn := count_pairs 0 0 y_true y_pred in
   let fp := count_pairs 0 1 y_true y_pred in
   Colorectal.calculate_metrics y_true y_pred
   = Ok (Finite (inject_Z tn / inject_Z (tn + fp))%Q, NaN,
         Finite (inject_Z tn / inject_Z (tn + fp))%Q))
  /\ (~ In 0%Z y_true -> In 0%Z y_pred ->
      let fn := count_pairs 1 0 y_true y_pred in
      let tp := count_pairs 1 1 y_true y_pred in
      Colorectal.calculate_metrics y_true y_pred
      = Ok (Finite (inject_Z tp / inject_Z (tp + fn))%Q,
            Finite (inject_Z tp / inject_Z (tp + fn))%Q, NaN)).
Proof.
  intros Hlen Ht Hp.
  assert (Hne : forall c, In c y_pred -> y_true <> []).
  { intros c Hin ->. destruct y_pred; [destruct Hin | discriminate]. }
  assert (Hcm : forall c, In c y_pred -> In (1 - c)%Z y_true -> (c = 0 \/ c = 1)%Z ->
            confusion_matrix y_true y_pred
            = Ok [[count_pairs 0 0 y_true y_pred; count_pairs 0 1 y_true y_pred];
                  [count_pairs 1 0 y_true y_pred; count_pairs 1 1 y_true y_pred]]).
  { intros c Hin Hin' Hc. unfold confusion_matrix, unique_labels.
    rewrite length_eqb_refl by assumption.
    rewrite np_unique_both_classes; [reflexivity | | |].
    - apply binary_app; assumption.
    - apply in_or_app. destruct Hc as [-> | ->]; [right | left]; assumption.
    - apply in_or_app. destruct Hc as [-> | ->]; [left | right]; assumption. }
  split.
  - intros Hno Hin tn fp.
    assert (H0 : In 0%Z y_true).
    { apply binary_nonempty_class; [assumption | eapply Hne; eassumption | exact Hno | auto]. }
    pose proof (true_class_positive 0 y_true y_pred Hlen Ht Hp H0) as Hneg.
    unfold Colorectal.calculate_metrics.
    rewrite (Hcm 1%Z) by auto.
    cbn [bindR ravel List.concat app unpack4].
    rewrite !(count_pairs_absent 1) by exact Hno.
    fold tn fp in Hneg |- *.
    rewrite Z.add_0_l, Z.add_0_r.
    rewrite !np_true_divide_finite by lia.
    reflexivity.
  - intros Hno Hin fn tp.
    assert (H1 : In 1%Z y_true).
    { apply binary_nonempty_class; [assumption | eapply Hne; eassumption | exact Hno | auto]. }
    pose proof (true_class_positive 1 y_true y_pred Hlen Ht Hp H1) as Hpos.
    unfold Colorectal.calculate_metrics.
    rewrite (Hcm 0%Z) by auto.
    cbn [bindR ravel List.concat app unpack4].
    rewrite !(count_pairs_absent 0) by exact Hno.
    fold fn tp in Hpos |- *.
    rewrite Z.add_0_r.
    replace (tp + 0 + fn)%Z with (tp + fn)%Z by lia.
    rewrite !np_true_divide_finite by lia.
    reflexivity.
Qed.

Lemma unguarded_metrics_return_nan_witness :
  Colorectal.calculate_metrics [0; 0; 0]%Z [0; 1; 0]%Z
  = Ok (Finite (inject_Z 2 / inject_Z 3)%Q, NaN, Finite (inject_Z 2 / inject_Z 3)%Q).
Proof.
  refine (proj1 (unguarded_metrics_return_nan [0; 0; 0]%Z [0; 1; 0]%Z eq_refl _ _) _ _).
  - repeat (apply Forall_cons; [lia|]); apply Forall_nil.
  - repeat (apply Forall_cons; [lia|]); apply Forall_nil.
  - simpl. lia.
  - simpl. lia.
Defined.

(** *** Ranges *)

Lemma inject_Z_pos (b : Z) : (0 < b)%Z -> (0 < inject_Z b)%Q.
Proof. intros Hb. unfold Qlt. simpl. lia. Qed.

Lemma ratio_in_unit_interval (a b : Z) :
  (0 <= a)%Z -> (a <= b)%Z -> (0 < b)%Z -> in_unit_interval (np_true_divide a b).
Proof.
  intros Ha Hab Hb. rewrite np_true_divide_finite by exact Hb.
  eexists. split; [reflexivity|].
  pose proof (inject_Z_pos b Hb) as Hq.
  split.
  - apply Qle_shift_div_l; [exact Hq|]. rewrite Qmult_0_l.
    change (inject_Z 0 <= inject_Z a)%Q. rewrite <- Zle_Qle. exact Ha.
  - apply Qle_shift_div_r; [exact Hq|]. rewrite Qmult_1_l.
    rewrite <- Zle_Qle. exact Hab.
Qed.

Lemma zero_in_unit_interval : in_unit_interval (Finite 0).
Proof. exists 0%Q. split; [reflexivity|]. split; lra. Qed.

(** The entries of a 2x2 confusion matrix are counts. *)
Lemma confusion_matrix_entries (y_true y_pred : list Z) (tn fp fn tp : Z) :
  confusion_matrix y_true y_pred = Ok [[tn; fp]; [fn; tp]] ->
  (0 <= tn /\ 0 <= fp /\ 0 <= fn /\ 0 <= tp)%Z.
Proof.
  unfold confusion_matrix. destruct (negb _); [discriminate|].
  destruct (unique_labels y_true y_pred) as [|l0 [|l1 [|l2 ls]]]; cbn [map];
    intros H; inversion H; subst.
  repeat split; apply count_pairs_nonneg.
Qed.

Lemma count_agree_bounds (y_true y_pred : list Z) :
  List.length y_true = List.length y_pred ->
  (0 <= count_agree y_true y_pred <= Z.of_nat (List.length y_true))%Z.
Proof.
  intros Hlen. unfold count_agree.
  pose proof (filter_length_le (fun tp : Z * Z => (fst tp =? snd tp)%Z)
                (combine y_true y_pred)) as Hle.
  rewrite length_combine, <- Hlen, Nat.min_id in Hle. lia.
Qed.

Lemma rank_credit_bounds (s_pos s_neg : Q) :
  (0 <= rank_credit s_pos s_neg)%Q /\ (rank_credit s_pos s_neg <= 1)%Q.
Proof.
  unfold rank_credit. destruct (Qgt_bool s_pos s_neg); [split; lra|].
  destruct (Qeq_bool s_pos s_neg); split; lra.
Qed.

Lemma Qsum_cons (q : Q) (l : list Q) : Qsum (q :: l) = (q + Qsum l)%Q.
Proof. reflexivity. Qed.

Lemma Qsum_bounds (A : Type) (f : A -> Q) (c : Q) (l : list A) :
  (forall a, In a l -> (0 <= f a)%Q /\ (f a <= c)%Q) ->
  (0 <= Qsum (map f l))%Q
  /\ (Qsum (map f l) <= inject_Z (Z.of_nat (List.length l)) * c)%Q.
Proof.
  induction l as [|a l IH]; intros Hall.
  - change (Qsum (map f [])) with 0%Q.
    change (inject_Z (Z.of_nat (List.length (@nil A)))) with 0%Q. split; lra.
  - destruct (Hall a (or_introl eq_refl)) as [H0 Hc].
    destruct IH as [IH0 IHc]; [intros b Hb; apply Hall; right; exact Hb|].
    cbn [map List.length]. rewrite Qsum_cons.
    rewrite Nat2Z.inj_succ, <- Z.add_1_r, inject_Z_plus.
    change (inject_Z 1) with 1%Q.
    split; [lra|]. 
    setoid_replace ((inject_Z (Z.of_nat (List.length l)) + 1) * c)%Q
      with (inject_Z (Z.of_nat (List.length l)) * c + c)%Q by ring.
    lra.
Qed.

Lemma quotient_in_unit_interval (c : Q) (n : nat) :
  (0 <= c)%Q -> (c <= inject_Z (Z.of_nat n))%Q ->
  (0 <= c / inject_Z (Z.of_nat n))%Q /\ (c / inject_Z (Z.of_nat n) <= 1)%Q.
Proof.
  intros H0 Hn. destruct n as [|n].
  - change (inject_Z (Z.of_nat 0)) with 0%Q in *.
    assert (Hc : (c / 0 == 0)%Q) by (unfold Qdiv; change (/ 0)%Q with 0%Q; ring).
    rewrite Hc. split; lra.
  - assert (Hq : (0 < inject_Z (Z.of_nat (S n)))%Q) by (apply inject_Z_pos; lia).
    split.
    + apply Qle_shift_div_l; [exact Hq | lra].
    + apply Qle_shift_div_r; [exact Hq | lra].
Qed.

Lemma roc_auc_score_range (one_class : one_class_policy) (y_true : list Z)
  (y_score : list Q) (auc : np_float) :
  roc_auc_score one_class y_true y_score = Ok auc ->
  in_unit_interval auc \/ auc = NaN.
Proof.
  unfold roc_auc_score. destruct (negb _); [discriminate|].
  destruct (np_unique y_true) as [|neg [|pos [|? ?]]]; try discriminate.
  - destruct one_class; [discriminate|]. intros H; inversion H. right; reflexivity.
  - intros H; inversion H; subst. left. eexists. split; [reflexivity|].
    set (sp := scores_of pos y_true y_score).
    set (sn := scores_of neg y_true y_score).
    destruct (Qsum_bounds Q (fun p => Qsum (map (rank_credit p) sn))
                (inject_Z (Z.of_nat (List.length sn))) sp) as [H0 Hc].
    { intros p _.
      destruct (Qsum_bounds Q (rank_credit p) 1%Q sn) as [Hi0 Hic];
        [intros s _; apply rank_credit_bounds|].
      split; [exact Hi0 | lra]. }
    apply quotient_in_unit_interval; [exact H0|].
    rewrite Nat2Z.inj_mul, inject_Z_mult. exact Hc.
Qed.

Lemma calculate_metrics_range (one_class : one_class_policy)
  (y_true : list Z) (y_pred_prob : list (Q * Q)) (threshold : Q)
  (accuracy sensitivity specificity roc_auc : np_float) :
  Cervical.calculate_metrics one_class y_true y_pred_prob threshold
  = Ok (accuracy, sensitivity, specificity, roc_auc) ->
  in_unit_interval accuracy /\ in_unit_interval sensitivity
  /\ in_unit_interval specificity
  /\ (in_unit_interval roc_auc \/ roc_auc = NaN).
Proof.
  unfold Cervical.calculate_metrics.
  set (y_pred := binarize (column1 y_pred_prob) threshold).
  destruct (confusion_matrix y_true y_pred) as [cm|e] eqn:Hcm; cbn [bindR]; [|discriminate].
  destruct (unpack4 (ravel cm)) as [[[[tn fp] fn] tp]|e] eqn:Hun; cbn [bindR];
    [|discriminate].
  destruct (accuracy_score y_true y_pred) as [acc|e] eqn:Hacc; cbn [bindR]; [|discriminate].
  destruct (roc_auc_score one_class y_true (column1 y_pred_prob)) as [auc|e] eqn:Hauc;
    cbn [bindR]; [|discriminate].
  intros Heq. inversion Heq; subst. clear Heq.
  pose proof (confusion_matrix_unpacked _ _ _ _ _ _ _ Hcm Hun) as Hshape. subst cm.
  destruct (confusion_matrix_entries _ _ _ _ _ _ Hcm) as (Htn & Hfp & Hfn & Htp).
  split; [|split; [|split]].
  - unfold accuracy_score in Hacc.
    destruct (negb (List.length y_true =? List.length y_pred)) eqn:Hlen; [discriminate|].
    apply negb_false_iff, Nat.eqb_eq in Hlen.
    inversion Hacc; subst.
    pose proof (count_agree_bounds y_true y_pred Hlen) as Hb.
    apply ratio_in_unit_interval; try lia.
    destruct y_true as [|y0 y_true]; [|simpl; lia].
    exfalso. destruct y_pred; [|discriminate].
    vm_compute in Hcm. discriminate.
  - destruct (0 <? tp + fn)%Z eqn:E; [|apply zero_in_unit_interval].
    apply Z.ltb_lt in E. apply ratio_in_unit_interval; lia.
  - destruct (0 <? tn + fp)%Z eqn:E; [|apply zero_in_unit_interval].
    apply Z.ltb_lt in E. apply ratio_in_unit_interval; lia.
  - eapply roc_auc_score_range. exact Hauc.
Qed.

Lemma label_metrics_range (y_true y_pred : list Z)
  (accuracy sensitivity specificity : np_float) :
  Colorectal.calculate_metrics y_true y_pred = Ok (accuracy, sensitivity, specificity) ->
  (in_unit_interval accuracy \/ accuracy = NaN)
  /\ (in_unit_interval sensitivity \/ sensitivity = NaN)
  /\ (in_unit_interval specificity \/ specificity = NaN).
Proof.
  assert (Hdiv : forall a b, (0 <= a)%Z -> (a <= b)%Z ->
            in_unit_interval (np_true_divide a b) \/ np_true_divide a b = NaN).
  { intros a b Ha Hab. destruct (Z.eq_dec b 0) as [-> | Hb].
    - right. assert (a = 0%Z) by lia. subst. reflexivity.
    - left. apply ratio_in_unit_interval; lia. }
  unfold Colorectal.calculate_metrics.
  destruct (confusion_matrix y_true y_pred) as [cm|e] eqn:Hcm; cbn [bindR]; [|discriminate].
  destruct (unpack4 (ravel cm)) as [[[[tn fp] fn] tp]|e] eqn:Hun; cbn [bindR];
    [|discriminate].
  intros Heq. inversion Heq; subst. clear Heq.
  pose proof (confusion_matrix_unpacked _ _ _ _ _ _ _ Hcm Hun) as Hshape. subst cm.
  destruct (confusion_matrix_entries _ _ _ _ _ _ Hcm) as (Htn & Hfp & Hfn & Htp).
  repeat split; apply Hdiv; lia.
Qed.

(** X2.  Whenever the thresholded [calculate_metrics] returns, accuracy,
    sensitivity and specificity are numbers between 0 and 1, and ROC-AUC
    is a number between 0 and 1 or NaN; the label-based variant returns
    numbers between 0 and 1 or NaN, never an infinity. *)
Theorem metrics_lie_in_unit_interval :
  (forall one_class y_true y_pred_prob threshold accuracy sensitivity specificity roc_auc,
      Cervical.calculate_metrics one_class y_true y_pred_prob threshold
      = Ok (accuracy, sensitivity, specificity, roc_auc) ->
      in_unit_interval accuracy /\ in_unit_interval sensitivity
      /\ in_unit_interval specificity
      /\ (in_unit_interval roc_auc \/ roc_auc = NaN))
  /\ (forall y_true y_pred accuracy sensitivity specificity,
        Colorectal.calculate_metrics y_true y_pred
        = Ok (accuracy, sensitivity, specificity) ->
        (in_unit_interval accuracy \/ accuracy = NaN)
        /\ (in_unit_interval sensitivity \/ sensitivity = NaN)
        /\ (in_unit_interval specificity \/ specificity = NaN)).
Proof.
  split.
  - intros until roc_auc. apply calculate_metrics_range.
  - intros until specificity. apply label_metrics_range.
Qed.

Lemma metrics_lie_in_unit_interval_witness :
  in_unit_interval (Finite (1 # 2)) /\ in_unit_interval (Finite 0)
  /\ in_unit_interval (Finite 1)
  /\ (in_unit_interval (Finite 1) \/ Finite 1 = NaN).
Proof.
  exact (proj1 metrics_lie_in_unit_interval NanOnOneClass
           [0; 1]%Z [(9 # 10, 1 # 10); (8 # 10, 2 # 10)]%Q (1 # 2)%Q
           (Finite (1 # 2)) (Finite 0) (Finite 1) (Finite 1) eq_refl).
Defined.

(** *** The guards are the only difference between the two variants *)

Lemma np_unique_binary_pair (l : list Z) (a b : Z) :
  binary l -> np_unique l = [a; b] -> a = 0%Z /\ b = 1%Z.
Proof.
  intros Hb Heq.
  pose proof (np_unique_sorted l) as Hs. rewrite Heq in Hs.
  assert (Hin : forall z, In z [a; b] -> z = 0%Z \/ z = 1%Z).
  { intros z Hz. rewrite <- Heq in Hz. apply (proj1 (np_unique_In z l)) in Hz.
    unfold binary in Hb. rewrite Forall_forall in Hb. apply Hb. exact Hz. }
  inversion Hs as [|? ? _ Hlt]; subst. inversion Hlt as [|? ? Hab _]; subst.
  destruct (Hin a (or_introl eq_refl)), (Hin b (or_intror (or_introl eq_refl))); lia.
Qed.

Lemma confusion_matrix_binary (y_true y_pred : list Z) (tn fp fn tp : Z) :
  binary y_true -> binary y_pred ->
  confusion_matrix y_true y_pred = Ok [[tn; fp]; [fn; tp]] ->
  List.length y_true = List.length y_pred
  /\ tn = count_pairs 0 0 y_true y_pred /\ fp = count_pairs 0 1 y_true y_pred
  /\ fn = count_pairs 1 0 y_true y_pred /\ tp = count_pairs 1 1 y_true y_pred.
Proof.
  intros Ht Hp. unfold confusion_matrix.
  destruct (negb _) eqn:Hlen; [discriminate|].
  apply negb_false_iff, Nat.eqb_eq in Hlen.
  unfold unique_labels.
  destruct (np_unique (y_true ++ y_pred)) as [|l0 [|l1 [|l2 ls]]] eqn:Hu; cbn [map];
    intros H; inversion H; subst.
  destruct (np_unique_binary_pair _ _ _ (binary_app _ _ Ht Hp) Hu) as [-> ->].
  repeat split; assumption.
Qed.

(** X3.  On labels in {0, 1}, whenever the thresholded
    [calculate_metrics] returns, the label-based one, given the
    thresholded predictions, returns too, with the same accuracy, and
    with the same sensitivity and specificity except where it divides 0
    by 0: there it yields NaN where the guarded variant yields 0, which
    happens exactly when the class is absent from the true labels. *)
Theorem guards_only_replace_nan (one_class : one_class_policy)
  (y_true : list Z) (y_pred_prob : list (Q * Q)) (threshold : Q)
  (accuracy sensitivity specificity roc_auc : np_float) :
  binary y_true ->
  Cervical.calculate_metrics one_class y_true y_pred_prob threshold
  = Ok (accuracy, sensitivity, specificity, roc_auc) ->
  exists sensitivity' specificity',
    Colorectal.calculate_metrics y_true (binarize (column1 y_pred_prob) threshold)
    = Ok (accuracy, sensitivity', specificity')
    /\ (In 1%Z y_true /\ sensitivity' = sensitivity
        \/ ~ In 1%Z y_true /\ sensitivity' = NaN /\ sensitivity = Finite 0)
    /\ (In 0%Z y_true /\ specificity' = specificity
        \/ ~ In 0%Z y_true /\ specificity' = NaN /\ specificity = Finite 0).
Proof.
  intros Ht. unfold Cervical.calculate_metrics, Colorectal.calculate_metrics.
  set (y_pred := binarize (column1 y_pred_prob) threshold).
  assert (Hp : binary y_pred) by apply binarize_binary.
  destruct (confusion_matrix y_true y_pred) as [cm|e] eqn:Hcm; cbn [bindR]; [|discriminate].
  destruct (unpack4 (ravel cm)) as [[[[tn fp] fn] tp]|e] eqn:Hun; cbn [bindR];
    [|discriminate].
  destruct (accuracy_score y_true y_pred) as [acc|e] eqn:Hacc; cbn [bindR]; [|discriminate].
  destruct (roc_auc_score one_class y_true (column1 y_pred_prob)) as [auc|e];
    cbn [bindR]; [|discriminate].
  intros Heq. inversion Heq; subst. clear Heq.
  pose proof (confusion_matrix_unpacked _ _ _ _ _ _ _ Hcm Hun) as Hshape. subst cm.
  destruct (confusion_matrix_binary _ _ _ _ _ _ Ht Hp Hcm) as (Hlen & Etn & Efp & Efn & Etp).
  assert (Hclass : forall c, (c = 0 \/ c = 1)%Z ->
            (In c y_true /\ (0 < count_pairs c 0 y_true y_pred
                                 + count_pairs c 1 y_true y_pred)%Z)
            \/ (~ In c y_true /\ count_pairs c 0 y_true y_pred = 0%Z
                /\ count_pairs c 1 y_true y_pred = 0%Z)).
  { intros c Hc. destruct (in_dec Z.eq_dec c y_true) as [Hin | Hno].
    - left. split; [exact Hin|]. apply true_class_positive; assumption.
    - right. split; [exact Hno|]. split; apply count_pairs_absent; exact Hno. }
  eexists _, _. split; [|split].
  - f_equal. f_equal. f_equal.
    unfold accuracy_score in Hacc. rewrite length_eqb_refl in Hacc by exact Hlen.
    inversion Hacc; subst.
    rewrite (agree_count y_true y_pred Ht Hp), (total_count y_true y_pred Hlen Ht Hp).
    reflexivity.
  - destruct (Hclass 1%Z) as [[Hin Hpos] | (Hno & E0 & E1)]; [auto | |].
    + left. split; [exact Hin|].
      replace (0 <? tp + fn)%Z with true; [reflexivity|].
      symmetry. apply Z.ltb_lt. lia.
    + right. split; [exact Hno|]. rewrite Etp, Efn, E0, E1. split; reflexivity.
  - destruct (Hclass 0%Z) as [[Hin Hpos] | (Hno & E0 & E1)]; [auto | |].
    + left. split; [exact Hin|].
      replace (0 <? tn + fp)%Z with true; [reflexivity|].
      symmetry. apply Z.ltb_lt. lia.
    + right. split; [exact Hno|]. rewrite Etn, Efp, E0, E1. split; reflexivity.
Qed.

Lemma guards_only_replace_nan_witness :
  exists sensitivity' specificity',
    Colorectal.calculate_metrics [0; 0]%Z
      (binarize (column1 [(9 # 10, 1 # 10); (2 # 10, 8 # 10)]%Q) (1 # 2)%Q)
    = Ok (Finite (1 # 2), sensitivity', specificity')
    /\ (In 1%Z [0; 0]%Z /\ sensitivity' = Finite 0
        \/ ~ In 1%Z [0; 0]%Z /\ sensitivity' = NaN /\ Finite 0 = Finite 0)
    /\ (In 0%Z [0; 0]%Z /\ specificity' = Finite (1 # 2)
        \/ ~ In 0%Z [0; 0]%Z /\ specificity' = NaN /\ Finite (1 # 2) = Finite 0).
Proof.
  refine (guards_only_replace_nan NanOnOneClass [0; 0]%Z
            [(9 # 10, 1 # 10); (2 # 10, 8 # 10)]%Q (1 # 2)%Q
            (Finite (1 # 2)) (Finite 0) (Finite (1 # 2)) NaN _ eq_refl).
  repeat (apply Forall_cons; [lia|]); apply Forall_nil.
Defined.

(** *** The order of the samples *)

Lemma filter_Permutation (A : Type) (f : A -> bool) (l l' : list A) :
  Permutation l l' -> Permutation (filter f l) (filter f l').
Proof.
  induction 1 as [|x l l' _ IH|x y l|l l' l'' _ IH1 _ IH2]; cbn [filter].
  - apply perm_nil.
  - destruct (f x); [apply perm_skip|]; exact IH.
  - destruct (f x), (f y); try apply Permutation_refl. apply perm_swap.
  - eapply perm_trans; eassumption.
Qed.

Lemma combine_map_map (A B C : Type) (f : A -> B) (g : A -> C) (l : list A) :
  combine (map f l) (map g l) = map (fun a => (f a, g a)) l.
Proof. induction l as [|a l IH]; [reflexivity|]. cbn. rewrite IH. reflexivity. Qed.

Lemma np_unique_Permutation (l l' : list Z) :
  Permutation l l' -> np_unique l = np_unique l'.
Proof.
  intros Hperm. apply sorted_members_unique; try apply np_unique_sorted.
  intros z. rewrite !np_unique_In. split; intros Hin.
  - eapply Permutation_in; eassumption.
  - eapply Permutation_in; [apply Permutation_sym|]; eassumption.
Qed.

Lemma Qplus_comm_eq (a b : Q) : (a + b)%Q = (b + a)%Q.
Proof.
  destruct a as [a1 a2], b as [b1 b2]. unfold Qplus. cbn [Qnum Qden].
  f_equal; [ring | apply Pos.mul_comm].
Qed.

Lemma Qplus_assoc_eq (a b c : Q) : (a + (b + c))%Q = (a + b + c)%Q.
Proof.
  destruct a as [a1 a2], b as [b1 b2], c as [c1 c2]. unfold Qplus. cbn [Qnum Qden].
  f_equal; [rewrite !Pos2Z.inj_mul; ring | apply Pos.mul_assoc].
Qed.

(** The sum of a list of rationals does not depend on their order, not
    even in its representation. *)
Lemma Qsum_Permutation (l l' : list Q) : Permutation l l' -> Qsum l = Qsum l'.
Proof.
  induction 1 as [|x l l' _ IH|x y l|l l' l'' _ IH1 _ IH2].
  - reflexivity.
  - rewrite !Qsum_cons, IH. reflexivity.
  - rewrite !Qsum_cons, !Qplus_assoc_eq, (Qplus_comm_eq y x). reflexivity.
  - congruence.
Qed.

Lemma count_pairs_Permutation (A : Type) (f g : A -> Z) (t p : Z) (l l' : list A) :
  Permutation l l' ->
  count_pairs t p (map f l) (map g l) = count_pairs t p (map f l') (map g l').
Proof.
  intros Hperm. unfold count_pairs. rewrite !combine_map_map. f_equal.
  apply Permutation_length, filter_Permutation, Permutation_map. exact Hperm.
Qed.

Lemma confusion_matrix_Permutation (A : Type) (f g : A -> Z) (l l' : list A) :
  Permutation l l' ->
  confusion_matrix (map f l) (map g l) = confusion_matrix (map f l') (map g l').
Proof.
  intros Hperm. unfold confusion_matrix, unique_labels.
  rewrite !length_map, !Nat.eqb_refl. cbn [negb].
  rewrite (np_unique_Permutation (map f l ++ map g l) (map f l' ++ map g l'))
    by (apply Permutation_app; apply Permutation_map; exact Hperm).
  f_equal. apply map_ext. intros t. apply map_ext. intros p.
  apply count_pairs_Permutation. exact Hperm.
Qed.

Lemma accuracy_score_Permutation (A : Type) (f g : A -> Z) (l l' : list A) :
  Permutation l l' ->
  accuracy_score (map f l) (map g l) = accuracy_score (map f l') (map g l').
Proof.
  intros Hperm. unfold accuracy_score, count_agree.
  rewrite !length_map, !Nat.eqb_refl. cbn [negb].
  rewrite !combine_map_map, (Permutation_length Hperm).
  do 3 f_equal.
  apply Permutation_length, filter_Permutation, Permutation_map. exact Hperm.
Qed.

Lemma scores_of_Permutation (A : Type) (f : A -> Z) (g : A -> Q) (c : Z) (l l' : list A) :
  Permutation l l' ->
  Permutation (scores_of c (map f l) (map g l)) (scores_of c (map f l') (map g l')).
Proof.
  intros Hperm. unfold scores_of. rewrite !combine_map_map.
  apply Permutation_map, filter_Permutation, Permutation_map. exact Hperm.
Qed.

Lemma roc_auc_score_Permutation (one_class : one_class_policy) (A : Type)
  (f : A -> Z) (g : A -> Q) (l l' : list A) :
  Permutation l l' ->
  roc_auc_score one_class (map f l) (map g l) = roc_auc_score one_class (map f l') (map g l').
Proof.
  intros Hperm. unfold roc_auc_score.
  rewrite !length_map, !Nat.eqb_refl. cbn [negb].
  rewrite (np_unique_Permutation (map f l) (map f l'))
    by (apply Permutation_map; exact Hperm).
  destruct (np_unique (map f l')) as [|neg [|pos [|? ?]]]; try reflexivity.
  pose proof (scores_of_Permutation A f g pos l l' Hperm) as Hsp.
  pose proof (scores_of_Permutation A f g neg l l' Hperm) as Hsn.
  cbv zeta. do 2 f_equal. f_equal.
  - rewrite (Qsum_Permutation _ _
               (Permutation_map (fun p => Qsum (map (rank_credit p)
                                   (scores_of neg (map f l) (map g l)))) Hsp)).
    f_equal. apply map_ext. intros p.
    apply Qsum_Permutation, Permutation_map. exact Hsn.
  - rewrite (Permutation_length Hsp), (Permutation_length Hsn). reflexivity.
Qed.

(** X4.  The metrics do not depend on the order of the samples:
    permuting the (true label, probability row) pairs leaves the result
    of the thresholded [calculate_metrics] unchanged, errors included,
    and permuting the (true label, predicted label) pairs leaves the
    result of the label-based one unchanged. *)
Theorem metrics_ignore_sample_order :
  (forall one_class (samples samples' : list (Z * (Q * Q))) threshold,
      Permutation samples samples' ->
      Cervical.calculate_metrics one_class (map fst samples) (map snd samples) threshold
      = Cervical.calculate_metrics one_class (map fst samples') (map snd samples') threshold)
  /\ (forall samples samples' : list (Z * Z),
        Permutation samples samples' ->
        Colorectal.calculate_metrics (map fst samples) (map snd samples)
        = Colorectal.calculate_metrics (map fst samples') (map snd samples')).
Proof.
  split.
  - intros one_class samples samples' threshold Hperm.
    unfold Cervical.calculate_metrics, binarize, column1. rewrite !map_map.
    rewrite (confusion_matrix_Permutation _ fst
               (fun x => gt_threshold threshold (snd (snd x))) _ _ Hperm).
    rewrite (accuracy_score_Permutation _ fst
               (fun x => gt_threshold threshold (snd (snd x))) _ _ Hperm).
    rewrite (roc_auc_score_Permutation one_class _ fst
               (fun x => snd (snd x)) _ _ Hperm).
    reflexivity.
  - intros samples samples' Hperm. unfold Colorectal.calculate_metrics.
    rewrite (confusion_matrix_Permutation _ fst snd _ _ Hperm). reflexivity.
Qed.

Lemma metrics_ignore_sample_order_witness :
  Cervical.calculate_metrics NanOnOneClass
    [0; 1; 1]%Z [(9 # 10, 1 # 10); (2 # 10, 8 # 10); (6 # 10, 4 # 10)]%Q (1 # 2)%Q
  = Cervical.calculate_metrics NanOnOneClass
      [1; 0; 1]%Z [(2 # 10, 8 # 10); (9 # 10, 1 # 10); (6 # 10, 4 # 10)]%Q (1 # 2)%Q.
Proof.
  apply (proj1 metrics_ignore_sample_order NanOnOneClass
           [(0%Z, (9 # 10, 1 # 10)%Q); (1%Z, (2 # 10, 8 # 10)%Q); (1%Z, (6 # 10, 4 # 10)%Q)]
           [(1%Z, (2 # 10, 8 # 10)%Q); (0%Z, (9 # 10, 1 # 10)%Q); (1%Z, (6 # 10, 4 # 10)%Q)]
           (1 # 2)%Q).
  apply perm_swap.
Defined.

(** *** Moving the threshold *)

Lemma gt_threshold_antitone (t1 t2 p : Q) :
  (t1 <= t2)%Q -> (gt_threshold t2 p <= gt_threshold t1 p)%Z.
Proof.
  intros Hle. unfold gt_threshold.
  destruct (Qgt_bool p t2) eqn:E2, (Qgt_bool p t1) eqn:E1; try lia.
  apply Qgt_bool_true in E2. apply Qgt_bool_false in E1. lra.
Qed.

Lemma count_pairs_threshold (c : Z) (t1 t2 : Q) (y_true : list Z) (col : list Q) :
  (t1 <= t2)%Q ->
  (count_pairs c 1 y_true (binarize col t2) <= count_pairs c 1 y_true (binarize col t1)
   /\ count_pairs c 0 y_true (binarize col t1) <= count_pairs c 0 y_true (binarize col t2))%Z.
Proof.
  intros Hle. change count_pairs with (fun t p yt yp => pair_count (is_pair t p) (combine yt yp)).
  cbv beta. revert col.
  induction y_true as [|y y_true IH]; intros [|p col]; cbn [binarize map combine];
    try (split; lia).
  rewrite !pair_count_cons. fold (binarize col t1) (binarize col t2).
  destruct (IH col) as [IH1 IH0]. unfold is_pair in IH1, IH0.
  pose proof (gt_threshold_antitone t1 t2 p Hle) as Hmono.
  destruct (gt_threshold_binary t1 p) as [E1 | E1], (gt_threshold_binary t2 p) as [E2 | E2];
    rewrite E1, E2 in Hmono |- *; try (exfalso; lia);
    eval_label_tests; destruct (y =? c)%Z; cbn [andb]; split; lia.
Qed.

Lemma class_size_from_labels (c : Z) (y_true y_pred y_pred' : list Z) :
  List.length y_true = List.length y_pred -> List.length y_true = List.length y_pred' ->
  binary y_true -> binary y_pred -> binary y_pred' ->
  (count_pairs c 0 y_true y_pred + count_pairs c 1 y_true y_pred
   = count_pairs c 0 y_true y_pred' + count_pairs c 1 y_true y_pred')%Z.
Proof.
  intros Hlen Hlen' Ht Hp Hp'.
  rewrite !count_pairs_is_pair.
  rewrite !pair_count_true_class by (apply combine_binary; assumption).
  unfold pair_count. f_equal. clear Ht Hp Hp'. revert y_pred y_pred' Hlen Hlen'.
  induction y_true as [|y y_true IH]; intros [|p y_pred] [|p' y_pred'] Hlen Hlen';
    try discriminate; [reflexivity|].
  cbn [combine filter fst]. injection Hlen as Hlen. injection Hlen' as Hlen'.
  destruct (y =? c)%Z; cbn [List.length]; rewrite (IH y_pred y_pred') by assumption;
    reflexivity.
Qed.

Lemma ratio_monotone (a b d : Z) :
  (a <= b)%Z -> (0 < d)%Z -> (inject_Z a / inject_Z d <= inject_Z b / inject_Z d)%Q.
Proof.
  intros Hab Hd. pose proof (inject_Z_pos d Hd) as Hq.
  apply Qle_shift_div_l; [exact Hq|].
  setoid_replace (inject_Z a / inject_Z d * inject_Z d)%Q with (inject_Z a)
    by (field; lra).
  rewrite <- Zle_Qle. exact Hab.
Qed.

Lemma calculate_metrics_roc_auc (one_class : one_class_policy)
  (y_true : list Z) (y_pred_prob : list (Q * Q)) (threshold : Q)
  (accuracy sensitivity specificity roc_auc : np_float) :
  Cervical.calculate_metrics one_class y_true y_pred_prob threshold
  = Ok (accuracy, sensitivity, specificity, roc_auc) ->
  roc_auc_score one_class y_true (column1 y_pred_prob) = Ok roc_auc.
Proof.
  unfold Cervical.calculate_metrics.
  destruct (confusion_matrix _ _) as [cm|e]; cbn [bindR]; [|discriminate].
  destruct (unpack4 (ravel cm)) as [[[[tn fp] fn] tp]|e]; cbn [bindR]; [|discriminate].
  destruct (accuracy_score _ _) as [acc|e]; cbn [bindR]; [|discriminate].
  destruct (roc_auc_score one_class y_true (column1 y_pred_prob)) as [auc|e];
    cbn [bindR]; [|discriminate].
  intros Heq. inversion Heq. reflexivity.
Qed.

(** X5.  On a fold with both classes, raising the threshold can only
    lower the sensitivity and raise the specificity, and it leaves
    ROC-AUC unchanged. *)
Theorem raising_threshold_trades_sensitivity (one_class : one_class_policy)
  (y_true : list Z) (y_pred_prob : list (Q * Q)) (t1 t2 : Q) :
  List.length y_true = List.length y_pred_prob ->
  binary y_true -> In 0%Z y_true -> In 1%Z y_true ->
  (t1 <= t2)%Q ->
  exists a1 s1 p1 a2 s2 p2 roc_auc,
    Cervical.calculate_metrics one_class y_true y_pred_prob t1
    = Ok (a1, Finite s1, Finite p1, roc_auc)
    /\ Cervical.calculate_metrics one_class y_true y_pred_prob t2
       = Ok (a2, Finite s2, Finite p2, roc_auc)
    /\ (s2 <= s1)%Q /\ (p1 <= p2)%Q.
Proof.
  intros Hlen Ht H0 H1 Hle.
  destruct (calculate_metrics_two_classes one_class y_true y_pred_prob t1 Hlen Ht H0 H1)
    as [r1 E1].
  destruct (calculate_metrics_two_classes one_class y_true y_pred_prob t2 Hlen Ht H0 H1)
    as [r2 E2].
  pose proof (calculate_metrics_roc_auc _ _ _ _ _ _ _ _ E1) as A1.
  pose proof (calculate_metrics_roc_auc _ _ _ _ _ _ _ _ E2) as A2.
  rewrite A1 in A2. inversion A2; subst r2. clear A1 A2.
  set (y1 := binarize (column1 y_pred_prob) t1) in *.
  set (y2 := binarize (column1 y_pred_prob) t2) in *.
  assert (Hl1 : List.length y_true = List.length y1)
    by (unfold y1, column1; rewrite binarize_length, length_map; exact Hlen).
  assert (Hl2 : List.length y_true = List.length y2)
    by (unfold y2, column1; rewrite binarize_length, length_map; exact Hlen).
  assert (Hb1 : binary y1) by apply binarize_binary.
  assert (Hb2 : binary y2) by apply binarize_binary.
  pose proof (true_class_positive 1 y_true y1 Hl1 Ht Hb1 H1) as Hpos.
  pose proof (true_class_positive 0 y_true y1 Hl1 Ht Hb1 H0) as Hneg.
  pose proof (class_size_from_labels 1 y_true y1 y2 Hl1 Hl2 Ht Hb1 Hb2) as Esz1.
  pose proof (class_size_from_labels 0 y_true y1 y2 Hl1 Hl2 Ht Hb1 Hb2) as Esz0.
  destruct (count_pairs_threshold 1 t1 t2 y_true (column1 y_pred_prob) Hle) as [Htp _].
  destruct (count_pairs_threshold 0 t1 t2 y_true (column1 y_pred_prob) Hle) as [_ Htn].
  fold y1 y2 in Htp, Htn.
  do 7 eexists. split; [exact E1|]. split; [exact E2|]. split.
  - replace (count_pairs 1 1 y_true y2 + count_pairs 1 0 y_true y2)%Z
      with (count_pairs 1 1 y_true y1 + count_pairs 1 0 y_true y1)%Z by lia.
    apply ratio_monotone; lia.
  - replace (count_pairs 0 0 y_true y2 + count_pairs 0 1 y_true y2)%Z
      with (count_pairs 0 0 y_true y1 + count_pairs 0 1 y_true y1)%Z by lia.
    apply ratio_monotone; lia.
Qed.

Lemma raising_threshold_trades_sensitivity_witness :
  exists a1 s1 p1 a2 s2 p2 roc_auc,
    Cervical.calculate_metrics NanOnOneClass [0; 1; 1]%Z
      [(7 # 10, 3 # 10); (2 # 10, 8 # 10); (6 # 10, 4 # 10)]%Q (2 # 10)%Q
    = Ok (a1, Finite s1, Finite p1, roc_auc)
    /\ Cervical.calculate_metrics NanOnOneClass [0; 1; 1]%Z
         [(7 # 10, 3 # 10); (2 # 10, 8 # 10); (6 # 10, 4 # 10)]%Q (1 # 2)%Q
       = Ok (a2, Finite s2, Finite p2, roc_auc)
    /\ (s2 <= s1)%Q /\ (p1 <= p2)%Q.
Proof.
  apply (raising_threshold_trades_sensitivity NanOnOneClass [0; 1; 1]%Z
           [(7 # 10, 3 # 10); (2 # 10, 8 # 10); (6 # 10, 4 # 10)]%Q (2 # 10)%Q (1 # 2)%Q).
  - reflexivity.
  - repeat (apply Forall_cons; [lia|]); apply Forall_nil.
  - simpl. lia.
  - simpl. lia.
  - unfold Qle. simpl. lia.
Defined.

(** *** Labels from [np.argmax] *)

Lemma np_argmax_pair (p0 p1 : Q) :
  np_argmax [p0; p1] = Ok (if Qgt_bool p1 p0 then 1%Z else 0%Z).
Proof. unfold np_argmax. cbn [argmax_from]. destruct (Qgt_bool p1 p0); reflexivity. Qed.

(** X6.  On rows of two class probabilities that sum to 1 (a softmax
    output), the labels that [np.argmax(..., axis=1)] gives in the
    colorectal scripts are those that the cervical scripts obtain by
    comparing the second column to the default threshold 0.5; a tie goes
    to class 0 in both. *)
Theorem argmax_agrees_with_default_threshold (y_pred_prob : list (Q * Q)) :
  (forall row, In row y_pred_prob -> (fst row + snd row == 1)%Q) ->
  np_argmax_axis1 (rows_of y_pred_prob)
  = Ok (binarize (column1 y_pred_prob) Cervical.default_threshold).
Proof.
  induction y_pred_prob as [|[p0 p1] rest IH]; intros Hsum; [reflexivity|].
  cbn [rows_of map np_argmax_axis1 fst snd]. fold (rows_of rest).
  rewrite np_argmax_pair. cbn [bindR].
  rewrite IH by (intros row Hin; apply Hsum; right; exact Hin).
  cbn [bindR column1 binarize map snd]. do 2 f_equal.
  pose proof (Hsum (p0, p1) (or_introl eq_refl)) as H1. cbn [fst snd] in H1.
  unfold gt_threshold, Cervical.default_threshold.
  destruct (Qgt_bool p1 p0) eqn:E, (Qgt_bool p1 (1 # 2)) eqn:E'; try reflexivity.
  - apply Qgt_bool_true in E. apply Qgt_bool_false in E'. lra.
  - apply Qgt_bool_false in E. apply Qgt_bool_true in E'. lra.
Qed.

Lemma argmax_agrees_with_default_threshold_witness :
  np_argmax_axis1 (rows_of [(9 # 10, 1 # 10); (1 # 2, 1 # 2); (2 # 10, 8 # 10)]%Q)
  = Ok (binarize (column1 [(9 # 10, 1 # 10); (1 # 2, 1 # 2); (2 # 10, 8 # 10)]%Q)
          Cervical.default_threshold).
Proof.
  apply argmax_agrees_with_default_threshold.
  intros row [<- | [<- | [<- | []]]]; reflexivity.
Defined.

(** ** Worked examples for the runs of the harness *)


Lemma one_training_per_model_and_fold_witness :
  let w' := snd (Synthetic.run RaiseOnOneClass Synthetic.images Synthetic.labels
                   ["bfnet"; "zfnet"] 3) in
  count_events is_get_model (Cervical.log w') = 2 * 3
  /\ count_events Cervical.is_fit (Cervical.log w') = 2 * 3
  /\ count_events is_predict (Cervical.log w') = 2 * 3
  /\ count_events is_print_training (Cervical.log w') = 2.
Proof.
  intros w'.
  refine (one_training_per_model_and_fold RaiseOnOneClass
            Synthetic.Image Synthetic.Weights
            Synthetic.initial_weights Synthetic.fl_fit Synthetic.keras_predict
            Synthetic.rng Synthetic.check_random_state Synthetic.rng_shuffle
            Synthetic.uninitialised Synthetic.images Synthetic.labels
            ["bfnet"; "zfnet"] 3 _ w' _).
  vm_compute. reflexivity.
Defined.

Lemma fold_column_is_mean_fold_number_witness :
  Forall (fun row => exists q, Cervical.row_fold row = Finite q
                               /\ (q == (inject_Z (Z.of_nat 3) + 1) / 2)%Q)
    [{| Cervical.row_model := "bfnet";
        Cervical.row_fold := Finite (6 # 3);
        Cervical.row_accuracy := Finite (16 # 24);
        Cervical.row_sensitivity := Finite (2 # 3);
        Cervical.row_specificity := Finite (2 # 3);
        Cervical.row_roc_auc := Finite (3 # 3) |}].
Proof.
  refine (fold_column_is_mean_fold_number RaiseOnOneClass
            Synthetic.Image Synthetic.Weights
            Synthetic.initial_weights Synthetic.fl_fit Synthetic.keras_predict
            Synthetic.rng Synthetic.check_random_state Synthetic.rng_shuffle
            Synthetic.uninitialised Synthetic.images Synthetic.labels
            ["bfnet"] 3 Cervical.initial_world _
            (snd (Synthetic.run RaiseOnOneClass Synthetic.images Synthetic.labels
                    ["bfnet"] 3)) _).
  vm_compute. reflexivity.
Defined.

Lemma rows_measure_trained_models_witness :
  Forall2 (fun model_name row =>
      exists folds fold_results,
        split Synthetic.rng Synthetic.check_random_state Synthetic.rng_shuffle
          Synthetic.uninitialised (Cervical.skf_of 3) Synthetic.images Synthetic.labels
        = Ok folds
        /\ List.length folds = 3
        /\ row = Cervical.dataframe_mean model_name fold_results
        /\ map Cervical.fr_fold fold_results = seq 1 3
        /\ Forall2 (fold_record RaiseOnOneClass Synthetic.initial_weights
                      Synthetic.fl_fit Synthetic.keras_predict
                      Synthetic.images Synthetic.labels model_name)
                   folds fold_results)
    ["bfnet"]
    [{| Cervical.row_model := "bfnet";
        Cervical.row_fold := Finite (6 # 3);
        Cervical.row_accuracy := Finite (16 # 24);
        Cervical.row_sensitivity := Finite (2 # 3);
        Cervical.row_specificity := Finite (2 # 3);
        Cervical.row_roc_auc := Finite (3 # 3) |}].
Proof.
  refine (rows_measure_trained_models RaiseOnOneClass
            Synthetic.Image Synthetic.Weights
            Synthetic.initial_weights Synthetic.fl_fit Synthetic.keras_predict
            Synthetic.rng Synthetic.check_random_state Synthetic.rng_shuffle
            Synthetic.uninitialised Synthetic.images Synthetic.labels
            ["bfnet"] 3 _
            (snd (Synthetic.run RaiseOnOneClass Synthetic.images Synthetic.labels
                    ["bfnet"] 3)) _).
  vm_compute. reflexivity.
Defined.

Lemma run_makes_its_calls_in_order_witness :
  map call_of
    (Cervical.log (snd (Synthetic.run RaiseOnOneClass Synthetic.images Synthetic.labels
                          ["bfnet"; "resnet"] 2)))
  = [CallPrintTraining "bfnet" 2;
     CallPrintFold 1 2 "bfnet"; CallGetModel "bfnet"; CallFit 1 5; CallPredict;
     CallPrintFold 2 2 "bfnet"; CallGetModel "bfnet"; CallFit 2 5; CallPredict;
     CallPrintTraining "resnet" 2;
     CallPrintFold 1 2 "resnet"; CallGetModel "resnet"; CallFit 1 5; CallPredict;
     CallPrintFold 2 2 "resnet"; CallGetModel "resnet"; CallFit 2 5; CallPredict].
Proof.
  refine (run_makes_its_calls_in_order RaiseOnOneClass
            Synthetic.Image Synthetic.Weights
            Synthetic.initial_weights Synthetic.fl_fit Synthetic.keras_predict
            Synthetic.rng Synthetic.check_random_state Synthetic.rng_shuffle
            Synthetic.uninitialised Synthetic.images Synthetic.labels
            ["bfnet"; "resnet"] 2 _
            (snd (Synthetic.run RaiseOnOneClass Synthetic.images Synthetic.labels
                    ["bfnet"; "resnet"] 2)) _).
  vm_compute. reflexivity.
Defined.

(** The trainer fails on the second fold of the first model: the run
    ends there, with one completed evaluation and two training calls. *)
Lemma fold_failure_aborts_run_witness :
  let run :=
    Cervical.federated_kfold_cross_validation RaiseOnOneClass
      Synthetic.initial_weights flaky_fit Synthetic.keras_predict
      Synthetic.check_random_state Synthetic.rng_shuffle Synthetic.uninitialised
      Synthetic.images Synthetic.labels ([] ++ "bfnet" :: ["zfnet"]) 3
      Cervical.initial_world in
  fst run = Raise (ValueError "training diverged")
  /\ count_events Cervical.is_fit (Cervical.log (snd run)) = 2
  /\ count_events is_predict (Cervical.log (snd run)) = 1.
Proof.
  intros run.
  pose proof (fold_failure_aborts_run RaiseOnOneClass
            Synthetic.Image Synthetic.Weights
            Synthetic.initial_weights flaky_fit Synthetic.keras_predict
            Synthetic.rng Synthetic.check_random_state Synthetic.rng_shuffle
            Synthetic.uninitialised Synthetic.images Synthetic.labels
            [] ["zfnet"] "bfnet" 3
            [([0; 1; 2; 3], [4; 5])] [([2; 3; 4; 5], [0; 1])] [0; 1; 4; 5] [2; 3]
            Cervical.initial_world Cervical.initial_world
            (snd (Cervical.evaluate_fold RaiseOnOneClass Synthetic.initial_weights
                    flaky_fit Synthetic.keras_predict Synthetic.images Synthetic.labels
                    3 "bfnet" (0, ([0; 1; 2; 3], [4; 5]))
                    {| Cervical.log := [Cervical.EvPrintTraining "bfnet" 3];
                       Cervical.heap := []; Cervical.next_obj := 0 |}))
            (snd run) [] _ (ValueError "training diverged")
            ltac:(lia) eq_refl ltac:(vm_compute; reflexivity)
            ltac:(vm_compute; reflexivity) ltac:(vm_compute; reflexivity)) as Hrun.
  fold run in Hrun. rewrite Hrun. cbn [fst snd].
  repeat split; vm_compute; reflexivity.
Defined.

(** ** Dictionaries *)

Lemma dict_get_set_same (V : Type) (d : dict V) (key : string) (v : V) :
  dict_get (dict_set d key v) key = Some v.
Proof.
  induction d as [|[key' v'] d IH]; cbn [dict_set dict_get].
  - rewrite String.eqb_refl. reflexivity.
  - destruct (String.eqb key' key) eqn:E; cbn [dict_get]; rewrite E; [reflexivity | exact IH].
Qed.

Lemma dict_get_set_other (V : Type) (d : dict V) (key key' : string) (v : V) :
  key <> key' -> dict_get (dict_set d key v) key' = dict_get d key'.
Proof.
  intros Hne. induction d as [|[key0 v0] d IH]; cbn [dict_set dict_get].
  - destruct (String.eqb key key') eqn:E; [apply String.eqb_eq in E; contradiction|].
    reflexivity.
  - destruct (String.eqb key0 key) eqn:E; cbn [dict_get].
    + apply String.eqb_eq in E. subst key0.
      destruct (String.eqb key key') eqn:E'; [|reflexivity].
      apply String.eqb_eq in E'. contradiction.
    + rewrite IH. reflexivity.
Qed.

Lemma dict_keys_set (V : Type) (d : dict V) (key : string) (v : V) (x : string) :
  In x (dict_keys (dict_set d key v)) <-> x = key \/ In x (dict_keys d).
Proof.
  unfold dict_keys. induction d as [|[key' v'] d IH]; cbn [dict_set map fst In].
  - intuition congruence.
  - destruct (String.eqb key' key) eqn:E; cbn [map fst In].
    + apply String.eqb_eq in E. subst. intuition congruence.
    + rewrite IH. intuition congruence.
Qed.

Lemma dict_set_NoDup (V : Type) (d : dict V) (key : string) (v : V) :
  NoDup (dict_keys d) -> NoDup (dict_keys (dict_set d key v)).
Proof.
  unfold dict_keys. induction d as [|[key' v'] d IH]; cbn [dict_set map fst]; intros Hnd.
  - constructor; [intros [] | constructor].
  - inversion Hnd as [|? ? Hnotin Hnd']; subst.
    destruct (String.eqb key' key) eqn:E; cbn [map fst].
    + constructor; assumption.
    + constructor; [|apply IH; exact Hnd'].
      intros Hin. apply (dict_keys_set V d key v key') in Hin.
      destruct Hin as [-> | Hin]; [rewrite String.eqb_refl in E; discriminate|].
      exact (Hnotin Hin).
Qed.

Lemma dict_get_keys (V : Type) (d : dict V) (key : string) :
  In key (dict_keys d) <-> exists v, dict_get d key = Some v.
Proof.
  unfold dict_keys. induction d as [|[key' v'] d IH]; cbn [map fst In dict_get].
  - split; [intros [] | intros [v Hv]; discriminate].
  - destruct (String.eqb key' key) eqn:E.
    + apply String.eqb_eq in E. split; [intros _; eexists; reflexivity | auto].
    + rewrite IH. split; [intros [Heq | H]; [|exact H] | auto].
      subst. rewrite String.eqb_refl in E. discriminate.
Qed.

(** ** The colorectal pipeline of the MetisFL script *)

Section PipelineProperties.

Import MetisColorectal.

Variable Image : Type.
Variable Weights : Type.
Variable initial_weights : architecture -> nat -> Weights.
Variable server_train : Weights -> list Image * list Z -> nat -> result Weights.
Variable keras_predict : Weights -> list Image -> result (list (Q * Q)).
Variable train_data test_data : list Image * list Z.

Local Abbreviation one := (evaluate_one initial_weights server_train keras_predict
                             train_data test_data).
Local Abbreviation loop := (training_loop initial_weights server_train keras_predict
                              train_data test_data).
Local Abbreviation pipeline := (fun models_list =>
  federated_training initial_weights server_train keras_predict
    models_list train_data test_data).

Lemma pipeline_bind_inv (A B : Type) (m : M A) (k : A -> M B) (w : world)
  (r : result B) (w' : world) :
  bind m k w = (r, w') ->
  (exists a w1, m w = (Ok a, w1) /\ k a w1 = (r, w'))
  \/ (exists e, m w = (Raise e, w') /\ r = Raise e).
Proof.
  unfold bind. destruct (m w) as [[a|e] w1]; intros H.
  - left. exists a, w1. split; [reflexivity | exact H].
  - right. inversion H; subst. exists e. split; reflexivity.
Qed.

Lemma training_loop_app (l1 l2 : list string) :
  forall (d : dict metrics) (w : world),
    loop (l1 ++ l2) d w
    = match loop l1 d w with
      | (Ok d1, w1) => loop l2 d1 w1
      | (Raise e, w1) => (Raise e, w1)
      end.
Proof.
  induction l1 as [|name l1 IH]; intros d w; [reflexivity|].
  cbn [app training_loop]. unfold bind.
  destruct (one name w) as [[entry|e] w1]; [apply IH | reflexivity].
Qed.

Lemma training_loop_Ok (l : list string) :
  forall (d results : dict metrics) (w w' : world),
    loop l d w = (Ok results, w') ->
    (forall x, In x (dict_keys results) <-> In x (dict_keys d) \/ In x l)
    /\ (NoDup (dict_keys d) -> NoDup (dict_keys results))
    /\ (forall x, ~ In x l -> dict_get results x = dict_get d x).
Proof.
  induction l as [|name l IH]; intros d results w w' Hrun.
  - inversion Hrun; subst. repeat split; try tauto. intros [H | []]; exact H.
  - cbn [training_loop] in Hrun. apply pipeline_bind_inv in Hrun.
    destruct Hrun as [[entry [w1 [_ Hrun]]] | [e [_ He]]]; [|discriminate].
    apply IH in Hrun. destruct Hrun as (Hkeys & Hnd & Hget).
    split; [|split].
    + intros x. rewrite Hkeys, dict_keys_set. cbn [In]. intuition congruence.
    + intros H. apply Hnd, dict_set_NoDup. exact H.
    + intros x Hx. rewrite Hget by (intros H; apply Hx; right; exact H).
      apply dict_get_set_other. intros ->. apply Hx. left. reflexivity.
Qed.

Lemma evaluate_one_Ok_trains (name : string) (w : world) (entry : metrics) (w' : world) :
  one name w = (Ok entry, w') ->
  List.length (filter is_train (log w')) = S (List.length (filter is_train (log w))).
Proof.
  unfold evaluate_one, train, predict, get_model, bind, emit, liftR, ret.
  destruct test_data as [test_images test_labels].
  cbn [log next_obj].
  destruct (architecture_of name) as [a|]; [|discriminate].
  cbn [log next_obj arch obj].
  destruct (server_train _ _ _) as [trained|]; [|discriminate].
  cbn [log next_obj].
  destruct (keras_predict trained test_images) as [y_prob|]; [|discriminate].
  destruct (np_argmax_axis1 _) as [predictions|]; [|discriminate].
  destruct (Colorectal.calculate_metrics _ _) as [[[acc sens] spec]|]; [|discriminate].
  intros H. inversion H; subst. cbn [log].
  rewrite !filter_app, !length_app. cbn. lia.
Qed.

Lemma training_loop_trains (l : list string) :
  forall (d results : dict metrics) (w w' : world),
    loop l d w = (Ok results, w') ->
    List.length (filter is_train (log w'))
    = List.length (filter is_train (log w)) + List.length l.
Proof.
  induction l as [|name l IH]; intros d results w w' Hrun.
  - inversion Hrun; subst. cbn. lia.
  - cbn [training_loop] in Hrun. apply pipeline_bind_inv in Hrun.
    destruct Hrun as [[entry [w1 [Hone Hrun]]] | [e [_ He]]]; [|discriminate].
    apply IH in Hrun. apply evaluate_one_Ok_trains in Hone.
    rewrite Hrun, Hone. cbn [List.length]. lia.
Qed.

(** X11.  When the colorectal pipeline returns, its dictionary has one
    entry per distinct requested name, and the entry of a name holds the
    metrics of the last evaluation of that name: every listed entry is
    trained and evaluated, repeated ones included, and a repeated name
    overwrites its earlier result. *)
Theorem results_keep_last_evaluation (models_list : list string)
  (results : dict metrics) (w' : world) :
  pipeline models_list initial_world = (Ok results, w') ->
  NoDup (dict_keys results)
  /\ (forall name, In name (dict_keys results) <-> In name models_list)
  /\ List.length (filter is_train (log w')) = List.length models_list
  /\ forall earlier name later,
       models_list = earlier ++ name :: later -> ~ In name later ->
       exists d1 w1 entry w2,
         loop earlier [] initial_world = (Ok d1, w1)
         /\ one name w1 = (Ok entry, w2)
         /\ dict_get results name = Some entry.
Proof.
  unfold federated_training. intros Hrun.
  destruct (training_loop_Ok _ _ _ _ _ Hrun) as (Hkeys & Hnd & _).
  split; [apply Hnd; constructor|].
  split; [intros name; rewrite Hkeys; cbn; tauto|].
  split; [rewrite (training_loop_trains _ _ _ _ _ Hrun); reflexivity|].
  intros earlier name later -> Hlast.
  rewrite training_loop_app in Hrun.
  destruct (loop earlier [] initial_world) as [[d1|e] w1] eqn:Hearlier; [|discriminate].
  cbn [training_loop] in Hrun. apply pipeline_bind_inv in Hrun.
  destruct Hrun as [[entry [w2 [Hone Hrun]]] | [e [_ He]]]; [|discriminate].
  exists d1, w1, entry, w2. split; [reflexivity|]. split; [exact Hone|].
  destruct (training_loop_Ok _ _ _ _ _ Hrun) as (_ & _ & Hget).
  rewrite Hget by exact Hlast. apply dict_get_set_same.
Qed.

(** X12.  The colorectal pipeline checks a model name only when its turn
    comes: with an unsupported name in the list, the models listed before
    it are trained and evaluated first, then [get_model] raises and no
    dictionary is returned.  The name bfnet, which the cervical scripts
    accept, is unsupported here. *)
Theorem pipeline_rejects_name_at_its_turn (earlier later : list string)
  (model_name : string) (d1 : dict metrics) (w w1 : world) :
  architecture_of model_name = None ->
  loop earlier [] w = (Ok d1, w1) ->
  pipeline (earlier ++ model_name :: later) w
  = (Raise (ValueError "Unsupported model name"),
     {| log := log w1 ++ [EvPrint model_name]; next_obj := next_obj w1 |})
  /\ List.length (filter is_train (log w1))
     = List.length (filter is_train (log w)) + List.length earlier
  /\ architecture_of "bfnet" = None
  /\ Cervical.architecture_of "bfnet" = Some Cervical.BFNet.
Proof.
  intros Hnone Hearlier. split; [|split; [|split; reflexivity]].
  - unfold federated_training. rewrite training_loop_app, Hearlier.
    cbn [training_loop]. unfold evaluate_one, get_model, bind, emit.
    cbn [log next_obj]. rewrite Hnone. reflexivity.
  - eapply training_loop_trains. exact Hearlier.
Qed.

End PipelineProperties.

(** The model resnet is requested twice: it is trained twice, and the
    dictionary keeps what its second evaluation measured. *)
Lemma results_keep_last_evaluation_witness :
  let results :=
    [("resnet", {| MetisColorectal.accuracy := Finite (1 # 4);
                   MetisColorectal.sensitivity := Finite (1 # 2);
                   MetisColorectal.specificity := Finite (0 # 2) |});
     ("zfnet", {| MetisColorectal.accuracy := Finite (3 # 4);
                  MetisColorectal.sensitivity := Finite (1 # 2);
                  MetisColorectal.specificity := Finite (2 # 2) |})] in
  let w' := snd (SyntheticPipeline.run ["resnet"; "zfnet"; "resnet"]) in
  NoDup (dict_keys results)
  /\ (forall name, In name (dict_keys results) <-> In name ["resnet"; "zfnet"; "resnet"])
  /\ List.length (filter MetisColorectal.is_train (MetisColorectal.log w')) = 3
  /\ forall earlier name later,
       ["resnet"; "zfnet"; "resnet"] = earlier ++ name :: later -> ~ In name later ->
       exists d1 w1 entry w2,
         MetisColorectal.training_loop SyntheticPipeline.initial_weights
           SyntheticPipeline.server_train SyntheticPipeline.keras_predict
           SyntheticPipeline.train_data SyntheticPipeline.test_data
           earlier [] MetisColorectal.initial_world = (Ok d1, w1)
         /\ MetisColorectal.evaluate_one SyntheticPipeline.initial_weights
              SyntheticPipeline.server_train SyntheticPipeline.keras_predict
              SyntheticPipeline.train_data SyntheticPipeline.test_data name w1
            = (Ok entry, w2)
         /\ dict_get results name = Some entry.
Proof.
  intros results w'.
  refine (results_keep_last_evaluation Synthetic.Image Synthetic.Weights
            SyntheticPipeline.initial_weights SyntheticPipeline.server_train
            SyntheticPipeline.keras_predict SyntheticPipeline.train_data
            SyntheticPipeline.test_data ["resnet"; "zfnet"; "resnet"] results w' _).
  vm_compute. reflexivity.
Defined.

Lemma pipeline_rejects_name_at_its_turn_witness :
  fst (SyntheticPipeline.run ([("resnet" : string)] ++ "bfnet" :: ["zfnet"]))
  = Raise (ValueError "Unsupported model name")
  /\ List.length (filter MetisColorectal.is_train
                    (MetisColorectal.log (snd (SyntheticPipeline.run ["resnet"]))))
     = 1.
Proof.
  pose proof (pipeline_rejects_name_at_its_turn Synthetic.Image Synthetic.Weights
            SyntheticPipeline.initial_weights SyntheticPipeline.server_train
            SyntheticPipeline.keras_predict SyntheticPipeline.train_data
            SyntheticPipeline.test_data ["resnet"] ["zfnet"] "bfnet"
            _ MetisColorectal.initial_world (snd (SyntheticPipeline.run ["resnet"]))
            eq_refl ltac:(vm_compute; reflexivity)) as (Hrun & Htrain & _).
  split.
  - unfold SyntheticPipeline.run. rewrite Hrun. reflexivity.
  - exact Htrain.
Defined.

(** ** The dataset of the first script *)

Lemma py_index_in_range (A : Type) (l : list A) (idx : Z) :
  (- Z.of_nat (List.length l) <= idx < Z.of_nat (List.length l))%Z ->
  exists a, nth_error l (Z.to_nat (idx mod Z.of_nat (List.length l))) = Some a
            /\ py_index l idx = Ok a.
Proof.
  intros Hrange. unfold py_index.
  set (n := Z.of_nat (List.length l)) in *.
  assert (Hmod : (if (idx <? 0)%Z then (idx + n)%Z else idx) = (idx mod n)%Z).
  { destruct (idx <? 0)%Z eqn:E.
    - apply Z.ltb_lt in E. apply Z.mod_unique with (q := (-1)%Z); lia.
    - apply Z.ltb_ge in E. symmetry. apply Z.mod_small. lia. }
  rewrite Hmod.
  assert (Hm : (0 <= idx mod n < n)%Z) by (apply Z.mod_pos_bound; lia).
  replace ((idx mod n <? 0) || (n <=? idx mod n))%Z with false
    by (symmetry; apply orb_false_iff; split; [apply Z.ltb_ge | apply Z.leb_gt]; lia).
  destruct (nth_error l (Z.to_nat (idx mod n))) as [a|] eqn:Hnth.
  - exists a. split; reflexivity.
  - exfalso. apply nth_error_None in Hnth. unfold n in *. lia.
Qed.

Lemma py_index_out_of_range (A : Type) (l : list A) (idx : Z) :
  ~ (- Z.of_nat (List.length l) <= idx < Z.of_nat (List.length l))%Z ->
  py_index l idx = Raise (IndexError "index out of range").
Proof.
  intros Hrange. unfold py_index.
  set (n := Z.of_nat (List.length l)) in *.
  destruct (idx <? 0)%Z eqn:E.
  - apply Z.ltb_lt in E.
    replace ((idx + n <? 0) || (n <=? idx + n))%Z with true; [reflexivity|].
    symmetry. apply orb_true_iff. left. apply Z.ltb_lt. lia.
  - apply Z.ltb_ge in E.
    replace ((idx <? 0) || (n <=? idx))%Z with true; [reflexivity|].
    symmetry. apply orb_true_iff. right. apply Z.leb_le. lia.
Qed.

(** X13.  For a [ColorectalDataset] with as many labels as images,
    [__getitem__] accepts exactly the indices from -len to len - 1, a
    negative index counting from the end: it returns the label at that
    position unchanged, with the image at that position, passed through
    the transform when there is one; any other index raises
    [IndexError]. *)
Theorem dataset_getitem_bounds (Image : Type)
  (self : SubstraColorectal.ColorectalDataset Image) (idx : Z) :
  let n := Z.of_nat (SubstraColorectal.len self) in
  List.length (SubstraColorectal.labels self) = SubstraColorectal.len self ->
  ((- n <= idx < n)%Z ->
   exists image label,
     nth_error (SubstraColorectal.images self) (Z.to_nat (idx mod n)) = Some image
     /\ nth_error (SubstraColorectal.labels self) (Z.to_nat (idx mod n)) = Some label
     /\ SubstraColorectal.getitem self idx
        = match SubstraColorectal.transform self with
          | Some t => (image' <- t image ;; Ok (image', label))%result
          | None => Ok (image, label)
          end)
  /\ (~ (- n <= idx < n)%Z ->
      exists message, SubstraColorectal.getitem self idx = Raise (IndexError message)).
Proof.
  intros n Hlen. unfold SubstraColorectal.len in *. subst n. split.
  - intros Hrange.
    destruct (py_index_in_range _ (SubstraColorectal.images self) idx Hrange)
      as [image [Himage Hi]].
    rewrite <- Hlen in Hrange.
    destruct (py_index_in_range _ (SubstraColorectal.labels self) idx Hrange)
      as [label [Hlabel Hl]].
    rewrite Hlen in Hlabel.
    exists image, label. split; [exact Himage|]. split; [exact Hlabel|].
    unfold SubstraColorectal.getitem. rewrite Hi, Hl. cbn [bindR].
    destruct (SubstraColorectal.transform self) as [t|]; reflexivity.
  - intros Hrange. unfold SubstraColorectal.getitem.
    rewrite py_index_out_of_range by exact Hrange. eexists. reflexivity.
Qed.

Lemma dataset_getitem_bounds_witness :
  SubstraColorectal.getitem
    {| SubstraColorectal.images := [10; 20; 30];
       SubstraColorectal.labels := [0; 1; 1]%Z;
       SubstraColorectal.transform := Some (fun x => Ok (x + 1)) |} (-1)%Z
  = Ok (31, 1%Z)
  /\ exists message,
       SubstraColorectal.getitem
         {| SubstraColorectal.images := [10; 20; 30];
            SubstraColorectal.labels := [0; 1; 1]%Z;
            SubstraColorectal.transform := Some (fun x => Ok (x + 1)) |} 3%Z
       = Raise (IndexError message).
Proof.
  pose (ds := {| SubstraColorectal.images := [10; 20; 30];
                 SubstraColorectal.labels := [0; 1; 1]%Z;
                 SubstraColorectal.transform := Some (fun x => Ok (x + 1)) |}).
  split.
  - destruct (proj1 (dataset_getitem_bounds nat ds (-1)%Z eq_refl) ltac:(cbn; lia))
      as (image & label & Hi & Hl & Hget).
    cbn in Hi, Hl. inversion Hi; inversion Hl; subst. exact Hget.
  - apply (proj2 (dataset_getitem_bounds nat ds 3%Z eq_refl)). cbn. lia.
Defined.

(** ** The values of the returned table *)

Lemma finite_values_unit (col : list np_float) :
  Forall (fun x => in_unit_interval x \/ x = NaN) col ->
  Forall (fun y => finite y \/ y = NaN) col
  /\ Forall (fun q => (0 <= q)%Q /\ (q <= 1)%Q) (finite_values col).
Proof.
  induction 1 as [|x col Hx _ [IH1 IH2]]; [split; constructor|].
  destruct Hx as [(q & -> & Hq) | ->].
  - split; [constructor; [left; eexists; reflexivity | exact IH1]|].
    cbn [finite_values flat_map app]. constructor; assumption.
  - split; [constructor; [right; reflexivity | exact IH1] | exact IH2].
Qed.

(** The mean that pandas takes of a column of numbers between 0 and 1,
    some of which may be missing, is such a number, or missing. *)
Lemma pd_mean_unit_or_nan (col : list np_float) :
  Forall (fun x => in_unit_interval x \/ x = NaN) col ->
  in_unit_interval (pd_mean col) \/ pd_mean col = NaN.
Proof.
  intros Hcol. apply finite_values_unit in Hcol. destruct Hcol as [Hdef Hunit].
  unfold pd_mean. rewrite (filter_defined col Hdef).
  destruct (finite_values col) as [|q qs]; [right; reflexivity|].
  left. cbn [map].
  change (Finite q :: map Finite qs) with (map Finite (q :: qs)).
  rewrite np_sum_finite, length_map. cbn [np_div_count].
  eexists. split; [reflexivity|].
  destruct (Qsum_bounds Q (fun q => q) 1%Q (q :: qs)) as [H0 H1].
  { intros q' Hq. rewrite Forall_forall in Hunit. apply Hunit. exact Hq. }
  rewrite map_id in H0, H1.
  apply quotient_in_unit_interval; [exact H0 | lra].
Qed.

Lemma pd_mean_unit (col : list np_float) :
  col <> [] -> Forall in_unit_interval col -> in_unit_interval (pd_mean col).
Proof.
  intros Hne Hcol.
  assert (Hweak : Forall (fun x => in_unit_interval x \/ x = NaN) col).
  { eapply Forall_impl; [|exact Hcol]. intros x Hx. left. exact Hx. }
  destruct (pd_mean_unit_or_nan col Hweak) as [H | H]; [exact H|].
  exfalso. unfold pd_mean in H.
    destruct col as [|x col]; [contradiction|].
    inversion Hcol as [|? ? (q & -> & _) Hrest]; subst.
    cbn [filter is_nan negb] in H.
    destruct (np_sum (Finite q :: filter (fun x => negb (is_nan x)) col)) eqn:Hsum;
      cbn [np_div_count] in H; try discriminate.
    assert (Hall : exists qs, filter (fun x => negb (is_nan x)) col = map Finite qs).
    { clear -Hrest. induction Hrest as [|x col (q & -> & _) _ [qs IH]].
      - exists []. reflexivity.
      - exists (q :: qs). cbn [filter is_nan negb map]. rewrite IH. reflexivity. }
    destruct Hall as [qs Hqs]. rewrite Hqs in Hsum.
    change (Finite q :: map Finite qs) with (map Finite (q :: qs)) in Hsum.
    rewrite np_sum_finite in Hsum. discriminate.
Qed.

Section TableProperties.

Import Cervical.

Variable one_class : one_class_policy.
Variable Image : Type.
Variable Weights : Type.
Variable initial_weights : architecture -> nat -> Weights.
Variable fl_fit :
  Weights -> list Image * list Z -> list Image * list Z -> nat -> result Weights.
Variable keras_predict : Weights -> list Image -> result (list (Q * Q)).
Variable rng : Type.
Variable check_random_state : Z -> rng.
Variable rng_shuffle : rng -> list nat -> list nat * rng.
Variable uninitialised : nat -> nat.

Local Abbreviation fold_body :=
  (evaluate_fold one_class initial_weights fl_fit keras_predict).
Local Abbreviation model_body :=
  (evaluate_model one_class initial_weights fl_fit keras_predict
     check_random_state rng_shuffle uninitialised).
Local Abbreviation harness :=
  (federated_kfold_cross_validation one_class initial_weights fl_fit keras_predict
     check_random_state rng_shuffle uninitialised).

Lemma fold_results_in_unit_interval (images : list Image) (labels : list Z) (k : nat)
  (model_name : string) (items : list (nat * (list nat * list nat)))
  (w : world Weights) (fold_results : list fold_result) (w' : world Weights) :
  for_each items (fold_body images labels k model_name) w = (Ok fold_results, w') ->
  Forall (fun fr => in_unit_interval (fr_accuracy fr)
                    /\ in_unit_interval (fr_sensitivity fr)
                    /\ in_unit_interval (fr_specificity fr)
                    /\ (in_unit_interval (fr_roc_auc fr) \/ fr_roc_auc fr = NaN))
         fold_results.
Proof.
  intros Hrun. apply for_each_Ok in Hrun.
  induction Hrun as [|[fold [tr te]] fr items frs (w1 & w2 & Hfr) _ IH]; constructor;
    [|exact IH].
  apply evaluate_fold_Ok in Hfr. destruct Hfr as (_ & y_test & y_pred_prob & _ & Hm).
  eapply calculate_metrics_range. exact Hm.
Qed.

(** X16.  Every metric in the table that the harness returns is a number
    between 0 and 1, except that ROC-AUC is NaN for a model whose folds
    all left it undefined. *)
Theorem table_metrics_lie_in_unit_interval (images : list Image) (labels : list Z)
  (models : list string) (k : nat) (w : world Weights) (rows : list summary_row)
  (w' : world Weights) :
  harness images labels models k w = (Ok rows, w') ->
  Forall (fun row => in_unit_interval (row_accuracy row)
                     /\ in_unit_interval (row_sensitivity row)
                     /\ in_unit_interval (row_specificity row)
                     /\ (in_unit_interval (row_roc_auc row) \/ row_roc_auc row = NaN))
         rows.
Proof.
  unfold federated_kfold_cross_validation, new_StratifiedKFold.
  unfold bind at 1. unfold liftR at 1.
  destruct (k <=? 1) eqn:Hk; [discriminate|]. apply Nat.leb_gt in Hk.
  intros Hrun. apply for_each_Ok in Hrun.
  induction Hrun as [|name row models rows (w1 & w2 & Hrow) _ IH]; constructor;
    [|exact IH].
  apply evaluate_model_Ok in Hrow.
  destruct Hrow as (folds & frs & Hsplit & Hloop & ->).
  apply split_length in Hsplit. cbn [n_splits] in Hsplit.
  pose proof (fold_results_finite _ _ _ _ _ _ _ _ _ _ _ _ _ _ Hloop) as [Hlen _].
  rewrite enumerate_from_length, Hsplit in Hlen.
  apply fold_results_in_unit_interval in Hloop.
  assert (Hne : forall f : fold_result -> np_float, map f frs <> []).
  { intros f. destruct frs; [simpl in Hlen; lia | discriminate]. }
  cbn [dataframe_mean row_accuracy row_sensitivity row_specificity row_roc_auc].
  split; [|split; [|split]].
  - apply pd_mean_unit; [apply Hne|]. apply Forall_map.
    eapply Forall_impl; [|exact Hloop]. intros fr H. apply H.
  - apply pd_mean_unit; [apply Hne|]. apply Forall_map.
    eapply Forall_impl; [|exact Hloop]. intros fr H. apply H.
  - apply pd_mean_unit; [apply Hne|]. apply Forall_map.
    eapply Forall_impl; [|exact Hloop]. intros fr H. apply H.
  - apply pd_mean_unit_or_nan. apply Forall_map.
    eapply Forall_impl; [|exact Hloop]. intros fr H. apply H.
Qed.

End TableProperties.

Lemma table_metrics_lie_in_unit_interval_witness :
  Forall (fun row => in_unit_interval (Cervical.row_accuracy row)
                     /\ in_unit_interval (Cervical.row_sensitivity row)
                     /\ in_unit_interval (Cervical.row_specificity row)
                     /\ (in_unit_interval (Cervical.row_roc_auc row)
                         \/ Cervical.row_roc_auc row = NaN))
    [{| Cervical.row_model := "bfnet";
        Cervical.row_fold := Finite (6 # 3);
        Cervical.row_accuracy := Finite (16 # 24);
        Cervical.row_sensitivity := Finite (2 # 3);
        Cervical.row_specificity := Finite (2 # 3);
        Cervical.row_roc_auc := Finite (3 # 3) |}].
Proof.
  refine (table_metrics_lie_in_unit_interval RaiseOnOneClass
            Synthetic.Image Synthetic.Weights
            Synthetic.initial_weights Synthetic.fl_fit Synthetic.keras_predict
            Synthetic.rng Synthetic.check_random_state Synthetic.rng_shuffle
            Synthetic.uninitialised Synthetic.images Synthetic.labels
            ["bfnet"] 3 Cervical.initial_world _
            (snd (Synthetic.run RaiseOnOneClass Synthetic.images Synthetic.labels
                    ["bfnet"] 3)) _).
  vm_compute. reflexivity.
Defined.

(** ** Stratification: every fold tests on every well-represented class *)

Lemma sort_sorted (l : list nat) : StronglySorted Nat.le (NatSort.sort l).
Proof.
  assert (Htrans : RelationClasses.Transitive
                     (fun x y => is_true (NatOrder.leb x y))).
  { intros x y z Hxy Hyz. change (is_true (x <=? z)).
    change (is_true (x <=? y)) in Hxy. change (is_true (y <=? z)) in Hyz.
    unfold is_true in *. rewrite Nat.leb_le in *. lia. }
  pose proof (NatSort.StronglySorted_sort l Htrans) as Hs.
  induction Hs as [|x a _ IH Hall]; constructor; [exact IH|].
  eapply Forall_impl; [|exact Hall]. intros y Hy.
  change (is_true (x <=? y)) in Hy. apply Nat.leb_le. exact Hy.
Qed.

(** In a sorted list that starts with [e], the copies of [e] come
    first. *)
Lemma sorted_front (e : nat) (a : list nat) :
  StronglySorted Nat.le (e :: a) ->
  forall j, j < count_occ Nat.eq_dec a e -> nth_error a j = Some e.
Proof.
  induction a as [|y a IH]; intros Hs j Hj; [simpl in Hj; lia|].
  inversion Hs as [|? ? Ha Hall]; subst.
  inversion Ha as [|? ? Ha' Hall']; subst.
  inversion Hall as [|? ? Hey Hall'']; subst.
  cbn [count_occ] in Hj. destruct (Nat.eq_dec y e) as [-> | Hne].
  - destruct j as [|j]; [reflexivity|]. cbn [nth_error]. apply IH; [|lia].
    constructor; assumption.
  - exfalso.
    assert (Hnone : count_occ Nat.eq_dec a e = 0).
    { apply count_occ_not_In. intros Hin.
      rewrite Forall_forall in Hall'. apply Hall' in Hin. lia. }
    lia.
Qed.

(** In a sorted list the copies of a value sit next to each other. *)
Lemma sorted_block (e : nat) (a : list nat) :
  StronglySorted Nat.le a ->
  exists s, forall j, j < count_occ Nat.eq_dec a e -> nth_error a (s + j) = Some e.
Proof.
  induction 1 as [|x a Ha [s IH] Hall].
  - exists 0. intros j Hj. simpl in Hj. lia.
  - cbn [count_occ]. destruct (Nat.eq_dec x e) as [-> | Hne].
    + exists 0. intros [|j] Hj; [reflexivity|]. cbn [Nat.add nth_error].
      apply sorted_front; [constructor; assumption | lia].
    + exists (S s). intros j Hj. cbn [Nat.add nth_error]. apply IH. exact Hj.
Qed.

Lemma residue_within_block (s i k : nat) :
  i < k -> exists j, j < k /\ (s + j) mod k = i.
Proof.
  intros Hi.
  pose proof (Nat.div_mod_eq s k) as Hs.
  pose proof (Nat.mod_upper_bound s k ltac:(lia)) as Hr.
  set (q := s / k) in *. set (r := s mod k) in *.
  destruct (le_lt_dec r i) as [Hle | Hlt].
  - exists (i - r). split; [lia|]. symmetry. apply (Nat.mod_unique _ _ q); [exact Hi | nia].
  - exists (k + i - r). split; [lia|]. symmetry.
    apply (Nat.mod_unique _ _ (S q)); [exact Hi | nia].
Qed.

(** Slice [i] of a sorted list holds every value that occurs at least
    [k] times. *)
Lemma strided_holds_class (e i k : nat) (a : list nat) :
  StronglySorted Nat.le a -> i < k -> k <= count_occ Nat.eq_dec a e ->
  0 < count_occ Nat.eq_dec (strided i k a) e.
Proof.
  intros Hs Hi Hk.
  destruct (sorted_block e a Hs) as [s Hblock].
  destruct (residue_within_block s i k Hi) as [j [Hj Hmod]].
  pose proof (Hblock j ltac:(lia)) as Hnth.
  apply (proj1 (count_occ_In Nat.eq_dec _ _)).
  unfold strided. apply in_map_iff. exists (s + j, e). split; [reflexivity|].
  apply filter_In. split.
  - apply in_combine_seq; [reflexivity|]. split; [lia|].
    rewrite Nat.sub_0_r. exact Hnth.
  - cbn [fst]. rewrite stride_test by exact Hi. apply Nat.eqb_eq. symmetry. exact Hmod.
Qed.

Lemma arange_repeat_In (k i : nat) (counts : list nat) :
  i < k -> 0 < nth i counts 0 -> In i (arange_repeat k counts).
Proof.
  intros Hi Hpos. unfold arange_repeat. apply in_flat_map.
  exists i. split; [apply in_seq; lia|].
  destruct (nth i counts 0); [lia | left; reflexivity].
Qed.

(** Each value assigned to a class lands on a sample of that class. *)
Lemma assign_where_lands (c : nat) :
  forall enc arr vals arr' v,
    assign_where c enc vals arr = Ok arr' -> In v vals ->
    exists p, nth_error enc p = Some c /\ nth_error arr' p = Some v.
Proof.
  induction enc as [|e enc IH]; intros arr vals arr' v Hres Hin.
  - simpl in Hres. destruct vals; [destruct Hin | discriminate].
  - destruct arr as [|a arr].
    + simpl in Hres. destruct vals; [destruct Hin | discriminate].
    + cbn [assign_where] in Hres. destruct (e =? c) eqn:E.
      * apply Nat.eqb_eq in E. subst e.
        destruct vals as [|v0 vals]; [discriminate|].
        destruct (assign_where c enc vals arr) as [rest|] eqn:Hrec; [|discriminate].
        simpl in Hres. inversion Hres; subst.
        destruct Hin as [-> | Hin].
        -- exists 0. split; reflexivity.
        -- destruct (IH _ _ _ _ Hrec Hin) as [p [Hp Hv]]. exists (S p). split; assumption.
      * destruct (assign_where c enc vals arr) as [rest|] eqn:Hrec; [|discriminate].
        simpl in Hres. inversion Hres; subst.
        destruct (IH _ _ _ _ Hrec Hin) as [p [Hp Hv]]. exists (S p). split; assumption.
Qed.

(** Assigning to a class leaves the samples of the other classes as
    they are. *)
Lemma assign_where_other (c e : nat) :
  forall enc arr vals arr' p,
    assign_where c enc vals arr = Ok arr' ->
    nth_error enc p = Some e -> e <> c ->
    nth_error arr' p = nth_error arr p.
Proof.
  induction enc as [|e0 enc IH]; intros arr vals arr' p Hres Hp Hne.
  - destruct p; discriminate.
  - destruct arr as [|a arr].
    + simpl in Hres. destruct vals; [|discriminate]. inversion Hres. reflexivity.
    + cbn [assign_where] in Hres. destruct (e0 =? c) eqn:E.
      * apply Nat.eqb_eq in E. subst e0.
        destruct vals as [|v0 vals]; [discriminate|].
        destruct (assign_where c enc vals arr) as [rest|] eqn:Hrec; [|discriminate].
        simpl in Hres. inversion Hres; subst.
        destruct p as [|p]; [simpl in Hp; congruence|].
        cbn [nth_error] in *. eapply IH; eassumption.
      * destruct (assign_where c enc vals arr) as [rest|] eqn:Hrec; [|discriminate].
        simpl in Hres. inversion Hres; subst.
        destruct p as [|p]; [reflexivity|].
        cbn [nth_error] in *. eapply IH; eassumption.
Qed.

Section Stratification.

Variable rng : Type.
Variable check_random_state : Z -> rng.
Variable rng_shuffle : rng -> list nat -> list nat * rng.
Variable uninitialised : nat -> nat.

Hypothesis rng_shuffle_permutation :
  forall st l, Permutation l (fst (rng_shuffle st l)).

Lemma fill_classes_other (sh : bool) (k : nat) (allocation : list (list nat))
  (y_encoded : list nat) (e p : nat) :
  nth_error y_encoded p = Some e ->
  forall cs st arr test_folds,
    ~ In e cs ->
    fill_classes rng rng_shuffle sh k allocation y_encoded cs st arr = Ok test_folds ->
    nth_error test_folds p = nth_error arr p.
Proof.
  intros Hp. induction cs as [|c cs IH]; intros st arr test_folds Hno Hres.
  - simpl in Hres. inversion Hres. reflexivity.
  - cbn [fill_classes] in Hres.
    destruct (if sh then rng_shuffle st _ else _) as [vals st'].
    destruct (assign_where c y_encoded vals arr) as [arr1|] eqn:Hassign; [|discriminate].
    cbn [bindR] in Hres.
    rewrite (IH st' arr1 test_folds) by (try assumption; intros H; apply Hno; right; exact H).
    eapply assign_where_other; [exact Hassign | exact Hp |].
    intros ->. apply Hno. left. reflexivity.
Qed.

Lemma fill_classes_lands (sh : bool) (k : nat) (allocation : list (list nat))
  (y_encoded : list nat) (e i : nat) :
  In i (arange_repeat k (map (fun row => nth e row 0) allocation)) ->
  forall cs st arr test_folds,
    NoDup cs -> In e cs ->
    fill_classes rng rng_shuffle sh k allocation y_encoded cs st arr = Ok test_folds ->
    exists p, nth_error y_encoded p = Some e /\ nth_error test_folds p = Some i.
Proof.
  intros Hi. induction cs as [|c cs IH]; intros st arr test_folds Hnd Hin Hres;
    [destruct Hin|].
  inversion Hnd as [|? ? Hnotin Hnd']; subst.
  cbn [fill_classes] in Hres.
  set (ffc := arange_repeat k (map (fun row => nth c row 0) allocation)) in Hres.
  assert (Hvals : c = e -> In i (fst (if sh then rng_shuffle st ffc else (ffc, st)))).
  { intros ->. destruct sh; cbn [fst]; [|exact Hi].
    eapply Permutation_in; [apply rng_shuffle_permutation | exact Hi]. }
  destruct (if sh then rng_shuffle st ffc else (ffc, st)) as [vals st'].
  cbn [fst] in Hvals.
  destruct (assign_where c y_encoded vals arr) as [arr1|] eqn:Hassign; [|discriminate].
  cbn [bindR] in Hres.
  destruct Hin as [-> | Hin].
  - destruct (assign_where_lands _ _ _ _ _ _ Hassign (Hvals eq_refl)) as [p [Hp Hv]].
    exists p. split; [exact Hp|].
    rewrite (fill_classes_other sh k allocation y_encoded e p Hp cs st' arr1 test_folds
               Hnotin Hres).
    exact Hv.
  - eapply IH; eassumption.
Qed.

Lemma index_of_inj (a b : Z) (classes : list Z) :
  In a classes -> In b classes -> index_of a classes = index_of b classes -> a = b.
Proof.
  induction classes as [|c classes IH]; intros Ha Hb Heq; [destruct Ha|].
  cbn [index_of] in Heq.
  destruct (a =? c)%Z eqn:Ea, (b =? c)%Z eqn:Eb; try discriminate.
  - apply Z.eqb_eq in Ea, Eb. congruence.
  - apply Z.eqb_neq in Ea, Eb. injection Heq as Heq.
    destruct Ha as [Ha | Ha]; [congruence|]. destruct Hb as [Hb | Hb]; [congruence|].
    apply IH; assumption.
Qed.

(** Every fold receives, as a test sample, at least one member of each
    class that has at least [n_splits] members. *)
Lemma make_test_folds_stratified (skf : StratifiedKFold) (y : list Z)
  (test_folds : list nat) (c : Z) (i : nat) :
  make_test_folds rng check_random_state rng_shuffle uninitialised skf y = Ok test_folds ->
  n_splits skf <= count_occ Z.eq_dec y c -> i < n_splits skf ->
  exists p, nth_error y p = Some c /\ nth_error test_folds p = Some i.
Proof.
  unfold make_test_folds.
  set (classes := classes_of y).
  set (enc := map (fun c => index_of c classes) y).
  destruct (forallb _ _); [discriminate|]. intros Hres Hc Hi.
  assert (Hin : In c y) by (apply (count_occ_In Z.eq_dec); lia).
  assert (Hidx : index_of c classes < List.length classes)
    by (apply index_of_bound, classes_of_In, Hin).
  pose proof (count_occ_map_ge c (fun c => index_of c classes) y) as Hge. fold enc in Hge.
  set (e := index_of c classes) in *.
  assert (Halloc : In i (arange_repeat (n_splits skf)
            (map (fun row => nth e row 0)
               (map (fun i => bincount (strided i (n_splits skf) (NatSort.sort enc))
                                (List.length classes))
                    (seq 0 (n_splits skf)))))).
  { apply arange_repeat_In; [exact Hi|].
    rewrite map_map, nth_map_seq by exact Hi.
    unfold bincount. rewrite nth_map_seq by exact Hidx.
    apply strided_holds_class; [apply sort_sorted | exact Hi |].
    pose proof (proj1 (Permutation_count_occ Nat.eq_dec _ _)
                  (NatSort.Permuted_sort enc) e) as Hperm.
    lia. }
  assert (Hcs : In e (seq 0 (List.length classes))) by (apply in_seq; lia).
  destruct (fill_classes_lands _ _ _ enc e i Halloc _ _ _ _
              (seq_NoDup _ _) Hcs Hres) as [p [Hp Hv]].
  exists p. split; [|exact Hv].
  unfold enc in Hp. rewrite nth_error_map in Hp.
  destruct (nth_error y p) as [c'|] eqn:Hy; [|discriminate].
  cbn [option_map] in Hp. injection Hp as Hp. f_equal.
  apply (index_of_inj c' c classes); [| apply classes_of_In; exact Hin | exact Hp].
  apply classes_of_In. eapply nth_error_In. exact Hy.
Qed.

(** Each test fold holds a sample of every class that has at least
    [n_splits] members. *)
Lemma split_test_holds_class (X : Type) (skf : StratifiedKFold) (x : list X) (y : list Z)
  (folds : list (list nat * list nat)) (train_idx test_idx : list nat) (c : Z) :
  split rng check_random_state rng_shuffle uninitialised skf x y = Ok folds ->
  In (train_idx, test_idx) folds ->
  n_splits skf <= count_occ Z.eq_dec y c ->
  exists p, In p test_idx /\ nth_error y p = Some c.
Proof.
  unfold split.
  destruct (List.length y =? 0); [discriminate|].
  destruct (negb (List.length x =? List.length y)) eqn:Hlen; [discriminate|].
  apply negb_false_iff, Nat.eqb_eq in Hlen.
  destruct (List.length x <? n_splits skf); [discriminate|].
  destruct (make_test_folds _ _ _ _ skf y) as [test_folds|] eqn:Htf; [|discriminate].
  cbn [bindR]. intros H Hin Hc. inversion H; subst. clear H.
  apply in_map_iff in Hin. destruct Hin as [i [Hi Hrange]]. inversion Hi; subst.
  apply in_seq in Hrange.
  destruct (make_test_folds_stratified skf y test_folds c i Htf Hc ltac:(lia))
    as [p [Hy Hp]].
  apply (make_test_folds_bound rng check_random_state rng_shuffle uninitialised
           rng_shuffle_permutation) in Htf.
  destruct Htf as [Hlen_tf _].
  exists p. split; [|exact Hy].
  replace (List.length x) with (List.length test_folds) by congruence.
  apply in_test_indices. exact Hp.
Qed.

End Stratification.

(** ** When the harness returns a table *)

Lemma np_take_spec (A : Type) (arr : list A) :
  forall (idx : list nat) (l : list A),
    np_take arr idx = Ok l -> Forall2 (fun i a => nth_error arr i = Some a) idx l.
Proof.
  induction idx as [|i idx IH]; intros l Hres.
  - inversion Hres. constructor.
  - cbn [np_take] in Hres. destruct (nth_error arr i) as [a|] eqn:Hi; [|discriminate].
    destruct (np_take arr idx) as [rest|]; [|discriminate].
    cbn [bindR] in Hres. inversion Hres; subst. constructor; [exact Hi | apply IH; reflexivity].
Qed.

Lemma Forall2_In_l (A B : Type) (R : A -> B -> Prop) (l1 : list A) (l2 : list B) (a : A) :
  Forall2 R l1 l2 -> In a l1 -> exists b, In b l2 /\ R a b.
Proof.
  induction 1 as [|x y l1 l2 Hxy _ IH]; intros Hin; [destruct Hin|].
  destruct Hin as [-> | Hin].
  - exists y. split; [left; reflexivity | exact Hxy].
  - destruct (IH Hin) as [b [Hb Hr]]. exists b. split; [right; exact Hb | exact Hr].
Qed.

Lemma Forall2_In_r (A B : Type) (R : A -> B -> Prop) (l1 : list A) (l2 : list B) (b : B) :
  Forall2 R l1 l2 -> In b l2 -> exists a, In a l1 /\ R a b.
Proof.
  induction 1 as [|x y l1 l2 Hxy _ IH]; intros Hin; [destruct Hin|].
  destruct Hin as [-> | Hin].
  - exists x. split; [left; reflexivity | exact Hxy].
  - destruct (IH Hin) as [a [Ha Hr]]. exists a. split; [right; exact Ha | exact Hr].
Qed.

Section RunSucceeds.

Import Cervical.

Variable one_class : one_class_policy.
Variable Image : Type.
Variable Weights : Type.
Variable initial_weights : architecture -> nat -> Weights.
Variable fl_fit :
  Weights -> list Image * list Z -> list Image * list Z -> nat -> result Weights.
Variable keras_predict : Weights -> list Image -> result (list (Q * Q)).
Variable rng : Type.
Variable check_random_state : Z -> rng.
Variable rng_shuffle : rng -> list nat -> list nat * rng.
Variable uninitialised : nat -> nat.

Local Abbreviation fold_body :=
  (evaluate_fold one_class initial_weights fl_fit keras_predict).
Local Abbreviation model_body :=
  (evaluate_model one_class initial_weights fl_fit keras_predict
     check_random_state rng_shuffle uninitialised).
Local Abbreviation harness :=
  (federated_kfold_cross_validation one_class initial_weights fl_fit keras_predict
     check_random_state rng_shuffle uninitialised).
Local Abbreviation split_of := (split rng check_random_state rng_shuffle uninitialised).

Lemma for_each_total (A B : Type) (body : A -> M Weights B) :
  forall l : list A,
    (forall a w, In a l -> exists b w', body a w = (Ok b, w')) ->
    forall w, exists bs w', for_each l body w = (Ok bs, w').
Proof.
  induction l as [|a l IH]; intros Hbody w.
  - exists [], w. reflexivity.
  - destruct (Hbody a w (or_introl eq_refl)) as (b & w1 & Hb).
    destruct (IH (fun a' w0 Hin => Hbody a' w0 (or_intror Hin)) w1) as (bs & w2 & Hbs).
    exists (b :: bs), w2. cbn [for_each]. unfold bind. rewrite Hb, Hbs. reflexivity.
Qed.

(** X17.  The harness returns a table, one row per requested model,
    whenever k is at least 2, the labels are 0 or 1 and as many as the
    images, each of the two classes has at least k members, every
    requested name is supported, the shuffle permutes, the trainer
    returns, and [predict] returns one row per input.  That both classes
    occur is not enough: each must have k members for every test fold to
    hold both. *)
Theorem run_returns_a_table (images : list Image) (labels : list Z)
  (models : list string) (k : nat) (w : world Weights) :
  (forall st l, Permutation l (fst (rng_shuffle st l))) ->
  (forall before train_node test_node epochs,
      exists after, fl_fit before train_node test_node epochs = Ok after) ->
  (forall trained x,
      exists y_pred_prob,
        keras_predict trained x = Ok y_pred_prob
        /\ List.length y_pred_prob = List.length x) ->
  2 <= k ->
  List.length images = List.length labels -> binary labels ->
  k <= count_occ Z.eq_dec labels 0%Z -> k <= count_occ Z.eq_dec labels 1%Z ->
  Forall (fun model_name => architecture_of model_name <> None) models ->
  exists rows w',
    harness images labels models k w = (Ok rows, w')
    /\ List.length rows = List.length models.
Proof.
  intros Hperm Htrain Hpredict Hk Hlen Hbin H0 H1 Hnames.
  assert (Hsplit : exists folds, split_of (skf_of k) images labels = Ok folds).
  { unfold split. cbn [n_splits skf_of].
    pose proof (count_occ_bound Z.eq_dec 0%Z labels) as Hb.
    destruct (List.length labels =? 0) eqn:E0; [apply Nat.eqb_eq in E0; lia|].
    rewrite Hlen, Nat.eqb_refl. cbn [negb].
    destruct (List.length labels <? k) eqn:E1; [apply Nat.ltb_lt in E1; lia|].
    destruct (make_test_folds_ok rng check_random_state rng_shuffle uninitialised Hperm
                (skf_of k) labels 0%Z) as [test_folds Htf]; [cbn; lia | exact H0 |].
    rewrite Htf. cbn [bindR]. eexists; reflexivity. }
  destruct Hsplit as [folds Hsplit].
  assert (Hfold : forall model_name fold train_idx test_idx w0,
            architecture_of model_name <> None ->
            In (train_idx, test_idx) folds ->
            exists fr w1,
              fold_body images labels k model_name (fold, (train_idx, test_idx)) w0
              = (Ok fr, w1)).
  { intros model_name fold tr te w0 Hname Hin.
    destruct (split_in_range _ _ _ _ _ _ _ _ _ _ _ Hsplit Hin) as (_ & Htr & Hte).
    destruct (np_take_ok _ images tr Htr) as [x_train Hxtr].
    destruct (np_take_ok _ images te Hte) as [x_test Hxte].
    rewrite Hlen in Htr, Hte.
    destruct (np_take_ok _ labels tr Htr) as [y_train Hytr].
    destruct (np_take_ok _ labels te Hte) as [y_test Hyte].
    destruct (architecture_of model_name) as [a|] eqn:Ha; [|contradiction].
    unfold evaluate_fold, get_model, fit, predict, bind, emit, liftR, ret.
    rewrite Hxtr, Hxte, Hytr, Hyte, Ha. cbn [log heap next_obj].
    destruct (Htrain
      (current_weights initial_weights
         {| log := (log w0 ++ [EvPrintFold (fold + 1) k model_name])
                   ++ [EvGetModel model_name
                         {| arch := a; layers := layers_of a; input_shape := input_shape_of a (64, 64, 3);
                            obj := next_obj w0 |}];
            heap := heap w0; next_obj := S (next_obj w0) |}
         {| arch := a; layers := layers_of a; input_shape := input_shape_of a (64, 64, 3);
            obj := next_obj w0 |})
      (x_train, y_train) (x_test, y_test) 5) as [after Hafter].
    rewrite Hafter. cbn [log heap next_obj].
    match goal with
    | |- context [keras_predict ?wt x_test] =>
        destruct (Hpredict wt x_test) as (y_pred_prob & Hprob & Hrows)
    end.
    rewrite Hprob.
    pose proof (np_take_spec _ _ _ _ Hyte) as Hy.
    pose proof (np_take_spec _ _ _ _ Hxte) as Hx.
    assert (Hclass : forall c, k <= count_occ Z.eq_dec labels c -> In c y_test).
    { intros c Hc.
      destruct (split_test_holds_class rng check_random_state rng_shuffle uninitialised
                  Hperm _ (skf_of k) images labels folds tr te c Hsplit Hin Hc)
        as (p & Hp & Hlabel).
      destruct (Forall2_In_l _ _ _ _ _ _ Hy Hp) as (c' & Hc' & Hnth).
      congruence. }
    destruct (calculate_metrics_two_classes one_class y_test y_pred_prob default_threshold)
      as [auc Hm].
    - rewrite Hrows, <- (Forall2_length Hx), (Forall2_length Hy). reflexivity.
    - apply Forall_forall. intros c Hc.
      destruct (Forall2_In_r _ _ _ _ _ _ Hy Hc) as (p & _ & Hnth).
      unfold binary in Hbin. rewrite Forall_forall in Hbin. apply Hbin.
      eapply nth_error_In. exact Hnth.
    - apply Hclass. exact H0.
    - apply Hclass. exact H1.
    - rewrite Hm. eexists _, _. reflexivity. }
  assert (Hmodel : forall model_name w0,
            architecture_of model_name <> None ->
            exists row w1, model_body (skf_of k) images labels k model_name w0 = (Ok row, w1)).
  { intros model_name w0 Hname. unfold evaluate_model.
    unfold bind at 1. unfold emit at 1. unfold bind at 1. unfold liftR at 1.
    rewrite Hsplit. unfold bind at 1.
    assert (Hbody : forall item wa, In item (enumerate_from 0 folds) ->
              exists fr wa', fold_body images labels k model_name item wa = (Ok fr, wa')).
    { intros [fold [tr te]] wa Hin. apply (enumerate_from_In uninitialised) in Hin.
      destruct Hin as [_ Hnth]. apply nth_error_In in Hnth.
      apply Hfold; assumption. }
    destruct (for_each_total _ _ _ _ Hbody
                {| log := log w0 ++ [EvPrintTraining model_name k];
                   heap := heap w0; next_obj := next_obj w0 |}) as (frs & w1 & Hfrs).
    rewrite Hfrs. eexists _, _. reflexivity. }
  unfold federated_kfold_cross_validation, new_StratifiedKFold.
  unfold bind at 1. unfold liftR at 1.
  destruct (k <=? 1) eqn:E; [apply Nat.leb_le in E; lia|].
  fold (skf_of k).
  assert (Hbody : forall model_name w0, In model_name models ->
            exists row w1,
              model_body (skf_of k) images labels k model_name w0 = (Ok row, w1)).
  { intros model_name w0 Hin. apply Hmodel.
    rewrite Forall_forall in Hnames. apply Hnames. exact Hin. }
  destruct (for_each_total _ _ _ _ Hbody w) as (rows & w' & Hrows).
  exists rows, w'. split; [exact Hrows|].
  apply for_each_Ok in Hrows. symmetry. eapply Forall2_length. exact Hrows.
Qed.

End RunSucceeds.

Lemma run_returns_a_table_witness :
  exists rows w',
    Synthetic.run RaiseOnOneClass Synthetic.images Synthetic.labels ["bfnet"; "resnet"] 3
    = (Ok rows, w')
    /\ List.length rows = 2.
Proof.
  apply (run_returns_a_table RaiseOnOneClass Synthetic.Image Synthetic.Weights
           Synthetic.initial_weights Synthetic.fl_fit Synthetic.keras_predict
           Synthetic.rng Synthetic.check_random_state Synthetic.rng_shuffle
           Synthetic.uninitialised Synthetic.images Synthetic.labels
           ["bfnet"; "resnet"] 3 Cervical.initial_world).
  - intros st l. apply Permutation_rev.
  - intros before train_node test_node epochs. eexists. reflexivity.
  - intros trained x. eexists. split; [reflexivity | apply length_map].
  - lia.
  - reflexivity.
  - repeat (apply Forall_cons; [lia|]); apply Forall_nil.
  - vm_compute. lia.
  - vm_compute. lia.
  - repeat (apply Forall_cons; [discriminate|]); apply Forall_nil.
Defined.

(** ** The Fed-BioMed colorectal script *)

(** X18.  [federated_training] of the Fed-BioMed colorectal script
    returns [None] exactly when the request ends with a status other than
    SUCCESS, after printing its message and without calling [predict]; it
    returns metrics only after a successful request and one call of
    [predict], each of them a number between 0 and 1 or NaN, and prints
    nothing then.  An exception of the request, of [predict] or of the
    metrics is not turned into [None]. *)
Theorem failed_request_returns_none (Image Weights Status : Type)
  (is_success : Status -> bool) (created_weights : Weights)
  (env_run : Weights -> list Image * list Z -> list Image * list Z
             -> result (Status * Weights))
  (keras_predict : Weights -> list Image -> result (list (Q * Q)))
  (train_images : list Image) (train_labels : list Z)
  (test_images : list Image) (test_labels : list Z) :
  let run := FedBioMedColorectal.federated_training is_success created_weights env_run
               keras_predict train_images train_labels test_images test_labels in
  (fst run = Ok None
   <-> exists status trained,
         env_run created_weights (train_images, train_labels) (test_images, test_labels)
         = Ok (status, trained) /\ is_success status = false)
  /\ (fst run = Ok None ->
      snd run = [FedBioMedColorectal.EvRun;
                 FedBioMedColorectal.EvPrint "Training failed!"])
  /\ (forall m, fst run = Ok (Some m) ->
        snd run = [FedBioMedColorectal.EvRun; FedBioMedColorectal.EvPredict]
        /\ (exists status trained,
              env_run created_weights (train_images, train_labels)
                (test_images, test_labels) = Ok (status, trained)
              /\ is_success status = true)
        /\ (in_unit_interval (MetisColorectal.accuracy m)
            \/ MetisColorectal.accuracy m = NaN)
        /\ (in_unit_interval (MetisColorectal.sensitivity m)
            \/ MetisColorectal.sensitivity m = NaN)
        /\ (in_unit_interval (MetisColorectal.specificity m)
            \/ MetisColorectal.specificity m = NaN)).
Proof.
  intros run. subst run. unfold FedBioMedColorectal.federated_training.
  destruct (env_run created_weights _ _) as [[status trained]|e].
  - destruct (is_success status) eqn:Hs.
    + cbn [fst snd].
      destruct (keras_predict trained test_images) as [y_prob|]; cbn [bindR].
      2: { split; [split; [discriminate | intros (s & t & Heq & Hf); congruence]|].
           split; [discriminate | intros m; discriminate]. }
      destruct (np_argmax_axis1 (rows_of y_prob)) as [predictions|]; cbn [bindR].
      2: { split; [split; [discriminate | intros (s & t & Heq & Hf); congruence]|].
           split; [discriminate | intros m; discriminate]. }
      destruct (Colorectal.calculate_metrics test_labels predictions)
        as [[[acc sens] spec]|] eqn:Hm; cbn [bindR].
      2: { split; [split; [discriminate | intros (s & t & Heq & Hf); congruence]|].
           split; [discriminate | intros m; discriminate]. }
      split; [split; [discriminate | intros (s & t & Heq & Hf); congruence]|].
      split; [discriminate|].
      intros m Heq. inversion Heq; subst. cbn.
      split; [reflexivity|]. split; [exists status, trained; split; [reflexivity | exact Hs]|].
      eapply label_metrics_range. exact Hm.
    + cbn [fst snd]. split; [|split; [reflexivity | intros m; discriminate]].
      split; [intros _; exists status, trained; split; [reflexivity | exact Hs] | reflexivity].
  - cbn [fst snd]. split; [|split; [discriminate | intros m; discriminate]].
    split; [discriminate | intros (s & t & Heq & _); discriminate].
Qed.

(** ** Perfect and inverted predictions *)

Lemma count_pairs_diagonal (t p : Z) (y : list Z) :
  t <> p -> count_pairs t p y y = 0%Z.
Proof.
  intros Hne. unfold count_pairs.
  induction y as [|a y IH]; [reflexivity|].
  cbn [combine filter fst snd].
  destruct (a =? t)%Z eqn:Et, (a =? p)%Z eqn:Ep; cbn [andb]; try exact IH.
  apply Z.eqb_eq in Et, Ep. congruence.
Qed.

Lemma count_pairs_flipped (t : Z) (y : list Z) :
  binary y -> (t = 0 \/ t = 1)%Z -> count_pairs t t y (map (fun c => 1 - c)%Z y) = 0%Z.
Proof.
  intros Hb Ht. unfold count_pairs.
  induction Hb as [|a y Ha _ IH]; [reflexivity|].
  cbn [map combine filter fst snd].
  destruct (a =? t)%Z eqn:Et, (1 - a =? t)%Z eqn:Ep; cbn [andb]; try exact IH.
  apply Z.eqb_eq in Et, Ep. lia.
Qed.

Lemma ratio_one (n : Z) : (0 < n)%Z -> (inject_Z n / inject_Z n == 1)%Q.
Proof.
  intros Hn. pose proof (inject_Z_pos n Hn). field. lra.
Qed.

Lemma ratio_zero (n : Z) : (inject_Z 0 / inject_Z n == 0)%Q.
Proof. unfold Qdiv. change (inject_Z 0) with 0%Q. ring. Qed.

(** X19.  On true labels in {0, 1} holding both classes, predictions
    that equal the true labels give accuracy, sensitivity and
    specificity 1, and predictions that are wrong on every sample give 0
    for the three of them. *)
Theorem perfect_and_inverted_predictions (one_class : one_class_policy)
  (y_true : list Z) (y_pred_prob : list (Q * Q)) (threshold : Q) :
  binary y_true -> In 0%Z y_true -> In 1%Z y_true ->
  let y_pred := binarize (column1 y_pred_prob) threshold in
  (y_pred = y_true \/ y_pred = map (fun c => 1 - c)%Z y_true) ->
  exists a s p roc_auc,
    Cervical.calculate_metrics one_class y_true y_pred_prob threshold
    = Ok (Finite a, Finite s, Finite p, roc_auc)
    /\ Colorectal.calculate_metrics y_true y_pred = Ok (Finite a, Finite s, Finite p)
    /\ (y_pred = y_true -> (a == 1)%Q /\ (s == 1)%Q /\ (p == 1)%Q)
    /\ (y_pred = map (fun c => 1 - c)%Z y_true -> (a == 0)%Q /\ (s == 0)%Q /\ (p == 0)%Q).
Proof.
  intros Ht H0 H1 y_pred Hcase.
  assert (Hlen : List.length y_true = List.length y_pred_prob).
  { assert (Hl : List.length y_pred = List.length y_true)
      by (destruct Hcase as [-> | ->]; [reflexivity | apply length_map]).
    unfold y_pred, column1 in Hl. rewrite binarize_length, length_map in Hl.
    symmetry. exact Hl. }
  assert (Hlen' : List.length y_true = List.length y_pred)
    by (unfold y_pred, column1; rewrite binarize_length, length_map; exact Hlen).
  assert (Hp : binary y_pred) by apply binarize_binary.
  destruct (calculate_metrics_two_classes one_class y_true y_pred_prob threshold
              Hlen Ht H0 H1) as [auc Hm].
  pose proof (calculate_metrics_labels_two_classes y_true y_pred Hlen' Ht Hp H0 H1) as Hl.
  cbv zeta in Hm, Hl. fold y_pred in Hm.
  pose proof (true_class_positive 1 y_true y_pred Hlen' Ht Hp H1) as Hpos.
  pose proof (true_class_positive 0 y_true y_pred Hlen' Ht Hp H0) as Hneg.
  pose proof (count_pairs_nonneg 0 0 y_true y_pred).
  pose proof (count_pairs_nonneg 0 1 y_true y_pred).
  pose proof (count_pairs_nonneg 1 0 y_true y_pred).
  pose proof (count_pairs_nonneg 1 1 y_true y_pred).
  eexists _, _, _, _. split; [exact Hm|]. split; [exact Hl|]. split.
  - intros Heq. rewrite Heq in *.
    rewrite !(count_pairs_diagonal 0 1), !(count_pairs_diagonal 1 0) in * by lia.
    rewrite !Z.add_0_r in *. repeat split; apply ratio_one; lia.
  - intros Heq. rewrite Heq in *.
    rewrite !(count_pairs_flipped 0), !(count_pairs_flipped 1) in * by (auto; lia).
    repeat split; apply ratio_zero.
Qed.

Lemma perfect_and_inverted_predictions_witness :
  exists a s p roc_auc,
    Cervical.calculate_metrics NanOnOneClass [0; 1; 1]%Z
      [(9 # 10, 1 # 10); (2 # 10, 8 # 10); (4 # 10, 6 # 10)]%Q (1 # 2)%Q
    = Ok (Finite a, Finite s, Finite p, roc_auc)
    /\ (a == 1)%Q /\ (s == 1)%Q /\ (p == 1)%Q.
Proof.
  destruct (perfect_and_inverted_predictions NanOnOneClass [0; 1; 1]%Z
              [(9 # 10, 1 # 10); (2 # 10, 8 # 10); (4 # 10, 6 # 10)]%Q (1 # 2)%Q)
    as (a & s & p & r & Hm & _ & Hperfect & _).
  - repeat (apply Forall_cons; [lia|]); apply Forall_nil.
  - simpl. lia.
  - simpl. lia.
  - left. reflexivity.
  - exists a, s, p, r. split; [exact Hm|]. apply Hperfect. reflexivity.
Defined.
